(** * microbus-io/errors: a shallow embedding of the traced-error package

    The Go package wraps an [error] with a stack trace, a status code, a
    trace ID and a property bag.  Errors are pointers in Go: two names may
    denote the same [*TracedError], and [Convert] and [traceCaller] write
    through that pointer.  The embedding therefore keeps the traced errors
    in a store indexed by address, and every operation of the package is a
    computation over that store which may panic (a nil dereference). *)

From Stdlib Require Import ZArith String Ascii List Lia.
From stdpp Require Import gmap strings list fin_maps sorting.

Set Warnings "-register-all".

Local Open Scope Z_scope.
Local Open Scope string_scope.

(** ** Data model *)

Definition addr := nat.

(** [StackFrame] of tracederror.go. *)
Record StackFrame := mkStackFrame {
  Function : string;
  File : string;
  Line : Z
}.

(** Go's [error] interface holding one of the pointer types the package
    meets.  [ErrorString] is [*errors.errorString] (and any other leaf
    error that has only a message), [WrapError] is what [fmt.Errorf]
    returns when the pattern has [%w] verbs (the message is computed when
    the value is built), [JoinError] is what the standard [errors.Join]
    returns, [Traced] is a [*TracedError].  The nil interface is [None] of
    [option error]. *)
Inductive error : Type :=
  | ErrorString (p : addr) (s : string)
  | WrapError (p : addr) (msg : string) (errs : list error)
  | JoinError (p : addr) (errs : list error)
  | Traced (p : addr).
Arguments ErrorString p%_nat s%_string.
Arguments WrapError p%_nat msg%_string errs.
Arguments JoinError p%_nat errs.
Arguments Traced p%_nat.

(** A JSON document, kept as the tree its text denotes.  Numbers are
    integers: fractions and exponents are outside the model. *)
Inductive json : Type :=
  | JNull
  | JBool (b : bool)
  | JNumber (z : Z)
  | JString (s : string)
  | JArray (l : list json)
  | JObject (kv : list (string * json)).

(** Go's [any].  [AInt] is the type [int] only; every other numeric type,
    booleans, structs and the nil interface are "other" types for the
    type switch of [New].  [AStack] is a [[]*StackFrame] (a nil pointer in
    it is [None]), [AFloat64] a [float64] holding an integer, [AJSON] the
    [[]any] or [map[string]any] the JSON decoder builds for an array or
    an object. *)
Inductive any : Type :=
  | ANil
  | AInt (k : Z)
  | AString (s : string)
  | AError (e : error)
  | ABool (b : bool)
  | AFloat64 (z : Z)
  | AStack (l : list (option StackFrame))
  | AJSON (j : json)
  | AOther (tag : nat).

Module TracedError.
(** The struct [TracedError].  A nil slice and a nil map are [None], and
    so is a nil pointer in the slice [Stack]. *)
Record t := mk {
  Err : option error;
  Stack : option (list (option StackFrame));
  StatusCode : Z;
  Trace : string;
  Properties : option (gmap string any)
}.

(** [&TracedError{}] *)
Definition zero : t := mk None None 0 "" None.

Definition setErr (e : t) (x : option error) : t :=
  mk x (Stack e) (StatusCode e) (Trace e) (Properties e).
Definition setStack (e : t) (x : option (list (option StackFrame))) : t :=
  mk (Err e) x (StatusCode e) (Trace e) (Properties e).
Definition setStatusCode (e : t) (x : Z) : t :=
  mk (Err e) (Stack e) x (Trace e) (Properties e).
Definition setTrace (e : t) (x : string) : t :=
  mk (Err e) (Stack e) (StatusCode e) x (Properties e).
Definition setProperties (e : t) (x : option (gmap string any)) : t :=
  mk (Err e) (Stack e) (StatusCode e) (Trace e) x.
End TracedError.

(** The store: the traced errors that exist, by address, and the next free
    address (every allocation of an error value takes one). *)
Record store := mkStore {
  heap : gmap addr TracedError.t;
  next : addr
}.
Arguments mkStore heap next%_nat.

(** ** Computations over the store that may panic *)

Inductive result (A : Type) : Type :=
  | Ok (a : A)
  | Panic.
Arguments Ok {A} a.
Arguments Panic {A}.

Definition M (A : Type) : Type := store -> result (A * store).

Definition ret {A} (a : A) : M A := fun s => Ok (a, s).

Definition bind {A B} (m : M A) (f : A -> M B) : M B :=
  fun s => match m s with
           | Ok (a, s') => f a s'
           | Panic => Panic
           end.

Notation "'let*' x ':=' m 'in' k" := (bind m (fun x => k))
  (at level 10, x name, m at level 100, k at level 200).
Notation "m1 ';;' m2" := (bind m1 (fun _ => m2))
  (at level 100, m2 at level 200, right associativity).

Definition panic {A} : M A := fun _ => Panic.

(** A fresh address. *)
Definition alloc : M addr :=
  fun s => Ok (next s, mkStore (heap s) (S (next s))).

(** [*p], which panics when there is no object at [p] (a nil pointer). *)
Definition load (p : addr) : M TracedError.t :=
  fun s => match heap s !! p with
           | Some e => Ok (e, s)
           | None => Panic
           end.

(** [*p = e] *)
Definition storeAt (p : addr) (e : TracedError.t) : M unit :=
  fun s => Ok (tt, mkStore (<[p := e]> (heap s)) (next s)).

(** [&TracedError{...}] *)
Definition newTraced (e : TracedError.t) : M addr :=
  let* p := alloc in storeAt p e ;; ret p.

(** [errors.New(s)] of the standard library. *)
Definition stderrors_New (s : string) : M error :=
  let* p := alloc in ret (ErrorString p s).

(** ** errors.go: Convert and StatusCode *)

Definition Convert (err : option error) : M (option addr) :=
  match err with
  | None => ret None
  | Some (Traced p) =>
      let* tracedErr := load p in
      (if (TracedError.StatusCode tracedErr =? 0)%Z
       then storeAt p (TracedError.setStatusCode tracedErr 500)
       else ret tt) ;;
      ret (Some p)
  | Some e =>
      let* p := newTraced (TracedError.mk (Some e) None 500 "" None) in
      ret (Some p)
  end.

Definition StatusCode (err : option error) : M Z :=
  match err with
  | None => ret 0
  | Some _ =>
      let* r := Convert err in
      match r with
      | Some p => let* e := load p in ret (TracedError.StatusCode e)
      | None => panic
      end
  end.

(** ** The status text table of errors.go; a missing key reads as the
    empty string, as a Go map does. *)
Definition statusText (k : Z) : string :=
  match k with
  | 100 => "continue"
  | 101 => "switching protocol"
  | 102 => "processing"
  | 103 => "early hints"
  | 200 => "ok"
  | 201 => "created"
  | 202 => "accepted"
  | 203 => "non-authoritative information"
  | 204 => "no content"
  | 205 => "reset content"
  | 206 => "partial content"
  | 300 => "multiple choices"
  | 301 => "moved permanently"
  | 302 => "found"
  | 303 => "see other"
  | 304 => "not modified"
  | 307 => "temporary redirect"
  | 308 => "permanent redirect"
  | 400 => "bad request"
  | 401 => "unauthorized"
  | 402 => "payment required"
  | 403 => "forbidden"
  | 404 => "not found"
  | 405 => "method not allowed"
  | 406 => "not acceptable"
  | 407 => "proxy authentication required"
  | 408 => "request timeout"
  | 409 => "conflict"
  | 410 => "gone"
  | 411 => "length required"
  | 412 => "preconditions failed"
  | 413 => "content too large"
  | 414 => "uri too long"
  | 415 => "unsupported media type"
  | 416 => "range not satisfiable"
  | 417 => "expectation failed"
  | 418 => "i'm a teapot"
  | 421 => "misdirected request"
  | 422 => "unprocessable content"
  | 423 => "locked"
  | 424 => "failed dependency"
  | 425 => "too early"
  | 426 => "upgrade required"
  | 428 => "precondition required"
  | 429 => "too many requests"
  | 431 => "request header fields too large"
  | 451 => "unavailable for legal reasons"
  | 500 => "internal server error"
  | 501 => "not implemented"
  | 502 => "bad gateway"
  | 503 => "service unavailable"
  | 504 => "gateway timeout"
  | 505 => "http version not supported"
  | 506 => "variant also negotiates"
  | 507 => "insufficient storage"
  | 508 => "loop detected"
  | 510 => "not extended"
  | 511 => "network authentication required"
  | _ => ""
  end.

(** ** trace.go: the stack capture *)

(** One frame of the Go call stack as [runtime.Caller] and
    [runtime.FuncForPC] give it: the full function name ([None] when
    [FuncForPC] returns nil), the file and the line. *)
Record RawFrame := mkRawFrame {
  rawFunc : option string;
  rawFile : string;
  rawLine : Z
}.

(** [strings.LastIndex(s, "/")] *)
Fixpoint LastIndexByte (s : string) (c : ascii) : option nat :=
  match s with
  | EmptyString => None
  | String a s' =>
      match LastIndexByte s' c with
      | Some i => Some (S i)
      | None => if Ascii.eqb a c then Some 0%nat else None
      end
  end.

(** [runtimeTrace] on the frame found at the requested level. *)
Definition runtimeTrace (f : RawFrame) : string * string * Z :=
  let function :=
    match rawFunc f with
    | None => "?"
    | Some function =>
        match LastIndexByte function "/"%char with
        | Some p =>
            String.substring (p + 1) (String.length function - (p + 1)) function
        | None => function
        end
    end in
  (rawFile f, function, rawLine f).

(** The test of the loops of trace.go on a frame's function name. *)
Definition skipFrame (function : string) : bool :=
  String.prefix "runtime." function
  || (String.prefix "errors." function
      && negb (String.prefix "errors.Test" function)).

(** The loop of [traceCaller]: level 1 is the head of [frames], the stack
    from the function that called [traceCaller] outwards. *)
Fixpoint traceCaller_loop (frames : list RawFrame) : option StackFrame :=
  match frames with
  | [] => None
  | f :: outer =>
      let '(file, function, line) := runtimeTrace f in
      if skipFrame function then traceCaller_loop outer
      else Some (mkStackFrame function file line)
  end.

(** [append(s, f)] on a slice that may be nil.  A stack is kept as the
    frames the slice reads, in order: the backing array, which Go lets two
    slices share (the assignment [err.Stack = tracedErr.Stack] of [New]
    copies the slice header) and into which [append] writes when it has
    room, is not part of the model.  What is said of a stack is said of
    the frames the error that holds it reads. *)
Definition appendFrame (s : option (list (option StackFrame)))
    (f : StackFrame) : option (list (option StackFrame)) :=
  Some (default [] s ++ [Some f])%list.

Definition traceCaller (frames : list RawFrame) (err : option error)
  : M (option error) :=
  match err with
  | None => ret None
  | Some _ =>
      let* tracedErr := Convert err in
      match tracedErr with
      | None => panic
      | Some p =>
          match traceCaller_loop frames with
          | None => ret (Some (Traced p))
          | Some f =>
              let* e := load p in
              storeAt p (TracedError.setStack e
                           (appendFrame (TracedError.Stack e) f)) ;;
              ret (Some (Traced p))
          end
      end
  end.

(** The frame of one of the package's own functions on the call stack. *)
Definition libFrame (name : string) : RawFrame :=
  mkRawFrame (Some ("github.com/microbus-io/errors." ++ name)) "" 0.

(** ** The formatter of the standard library

    [fmt.Sprintf] is not part of the package: it is taken as a function of
    the store (the operands' [Error] methods read it), the pattern and the
    operands.  [wrapped] gives the operands of the [%w] verbs of a
    pattern. *)
Class Fmt := {
  Sprintf : gmap addr TracedError.t -> string -> list any -> string;
  wrapped : string -> list any -> list error;
  wrapped_two : forall a b, wrapped "%w: %w" [AError a; AError b] = [a; b]
}.

Section Package.
Context `{Fmt}.

(** [fmt.Errorf]: a plain error when the pattern wraps nothing, else an
    error that wraps the operands of its [%w] verbs. *)
Definition fmt_Errorf (pattern : string) (a : list any) : M error :=
  fun s =>
    let msg := Sprintf (heap s) pattern a in
    (let* p := alloc in
     ret (match wrapped pattern a with
          | [] => ErrorString p msg
          | ws => WrapError p msg ws
          end)) s.

(** ** tracederror.go: New *)

Definition zeroTrace : string := "00000000000000000000000000000000".

(** [strings.Count(s, substr)] for a non-empty [substr]: occurrences that
    do not overlap.  [skip] is the number of bytes still covered by the
    last occurrence. *)
Fixpoint strings_Count_from (substr : string) (skip : nat) (s : string) : nat :=
  match s with
  | EmptyString => 0%nat
  | String _ s' =>
      match skip with
      | S k => strings_Count_from substr k s'
      | O =>
          if String.prefix substr s
          then S (strings_Count_from substr (String.length substr - 1) s')
          else strings_Count_from substr 0 s'
      end
  end.

Definition strings_Count (s substr : string) : nat :=
  strings_Count_from substr 0 s.

Definition isHexByte (c : ascii) : bool :=
  let c := N_of_ascii c in
  negb (((c <? 48) || (57 <? c)) && ((c <? 97) || (102 <? c))
        && ((c <? 65) || (70 <? c)))%N.

Fixpoint isHex (s : string) : bool :=
  match s with
  | EmptyString => true
  | String c s' => if isHexByte c then isHex s' else false
  end.

(** [m[k] = v] on the property bag made at the top of the loop. *)
Definition setProperty (err : TracedError.t) (k : string) (v : any)
  : TracedError.t :=
  TracedError.setProperties err
    (Some (<[k := v]> (default ∅ (TracedError.Properties err)))).

(** [maps.Copy(dst, src)]: the keys of [src] overwrite those of [dst]. *)
Definition maps_Copy (dst src : option (gmap string any))
  : option (gmap string any) :=
  match src, dst with
  | Some src, Some dst => Some (src ∪ dst)
  | _, _ => dst
  end.

(** The part of the [case error] branch for a [*TracedError]. *)
Definition mergeTraced (err tracedErr : TracedError.t) : TracedError.t :=
  let err :=
    if (TracedError.StatusCode err =? 0)%Z
    then TracedError.setStatusCode err (TracedError.StatusCode tracedErr)
    else err in
  let err :=
    if String.eqb (TracedError.Trace err) ""
       || String.eqb (TracedError.Trace err) zeroTrace
    then TracedError.setTrace err (TracedError.Trace tracedErr)
    else err in
  let err :=
    TracedError.setProperties err
      (maps_Copy (TracedError.Properties err)
                 (TracedError.Properties tracedErr)) in
  TracedError.setStack err (TracedError.Stack tracedErr).

(** The loop [for i < len(args)] of [New], on the arguments from index
    [i] on; [err] is the value of the fresh [*err]. *)
Fixpoint New_loop (args : list any) (err : TracedError.t)
  : M TracedError.t :=
  match args with
  | [] => ret err
  | k :: rest =>
      let err :=
        match TracedError.Properties err with
        | None => TracedError.setProperties err (Some ∅)
        | Some _ => err
        end in
      match k with
      | AInt k =>
          let err := TracedError.setStatusCode err k in
          let* err :=
            match TracedError.Err err with
            | None =>
                let* e := stderrors_New (statusText k) in
                ret (TracedError.setErr err (Some e))
            | Some _ => ret err
            end in
          New_loop rest err
      | AError k =>
          let* err :=
            match TracedError.Err err with
            | None => ret (TracedError.setErr err (Some k))
            | Some e0 =>
                let* w := fmt_Errorf "%w: %w" [AError e0; AError k] in
                ret (TracedError.setErr err (Some w))
            end in
          let* err :=
            match k with
            | Traced q =>
                let* tracedErr := load q in
                ret (mergeTraced err tracedErr)
            | _ => ret err
            end in
          New_loop rest err
      | AString k =>
          if (String.length k =? 32)%nat && isHex k
          then New_loop rest (TracedError.setTrace err k)
          else
            match rest with
            | v :: rest' => New_loop rest' (setProperty err k v)
            | [] => New_loop rest (setProperty err k (AString ""))
            end
      | _ => New_loop rest (setProperty err "!BADKEY" k)
      end
  end.

(** The number of leading arguments [New] hands to the pattern. *)
Definition pctArgs (pattern : string) (args : list any) : nat :=
  let pctArgs :=
    (Z.of_nat (strings_Count pattern "%")
     - 2 * Z.of_nat (strings_Count pattern "%%"))%Z in
  Z.to_nat (Z.min pctArgs (Z.of_nat (length args))).

(** [New] called from the stack [callers]. *)
Definition New (callers : list RawFrame) (pattern : string) (args : list any)
  : M (option error) :=
  let pctArgs := pctArgs pattern args in
  let* p := newTraced TracedError.zero in
  let err := TracedError.zero in
  let* err :=
    if String.eqb pattern "" then ret err
    else
      let* e := fmt_Errorf pattern (take pctArgs args) in
      ret (TracedError.setErr err (Some e)) in
  let* err := New_loop (drop pctArgs args) err in
  let* err :=
    match TracedError.Err err with
    | None =>
        let* e := stderrors_New "unspecified error" in
        ret (TracedError.setErr err (Some e))
    | Some _ => ret err
    end in
  let err :=
    if (TracedError.StatusCode err =? 0)%Z
    then TracedError.setStatusCode err 500
    else err in
  storeAt p err ;;
  traceCaller (libFrame "New" :: callers) (Some (Traced p)).

(** ** What the type switch of [New] makes of the arguments

    The category of each argument the loop of [New] looks at, in order: a
    key takes the argument after it as its value, so that one is not
    looked at. *)
Inductive argClass : Type :=
  | CStatus (k : Z)
  | CCause (e : error)
  | CTrace (t : string)
  | CProperty (k : string) (v : any)
  | CBadKey (v : any).

Fixpoint classify (args : list any) : list argClass :=
  match args with
  | [] => []
  | k :: rest =>
      match k with
      | AInt k => CStatus k :: classify rest
      | AError k => CCause k :: classify rest
      | AString k =>
          if (String.length k =? 32)%nat && isHex k
          then CTrace k :: classify rest
          else
            match rest with
            | v :: rest' => CProperty k v :: classify rest'
            | [] => [CProperty k (AString "")]
            end
      | _ => CBadKey k :: classify rest
      end
  end.

(** The effect of one classified argument on every field but [Err], in a
    store with the objects [h]. *)
Definition classStep (h : gmap addr TracedError.t) (err : TracedError.t)
    (c : argClass) : TracedError.t :=
  let err :=
    match TracedError.Properties err with
    | None => TracedError.setProperties err (Some ∅)
    | Some _ => err
    end in
  match c with
  | CStatus k => TracedError.setStatusCode err k
  | CCause (Traced q) =>
      match h !! q with
      | Some tracedErr => mergeTraced err tracedErr
      | None => err
      end
  | CCause _ => err
  | CTrace t => TracedError.setTrace err t
  | CProperty k v => setProperty err k v
  | CBadKey v => setProperty err "!BADKEY" v
  end.

(** ** errors.go: Trace and Join *)

Definition Trace (callers : list RawFrame) (err : option error)
    (a : list any) : M (option error) :=
  match err with
  | None => ret None
  | Some e => New (libFrame "Trace" :: callers) "" (AError e :: a)
  end.

(** [errors.Join] of the standard library: nil when every value is nil,
    else a value that holds the non-nil ones. *)
Definition stderrors_Join (errs : list (option error)) : M (option error) :=
  match omap id errs with
  | [] => ret None
  | es => let* p := alloc in ret (Some (JoinError p es))
  end.

Definition Join (callers : list RawFrame) (errs : list (option error))
  : M (option error) :=
  let '(err, n) :=
    fold_left (fun '(err, n) e =>
                 match e with
                 | Some _ => (e, S n)
                 | None => (err, n)
                 end) errs (None, 0%nat) in
  match n with
  | 0%nat => ret None
  | 1%nat => traceCaller (libFrame "Join" :: callers) err
  | _ =>
      let* j := stderrors_Join errs in
      traceCaller (libFrame "Join" :: callers) j
  end.

End Package.

(** ** Walking an error chain: errors.Is and the Error method

    The chain goes through the store, where a hand-built value may refer
    to itself, so the walk is given a number of steps.  [Failed] is a
    returned Go error, [Panicked] a panic. *)
Inductive outcome (A : Type) : Type :=
  | Done (a : A)
  | Failed
  | Panicked
  | OutOfFuel.
Arguments Done {A} a.
Arguments Failed {A}.
Arguments Panicked {A}.
Arguments OutOfFuel {A}.

Definition errorKind (e : error) : nat :=
  match e with
  | ErrorString _ _ => 0
  | WrapError _ _ _ => 1
  | JoinError _ _ => 2
  | Traced _ => 3
  end%nat.

Definition errorAddr (e : error) : addr :=
  match e with
  | ErrorString p _ | WrapError p _ _ | JoinError p _ | Traced p => p
  end.

(** [err == target] on two interface values that hold pointers: the same
    dynamic type and the same address. *)
Definition error_eqb (a b : error) : bool :=
  (errorKind a =? errorKind b)%nat && (errorAddr a =? errorAddr b)%nat.

(** The loop over the result of [Unwrap() []error]. *)
Fixpoint is_any (f : error -> outcome bool) (errs : list error)
  : outcome bool :=
  match errs with
  | [] => Done false
  | e :: rest =>
      match f e with
      | Done false => is_any f rest
      | o => o
      end
  end.

(** [is] of the standard library: [*TracedError] unwraps to its [Err]. *)
Fixpoint is_ (fuel : nat) (h : gmap addr TracedError.t)
    (err target : error) : outcome bool :=
  match fuel with
  | O => OutOfFuel
  | S fuel =>
      if error_eqb err target then Done true
      else
        match err with
        | ErrorString _ _ => Done false
        | WrapError _ _ errs => is_any (fun e => is_ fuel h e target) errs
        | JoinError _ errs => is_any (fun e => is_ fuel h e target) errs
        | Traced p =>
            match h !! p with
            | None => Panicked
            | Some e =>
                match TracedError.Err e with
                | None => Done false
                | Some x => is_ fuel h x target
                end
            end
        end
  end.


(** The messages of the joined errors, one per line. *)
Fixpoint joinLines (msgs : list (outcome string)) : outcome string :=
  match msgs with
  | [] => Done ""
  | [m] => m
  | m :: rest =>
      match m, joinLines rest with
      | Done a, Done b => Done (a ++ String "010"%char b)
      | Done _, o => o
      | o, _ => o
      end
  end.

(** The method [Error] of an error value; the one of [*TracedError] is
    [e.Err.Error()]. *)
Fixpoint error_Error (fuel : nat) (h : gmap addr TracedError.t) (e : error)
  : outcome string :=
  match fuel with
  | O => OutOfFuel
  | S fuel =>
      match e with
      | ErrorString _ s => Done s
      | WrapError _ msg _ => Done msg
      | JoinError _ errs => joinLines (map (error_Error fuel h) errs)
      | Traced p =>
          match h !! p with
          | None => Panicked
          | Some e =>
              match TracedError.Err e with
              | None => Panicked
              | Some x => error_Error fuel h x
              end
          end
      end
  end.

(** A string of ASCII bytes only. *)
Fixpoint isASCII (s : string) : bool :=
  match s with
  | EmptyString => true
  | String c s' => (N_of_ascii c <? 128)%N && isASCII s'
  end.

(** ** The JSON encoder and decoder of the standard library

    What [encoding/json] does outside this package is taken as given:
    [coerceUTF8 s] is the string read back from the JSON string written
    for [s] (invalid UTF-8 is replaced), [foldName] is the case folding the
    decoder matches object keys with struct fields by, and [marshalValue]
    encodes a property value of a type the model does not look into.  A
    string of ASCII bytes is read back as it was written. *)
Class Json := {
  coerceUTF8 : string -> string;
  foldName : string -> string;
  marshalValue : gmap addr TracedError.t -> any -> option json;
  coerceUTF8_ascii : forall s, isASCII s = true -> coerceUTF8 s = s
}.

Module StreamedError.
(** The struct [StreamedError]. *)
Record t := mk {
  Error : string;
  StatusCode : Z;
  Trace : string;
  Stack : option (list (option StackFrame))
}.
Definition zero : t := mk "" 0 "" None.
End StreamedError.

Section Serialization.
Context `{Json}.

Definition encodeFrame (f : option StackFrame) : json :=
  match f with
  | None => JNull
  | Some f =>
      JObject [("func", JString (coerceUTF8 (Function f)));
               ("file", JString (coerceUTF8 (File f)));
               ("line", JNumber (Line f))]
  end.

(** [json.Marshal] on one value of a [map[string]any]. *)
Definition json_Marshal_any (h : gmap addr TracedError.t) (v : any)
  : option json :=
  match v with
  | ANil => Some JNull
  | AInt k => Some (JNumber k)
  | AString s => Some (JString (coerceUTF8 s))
  | ABool b => Some (JBool b)
  | AFloat64 z => Some (JNumber z)
  | AStack l => Some (JArray (map encodeFrame l))
  | AJSON j => Some j
  | AError _ | AOther _ => marshalValue h v
  end.

Definition keyLe (a b : string * any) : Prop := String.le a.1 b.1.

(** [json.Marshal] on a [map[string]any]: the keys in byte order; an error
    ([None]) when a value cannot be encoded. *)
Definition json_Marshal_map (h : gmap addr TracedError.t)
    (m : gmap string any) : option json :=
  kv ← mapM (fun '(k, v) =>
               j ← json_Marshal_any h v; Some (coerceUTF8 k, j))
            (merge_sort keyLe (map_to_list m));
  Some (JObject kv).

(** The struct field an object key is decoded into: the one of that name,
    else the first one with the same folded name. *)
Definition findField (names : list string) (k : string) : option string :=
  match List.find (String.eqb k) names with
  | Some n => Some n
  | None =>
      List.find (fun n => String.eqb (foldName n) (foldName k)) names
  end.

(** The values of Go's [int]. *)
Definition fitsInt (z : Z) : bool :=
  ((- 2 ^ 63 <=? z) && (z <? 2 ^ 63))%Z.

(** Decoding into a string and into an int: [null] leaves the field as it
    is, a value of another kind is an error ([None]). *)
Definition decodeString (old : string) (v : json) : option string :=
  match v with
  | JNull => Some old
  | JString s => Some s
  | _ => None
  end.

Definition decodeInt (old : Z) (v : json) : option Z :=
  match v with
  | JNull => Some old
  | JNumber z => if fitsInt z then Some z else None
  | _ => None
  end.

(** Decoding the members of an object into a struct with the fields
    [names]: [set] assigns one field. *)
Fixpoint decodeObject {A} (names : list string)
    (set : A -> string -> json -> option A)
    (kv : list (string * json)) (a : A) : option A :=
  match kv with
  | [] => Some a
  | (k, v) :: rest =>
      match findField names k with
      | None => decodeObject names set rest a
      | Some n =>
          match set a n v with
          | Some a' => decodeObject names set rest a'
          | None => None
          end
      end
  end.

Definition setFrameField (f : StackFrame) (n : string) (v : json)
  : option StackFrame :=
  if String.eqb n "func" then
    s ← decodeString (Function f) v; Some (mkStackFrame s (File f) (Line f))
  else if String.eqb n "file" then
    s ← decodeString (File f) v; Some (mkStackFrame (Function f) s (Line f))
  else
    z ← decodeInt (Line f) v; Some (mkStackFrame (Function f) (File f) z).

(** Decoding into a [*StackFrame]. *)
Definition decodeFrame (v : json) : option (option StackFrame) :=
  match v with
  | JNull => Some None
  | JObject kv =>
      f ← decodeObject ["func"; "file"; "line"] setFrameField kv
            (mkStackFrame "" "" 0);
      Some (Some f)
  | _ => None
  end.

(** Decoding into a [[]*StackFrame]: [null] sets the slice to nil, and
    an array is decoded into new frames, as the decoder does for the
    first member of that name of an object ([old] is then nil). *)
Definition decodeStack (old : option (list (option StackFrame))) (v : json)
  : option (option (list (option StackFrame))) :=
  match v with
  | JNull => Some None
  | JArray l => st ← mapM decodeFrame l; Some (Some st)
  | _ => None
  end.

Definition setStreamedField (j : StreamedError.t) (n : string) (v : json)
  : option StreamedError.t :=
  if String.eqb n "error" then
    s ← decodeString (StreamedError.Error j) v;
    Some (StreamedError.mk s (StreamedError.StatusCode j)
            (StreamedError.Trace j) (StreamedError.Stack j))
  else if String.eqb n "statusCode" then
    z ← decodeInt (StreamedError.StatusCode j) v;
    Some (StreamedError.mk (StreamedError.Error j) z
            (StreamedError.Trace j) (StreamedError.Stack j))
  else if String.eqb n "trace" then
    s ← decodeString (StreamedError.Trace j) v;
    Some (StreamedError.mk (StreamedError.Error j)
            (StreamedError.StatusCode j) s (StreamedError.Stack j))
  else
    st ← decodeStack (StreamedError.Stack j) v;
    Some (StreamedError.mk (StreamedError.Error j)
            (StreamedError.StatusCode j) (StreamedError.Trace j) st).

(** [json.Unmarshal(data, &j)] for [var j StreamedError]. *)
Definition json_Unmarshal_StreamedError (data : json)
  : option StreamedError.t :=
  match data with
  | JNull => Some StreamedError.zero
  | JObject kv =>
      decodeObject ["error"; "statusCode"; "trace"; "stack"]
        setStreamedField kv StreamedError.zero
  | _ => None
  end.

(** The [float64] nearest to an integer, ties going to the even
    mantissa, as [strconv.ParseFloat] rounds: an integer up to [2 ^ 53] in
    absolute value is held as it is, a larger one keeps its 53 leading
    bits. *)
Definition float64_of_Z (z : Z) : Z :=
  let a := Z.abs z in
  if (a <=? 2 ^ 53)%Z then z
  else
    let e := (Z.log2 a - 52)%Z in
    let q := (a / 2 ^ e)%Z in
    let r := (a mod 2 ^ e)%Z in
    let half := (2 ^ (e - 1))%Z in
    let q :=
      if (r <? half)%Z then q
      else if (half <? r)%Z then (q + 1)%Z
      else if Z.even q then q else (q + 1)%Z in
    (Z.sgn z * (q * 2 ^ e))%Z.

(** Decoding into an [any]: a number becomes the [float64] nearest to
    it. *)
Definition decodeAny (v : json) : any :=
  match v with
  | JNull => ANil
  | JBool b => ABool b
  | JNumber z => AFloat64 (float64_of_Z z)
  | JString s => AString s
  | JArray _ | JObject _ => AJSON v
  end.

(** [json.Unmarshal(data, &m)] for [var m map[string]any]: a later member
    replaces an earlier one of the same key.  The numbers of the document
    are taken to be within the range of [float64]; for a number beyond it
    the decoder of Go returns an error. *)
Definition json_Unmarshal_map (data : json)
  : option (option (gmap string any)) :=
  match data with
  | JNull => Some None
  | JObject kv =>
      Some (Some (fold_left (fun m '(k, v) => <[k := decodeAny v]> m) kv ∅))
  | _ => None
  end.

(** ** tracederror.go: MarshalJSON and UnmarshalJSON *)

Definition MarshalJSON (fuel : nat) (h : gmap addr TracedError.t) (p : addr)
  : outcome json :=
  match h !! p with
  | None => Panicked
  | Some e =>
      let m : gmap string any := ∅ in
      let m :=
        match TracedError.Properties e with
        | Some props => if (0 <? size props)%nat then props ∪ m else m
        | None => m
        end in
      match TracedError.Err e with
      | None => Panicked
      | Some x =>
          match error_Error fuel h x with
          | Done msg =>
              let m := <["error" := AString msg]> m in
              let m :=
                if negb (TracedError.StatusCode e =? 0)%Z
                then <["statusCode" := AInt (TracedError.StatusCode e)]> m
                else delete "statusCode" m in
              let m :=
                match TracedError.Stack e with
                | Some st => <["stack" := AStack st]> m
                | None => delete "stack" m
                end in
              let m :=
                if negb (String.eqb (TracedError.Trace e) "")
                   && negb (String.eqb (TracedError.Trace e) zeroTrace)
                then <["trace" := AString (TracedError.Trace e)]> m
                else delete "trace" m in
              match json_Marshal_map h m with
              | Some j => Done j
              | None => Failed
              end
          | Failed => Failed
          | Panicked => Panicked
          | OutOfFuel => OutOfFuel
          end
      end
  end.

(** [UnmarshalJSON] on the receiver at [p]; the result is [true] when the
    returned error is nil. *)
Definition UnmarshalJSON (p : addr) (data : json) : M bool :=
  match json_Unmarshal_StreamedError data with
  | None => ret false
  | Some j =>
      let* e := load p in
      let* x := stderrors_New (StreamedError.Error j) in
      let e :=
        TracedError.mk (Some x) (StreamedError.Stack j)
          (StreamedError.StatusCode j) (StreamedError.Trace j)
          (TracedError.Properties e) in
      storeAt p e ;;
      match json_Unmarshal_map data with
      | None => ret false
      | Some m =>
          let m := delete "error" <$> m in
          let m := delete "statusCode" <$> m in
          let m := delete "stack" <$> m in
          let m := delete "trace" <$> m in
          storeAt p (TracedError.setProperties e
                       (match m with
                        | Some m' => if (0 <? size m')%nat then m else None
                        | None => None
                        end)) ;;
          ret true
      end
  end.

End Serialization.

(** ** A formatter to run the package on concrete inputs

    It leaves the pattern as it is and wraps the error operands of the
    pattern ["%w: %w"], the only pattern with [%w] the package itself
    writes. *)
Definition errorOperands (a : list any) : list error :=
  omap (fun x => match x with AError e => Some e | _ => None end) a.

Definition plainFmt : Fmt :=
  {| Sprintf := fun _ pattern _ => pattern;
     wrapped := fun pattern a =>
       if String.eqb pattern "%w: %w" then errorOperands a else [];
     wrapped_two := fun a b => eq_refl |}.

Definition emptyStore : store := mkStore ∅ 0.

(** A caller outside the package, as a test function of the package's own
    test suite is. *)
Definition testCaller : list RawFrame :=
  [mkRawFrame (Some "github.com/microbus-io/errors.TestErrors_New")
     "errors_test.go" 44;
   mkRawFrame (Some "testing.tRunner") "testing.go" 1792;
   mkRawFrame (Some "runtime.goexit") "asm_amd64.s" 1700].

(** An encoder to run the serialization on concrete inputs: strings are
    taken to be valid UTF-8, keys fold by ASCII case, and a value of a
    type the model does not look into is refused. *)
Definition lowerByte (c : ascii) : ascii :=
  let n := N_of_ascii c in
  if ((65 <=? n) && (n <=? 90))%N then ascii_of_N (n + 32) else c.

Fixpoint lowerASCII (s : string) : string :=
  match s with
  | EmptyString => EmptyString
  | String c s' => String (lowerByte c) (lowerASCII s')
  end.

Definition plainJson : Json :=
  {| coerceUTF8 := fun s => s;
     foldName := lowerASCII;
     marshalValue := fun _ _ => None;
     coerceUTF8_ascii := fun _ _ => eq_refl |}.

(** ** Concrete inputs *)

(** A traced error whose status code was never set, as the struct literal
    [&TracedError{Err: errors.New("oops")}] gives, at address 0. *)
Definition unsetObject : TracedError.t :=
  TracedError.mk (Some (ErrorString 1 "oops")) None 0 "" None.

Definition unsetStore : store := mkStore {[ 0%nat := unsetObject ]} 2.

(** ** Notions the properties are stated with *)

(** Every field but [Err]. *)
Definition fieldsOf (e : TracedError.t) : TracedError.t :=
  TracedError.setErr e None.

(** The pointers the loop of [New] dereferences are those of objects of
    the store. *)
Definition causesLoaded (h : gmap addr TracedError.t)
    (cs : list argClass) : Prop :=
  forall q, CCause (Traced q) ∈ cs -> is_Some (h !! q).

(** The arguments the loop of [New] looks at. *)
Definition scanned (pattern : string) (args : list any) : list argClass :=
  classify (drop (pctArgs pattern args) args).

(** The property bag, a nil map read as the empty one. *)
Definition bag (e : TracedError.t) : gmap string any :=
  default ∅ (TracedError.Properties e).

(** [New] leaves a zero status code as 500. *)
Definition orDefault (k : Z) : Z := if (k =? 0)%Z then 500%Z else k.

(** The object a traced error becomes in [traceCaller]. *)
Definition traced (frames : list RawFrame) (obj : TracedError.t)
  : TracedError.t :=
  let obj :=
    if (TracedError.StatusCode obj =? 0)%Z
    then TracedError.setStatusCode obj 500 else obj in
  match traceCaller_loop frames with
  | Some f =>
      TracedError.setStack obj (appendFrame (TracedError.Stack obj) f)
  | None => obj
  end.

(** The fields [New] ends with, before the frame is added. *)
Definition built (h : gmap addr TracedError.t) (cs : list argClass)
  : TracedError.t :=
  let e := fold_left (classStep h) cs TracedError.zero in
  TracedError.setStatusCode e (orDefault (TracedError.StatusCode e)).

(** An argument of the loop of [New] that writes the key ["!BADKEY"]. *)
Definition writesBadKey (h : gmap addr TracedError.t) (c : argClass)
  : bool :=
  match c with
  | CBadKey _ => true
  | CProperty k _ => String.eqb k "!BADKEY"
  | CCause (Traced q) =>
      match h !! q with
      | Some tracedErr =>
          match bag tracedErr !! "!BADKEY" with
          | Some _ => true
          | None => false
          end
      | None => false
      end
  | _ => false
  end.

(** An argument of the loop of [New] that is a status code. *)
Definition isStatus (c : argClass) : bool :=
  match c with
  | CStatus _ => true
  | _ => false
  end.

(** An argument of the loop of [New] that is a [*TracedError]. *)
Definition isTracedCause (c : argClass) : bool :=
  match c with
  | CCause (Traced _) => true
  | _ => false
  end.

(** The boolean form of [causesLoaded]. *)
Definition loadable (h : gmap addr TracedError.t) (c : argClass) : bool :=
  match c with
  | CCause (Traced q) =>
      match h !! q with
      | Some _ => true
      | None => false
      end
  | _ => true
  end.

(** The store after [New("error occurred", 409, "key", "value")], the
    first call of the test [TestErrors_TraceAfterNew]: the traced error is
    at address 0. *)
Definition conflictStore : store :=
  match New (H := plainFmt) testCaller "error occurred"
          [AInt 409; AString "key"; AString "value"] emptyStore with
  | Ok (_, s) => s
  | Panic => emptyStore
  end.

(** An argument the type switch of [New] sends to its default branch. *)
Definition otherType (a : any) : bool :=
  match a with
  | AInt _ | AError _ | AString _ => false
  | _ => true
  end.

(** An argument of the loop of [New] that brings no negative status
    code. *)
Definition nonnegStatus (h : gmap addr TracedError.t) (c : argClass)
  : bool :=
  match c with
  | CStatus k => (0 <=? k)%Z
  | CCause (Traced q) =>
      match h !! q with
      | Some tracedErr => (0 <=? TracedError.StatusCode tracedErr)%Z
      | None => true
      end
  | _ => true
  end.

(** The pointers among the errors given to [Join] are those of objects of
    the store. *)
Definition joinable (h : gmap addr TracedError.t) (e : option error)
  : bool :=
  match e with
  | Some (Traced q) =>
      match h !! q with
      | Some _ => true
      | None => false
      end
  | _ => true
  end.


(** ** Notions the serialization properties are stated with *)

(** The names of the fields of [StreamedError] in the JSON object. *)
Definition streamedFields : list string :=
  ["error"; "statusCode"; "trace"; "stack"].

Definition reservedName (k : string) : bool :=
  existsb (String.eqb k) streamedFields.

(** The map [m] that [MarshalJSON] hands to [json.Marshal], for an error
    whose message is [msg]. *)
Definition marshalMap (e : TracedError.t) (msg : string)
  : gmap string any :=
  let m : gmap string any := ∅ in
  let m :=
    match TracedError.Properties e with
    | Some props => if (0 <? size props)%nat then props ∪ m else m
    | None => m
    end in
  let m := <["error" := AString msg]> m in
  let m :=
    if negb (TracedError.StatusCode e =? 0)%Z
    then <["statusCode" := AInt (TracedError.StatusCode e)]> m
    else delete "statusCode" m in
  let m :=
    match TracedError.Stack e with
    | Some st => <["stack" := AStack st]> m
    | None => delete "stack" m
    end in
  if negb (String.eqb (TracedError.Trace e) "")
     && negb (String.eqb (TracedError.Trace e) zeroTrace)
  then <["trace" := AString (TracedError.Trace e)]> m
  else delete "trace" m.

(** The integers of the object are values of Go's [int]. *)
Definition frameFits (f : option StackFrame) : bool :=
  match f with
  | Some f => fitsInt (Line f)
  | None => true
  end.

Definition intsFit (e : TracedError.t) : bool :=
  fitsInt (TracedError.StatusCode e)
  && forallb frameFits (default [] (TracedError.Stack e)).

Section SerializationNotions.
Context `{Json}.

(** Every property value can be encoded. *)
Definition encodable (h : gmap addr TracedError.t) (e : TracedError.t)
  : bool :=
  forallb (fun kv : string * any =>
             match json_Marshal_any h kv.2 with
             | Some _ => true
             | None => false
             end) (map_to_list (bag e)).

(** No property key other than the four field names is decoded into a
    field of [StreamedError]. *)
Definition noFieldClash (e : TracedError.t) : bool :=
  forallb (fun kv : string * any =>
             reservedName kv.1
             || match findField streamedFields (coerceUTF8 kv.1) with
                | Some _ => false
                | None => true
                end) (map_to_list (bag e)).

End SerializationNotions.

(** A member of the JSON object that carries the field of its name as
    [MarshalJSON] writes it, for the message [msg], the trace ID [tr], the
    status code [sc] and the stack [st]. *)
Definition canonical `{Json} (msg tr : string) (sc : Z)
    (st : list (option StackFrame)) (k : string) (j : json) : Prop :=
  (k = "error" /\ j = JString msg)
  \/ (k = "statusCode" /\ j = JNumber sc)
  \/ (k = "trace" /\ j = JString tr)
  \/ (k = "stack" /\ j = JArray (map encodeFrame st)).

(** The JSON object has a member of the key [k]. *)
Definition hasKey (k : string) (kv : list (string * json)) : bool :=
  existsb (fun m : string * json => String.eqb k m.1) kv.

(** The store after [New("bad input", 400, "key", "value", trace)] with
    the trace ID of the test [TestErrors_Trace]: the traced error is at
    address 0 and its cause at address 1. *)
Definition roundTripStore : store :=
  match New (H := plainFmt) testCaller "bad input"
          [AInt 400; AString "key"; AString "value";
           AString "0123456789abcdef0123456789abcdef"] emptyStore with
  | Ok (_, s) => s
  | Panic => emptyStore
  end.

(** The store after [New("bad input", 400, "statusCode", 7, "error", "x")]:
    the traced error at address 0 has two properties with the names of
    built-in fields. *)
Definition reservedStore : store :=
  match New (H := plainFmt) testCaller "bad input"
          [AInt 400; AString "statusCode"; AInt 7;
           AString "error"; AString "x"] emptyStore with
  | Ok (_, s) => s
  | Panic => emptyStore
  end.

(** The store after [New("error!", zeroTrace)]: the traced error at
    address 0 has the all-zero trace ID. *)
Definition zeroTraceStore : store :=
  match New (H := plainFmt) testCaller "error!" [AString zeroTrace]
          emptyStore with
  | Ok (_, s) => s
  | Panic => emptyStore
  end.


(** The traced errors of these stores. *)
Definition roundTripObject : TracedError.t :=
  default TracedError.zero (heap roundTripStore !! 0%nat).

Definition reservedObject : TracedError.t :=
  default TracedError.zero (heap reservedStore !! 0%nat).

(** ** errors.go and tracederror.go: Unwrap *)


(** An argument of the loop of [New] that is an error. *)
Definition isCause (c : argClass) : bool :=
  match c with
  | CCause _ => true
  | _ => false
  end.

(** An argument of the loop of [New] that writes the property [k]. *)
Definition writesKey (h : gmap addr TracedError.t) (k : string)
    (c : argClass) : bool :=
  match c with
  | CBadKey _ => String.eqb "!BADKEY" k
  | CProperty k' _ => String.eqb k' k
  | CCause (Traced q) =>
      match h !! q with
      | Some tracedErr =>
          match bag tracedErr !! k with
          | Some _ => true
          | None => false
          end
      | None => false
      end
  | _ => false
  end.

(** An argument of the loop of [New] that is a trace ID. *)
Definition isTraceID (c : argClass) : bool :=
  match c with
  | CTrace _ => true
  | _ => false
  end.

(** ** trace.go: traceFull, and CatchPanic of errors.go *)

(** The loop of [traceFull], from the level of the head of [frames] on. *)
Fixpoint traceFull_loop (p : addr) (frames : list RawFrame) : M unit :=
  match frames with
  | [] => ret tt
  | f :: outer =>
      let '(file, function, line) := runtimeTrace f in
      if String.eqb function "errors.CatchPanic" then ret tt
      else if skipFrame function then traceFull_loop p outer
      else
        let* e := load p in
        storeAt p (TracedError.setStack e
                     (appendFrame (TracedError.Stack e)
                        (mkStackFrame function file line))) ;;
        traceFull_loop p outer
  end.

(** [traceFull]: [frames] is the stack from the function that called
    [traceFull] outwards, as for [traceCaller]. *)
Definition traceFull (frames : list RawFrame) (err : option error)
    (level : Z) : M (option error) :=
  match err with
  | None => ret None
  | Some _ =>
      let level := if (level <? 0)%Z then 0%Z else level in
      let* tracedErr := Convert err in
      match tracedErr with
      | None => panic
      | Some p =>
          traceFull_loop p (drop (Z.to_nat level) frames) ;;
          ret (Some (Traced p))
      end
  end.

(** How the function given to [CatchPanic] ends: it returns an error or
    nil, or it panics with the value [r], at a point where the call stack
    between the deferred function of [CatchPanic] and [CatchPanic] itself
    is [inner] (the frames of the runtime that raise the panic, then those
    of the function). *)
Inductive ending : Type :=
  | Returns (err : option error)
  | Panics (r : any) (inner : list RawFrame).

Section Recover.
Context `{Fmt}.

(** [CatchPanic] called from the stack [callers]. *)
Definition CatchPanic (callers : list RawFrame)
    (f : store -> ending * store) : M (option error) :=
  fun s =>
    match f s with
    | (Returns err, s') => Ok (err, s')
    | (Panics r inner, s') =>
        match r with
        | ANil => Ok (None, s')
        | _ =>
            (let* err :=
               match r with
               | AError e => ret e
               | _ => fmt_Errorf "%v" [r]
               end in
             traceFull
               (libFrame "CatchPanic.func1"
                  :: inner ++ libFrame "CatchPanic" :: callers)%list
               (Some err) 1) s'
        end
    end.

End Recover.

(** ** Notions the stack properties are stated with *)

(** The frame recorded for a frame of the call stack. *)
Definition frameOf (fr : RawFrame) : StackFrame :=
  let '(file, function, line) := runtimeTrace fr in
  mkStackFrame function file line.

(** A frame of the call stack that is never recorded. *)
Definition skipped (fr : RawFrame) : bool :=
  skipFrame (Function (frameOf fr)).

(** A frame of the call stack that is not the one of [CatchPanic]. *)
Definition beforeCatch (fr : RawFrame) : bool :=
  negb (String.eqb (Function (frameOf fr)) "errors.CatchPanic").

(** [takeWhile]. *)
Fixpoint upTo (P : RawFrame -> bool) (frames : list RawFrame)
  : list RawFrame :=
  match frames with
  | [] => []
  | f :: outer => if P f then f :: upTo P outer else []
  end.

(** The frames [traceFull] records, of a stack. *)
Definition fullTrace (frames : list RawFrame) : list StackFrame :=
  map frameOf
    (List.filter (fun fr => negb (skipped fr)) (upTo beforeCatch frames)).

(** A slice with more frames at its end, a nil slice staying nil when
    there is none to add. *)
Definition appendFrames (st : option (list (option StackFrame)))
    (l : list StackFrame) : option (list (option StackFrame)) :=
  match l with
  | [] => st
  | _ => Some (default [] st ++ map Some l)%list
  end.

(** The stack between a division by zero in a function literal of the
    test [TestErrors_CatchPanic] and [CatchPanic], and that function as
    [CatchPanic] sees it end: the runtime panics with an error. *)
Definition panicFrames : list RawFrame :=
  [mkRawFrame (Some "runtime.gopanic") "panic.go" 884;
   mkRawFrame (Some "runtime.panicdivide") "panic.go" 240;
   mkRawFrame
     (Some "github.com/microbus-io/errors.TestErrors_CatchPanic.func4")
     "errors_test.go" 350].

Definition dividesByZero (s : store) : ending * store :=
  (Panics (AError (ErrorString 0 "runtime error: integer divide by zero"))
     panicFrames, s).

(** An error that has only a message. *)
Definition plainMessage (x : option error) (m : string) : Prop :=
  exists p, x = Some (ErrorString p m).

(** The strings of a frame are read back from JSON as they are
    written. *)
Definition frameStable `{Json} (f : option StackFrame) : bool :=
  match f with
  | Some f =>
      String.eqb (coerceUTF8 (Function f)) (Function f)
      && String.eqb (coerceUTF8 (File f)) (File f)
  | None => true
  end.

(** The keys of the properties are read back from JSON as they are
    written. *)
Definition keysStable `{Json} (e : TracedError.t) : bool :=
  forallb (fun kv : string * any => String.eqb (coerceUTF8 kv.1) kv.1)
    (map_to_list (bag e)).

(** The map [json.Unmarshal] makes of the members of an object. *)
Definition decodedMap (kv : list (string * json)) : gmap string any :=
  fold_left (fun m '(k, v) => <[k := decodeAny v]> m) kv ∅.

(** A JSON value that cannot be decoded into the field [n] of
    [StreamedError], whatever the field holds. *)
Definition wrongKind (n : string) (v : json) : bool :=
  match v with
  | JNull => false
  | JString _ => negb (String.eqb n "error" || String.eqb n "trace")
  | JNumber z => negb (String.eqb n "statusCode" && fitsInt z)
  | JArray _ =>
      String.eqb n "error" || String.eqb n "statusCode"
      || String.eqb n "trace"
  | JBool _ | JObject _ => true
  end.

(** ** tracederror.go: String *)

Definition newline : string := String "010"%char "".

Section Printing.
Context `{Fmt}.

(** The method [String] of [*StackFrame]; [None] is the panic of reading
    a field through a nil pointer. *)
Definition StackFrame_String (h : gmap addr TracedError.t)
    (t : option StackFrame) : option string :=
  match t with
  | None => None
  | Some t =>
      Some (Sprintf h ("- %s" ++ newline ++ "  %s:%d")
              [AString (Function t); AString (File t); AInt (Line t)])
  end.

(** The loop over the properties, in the order [order] the [range]
    statement visits them, which Go leaves open. *)
Definition writeProperties (h : gmap addr TracedError.t)
    (order : list (string * any)) (b : string) : string :=
  fold_left
    (fun b kv => b ++ newline ++ kv.1 ++ "=" ++ Sprintf h "%v" [kv.2])
    order b.

(** The loop over the stack. *)
Definition writeFrames (h : gmap addr TracedError.t)
    (st : list (option StackFrame)) (b : string) : option string :=
  fold_left
    (fun ob f =>
       b ← ob; t ← StackFrame_String h f; Some (b ++ newline ++ t))
    st (Some b).

(** The method [String] of [*TracedError], on the receiver at [p]. *)
Definition TracedError_String (fuel : nat) (h : gmap addr TracedError.t)
    (order : list (string * any)) (p : addr) : outcome string :=
  match h !! p with
  | None => Panicked
  | Some e =>
      match error_Error fuel h (Traced p) with
      | Done msg =>
          let b := msg in
          let b :=
            if negb (TracedError.StatusCode e =? 0)%Z
               && negb (TracedError.StatusCode e =? 500)%Z
            then b ++ newline ++ "statusCode="
                   ++ Sprintf h "%d" [AInt (TracedError.StatusCode e)]
            else b in
          let b :=
            if negb (String.eqb (TracedError.Trace e) "")
               && negb (String.eqb (TracedError.Trace e) zeroTrace)
            then b ++ newline ++ "trace=" ++ TracedError.Trace e
            else b in
          let b := writeProperties h order b in
          let st := default [] (TracedError.Stack e) in
          let b := if (0 <? length st)%nat then b ++ newline else b in
          match writeFrames h st b with
          | Some b => Done b
          | None => Panicked
          end
      | Failed => Failed
      | Panicked => Panicked
      | OutOfFuel => OutOfFuel
      end
  end.

End Printing.

(** An operand whose text does not depend on the objects of the store. *)
Definition plainOperand (v : any) : bool :=
  match v with
  | AInt _ | AString _ => true
  | _ => false
  end.

(** The store after [UnmarshalJSON] of the object
    [{"error":"x","stack":[null]}] into a receiver at address 0. *)
Definition nilFrameStore : store :=
  match UnmarshalJSON (H := plainJson) 0%nat
          (JObject [("error", JString "x"); ("stack", JArray [JNull])])
          unsetStore with
  | Ok (_, s) => s
  | Panic => emptyStore
  end.

(** ** Further notions the properties are stated with *)


(** An error that, converted, brings no negative status code. *)
Definition nonnegError (h : gmap addr TracedError.t) (e : error) : bool :=
  match e with
  | Traced q =>
      match h !! q with
      | Some tracedErr => (0 <=? TracedError.StatusCode tracedErr)%Z
      | None => true
      end
  | _ => true
  end.

(** The error [CatchPanic] makes of a recovered value is not a traced
    error the store does not hold. *)
Definition recoverable (h : gmap addr TracedError.t) (r : any) : bool :=
  match r with
  | AError (Traced q) =>
      match h !! q with
      | Some _ => true
      | None => false
      end
  | _ => true
  end.

(** A recovered value that brings no negative status code. *)
Definition nonnegValue (h : gmap addr TracedError.t) (r : any) : bool :=
  match r with
  | AError e => nonnegError h e
  | _ => true
  end.

Section EncodingNotions.
Context `{Json}.

(** Every property value that [MarshalJSON] hands to the encoder can be
    encoded: the values under the four field names are replaced or
    deleted before. *)
Definition propsEncodable (h : gmap addr TracedError.t)
    (e : TracedError.t) : bool :=
  forallb (fun kv : string * any =>
             reservedName kv.1
             || match json_Marshal_any h kv.2 with
                | Some _ => true
                | None => false
                end) (map_to_list (bag e)).

End EncodingNotions.

(** A property value that is nil, a boolean, a string or an [int]. *)
Definition scalarValue (v : any) : bool :=
  match v with
  | ANil | ABool _ | AString _ => true
  | AInt z => fitsInt z
  | _ => false
  end.

(** Every property under a key other than the four field names is such
    a value. *)
Definition scalarProps (e : TracedError.t) : bool :=
  forallb (fun kv : string * any => reservedName kv.1 || scalarValue kv.2)
    (map_to_list (bag e)).

(** What such a value is after it is written to JSON and read back into
    an [any]. *)
Definition readBack `{Json} (v : any) : any :=
  match v with
  | AString t => AString (coerceUTF8 t)
  | AInt z => AFloat64 (float64_of_Z z)
  | _ => v
  end.

(** The store after [New("bad input", 400, "statusCode", 7, "error", v)]
    for a value [v] of a type the encoder of the run cannot encode: the
    traced error at address 0 has two properties with the names of
    built-in fields. *)
Definition shadowedStore : store :=
  match New (H := plainFmt) testCaller "bad input"
          [AInt 400; AString "statusCode"; AInt 7;
           AString "error"; AOther 0; AString "id"; AInt 9007199254740993]
          emptyStore with
  | Ok (_, s) => s
  | Panic => emptyStore
  end.

Definition shadowedObject : TracedError.t :=
  default TracedError.zero (heap shadowedStore !! 0%nat).

(** * Properties *)

(** ** Running computations *)

Lemma bind_Ok {A B} (m : M A) (f : A -> M B) (s s' : store) (a : A) :
  m s = Ok (a, s') -> bind m f s = f a s'.
Proof. intros E. unfold bind. now rewrite E. Qed.

Lemma load_Some (p : addr) (s : store) (e : TracedError.t) :
  heap s !! p = Some e -> load p s = Ok (e, s).
Proof. intros E. unfold load. now rewrite E. Qed.

Lemma Join_count_nil (errs : list (option error)) (acc : option error * nat) :
  Forall (fun e => e = None) errs ->
  fold_left (fun '(err, n) (e : option error) =>
               match e with
               | Some _ => (e, S n)
               | None => (err, n)
               end) errs acc = acc.
Proof.
  induction 1 as [|e errs -> _ IH]; simpl; [reflexivity|].
  destruct acc; exact IH.
Qed.

(** ** Null inputs *)

(** C4: [Trace], [Convert], [Join] and [StatusCode] return on a nil
    input, or on no input or nil inputs only for [Join], without a panic
    and without touching the store: nil, nil, nil and 0. *)
Theorem nil_inputs_return_nil `{Fmt} (callers : list RawFrame)
    (a : list any) (n : nat) (s : store) :
  Trace callers None a s = Ok (None, s)
  /\ Convert None s = Ok (None, s)
  /\ Join callers [] s = Ok (None, s)
  /\ Join callers (replicate n None) s = Ok (None, s)
  /\ StatusCode None s = Ok (0%Z, s).
Proof.
  repeat split; try reflexivity.
  unfold Join. rewrite Join_count_nil; [reflexivity|].
  now apply Forall_replicate.
Qed.

(** ** Convert *)

Lemma Convert_Traced (s : store) (p : addr) (obj : TracedError.t) :
  heap s !! p = Some obj ->
  Convert (Some (Traced p)) s =
    Ok (Some p,
        if (TracedError.StatusCode obj =? 0)%Z
        then mkStore (<[p := TracedError.setStatusCode obj 500]> (heap s))
                     (next s)
        else s).
Proof.
  intros E. unfold Convert.
  rewrite (bind_Ok _ _ _ _ _ (load_Some _ _ _ E)).
  destruct (TracedError.StatusCode obj =? 0)%Z; reflexivity.
Qed.

Lemma Convert_other (s : store) (e : error) :
  errorKind e <> 3%nat ->
  Convert (Some e) s =
    Ok (Some (next s),
        mkStore (<[next s := TracedError.mk (Some e) None 500 "" None]>
                   (heap s))
                (S (next s))).
Proof. destruct e; intros K; try reflexivity. now elim K. Qed.

(** C6: on a [*TracedError], [Convert] returns the same pointer; the
    object is as before but for a zero status code, which becomes 500,
    and no other object changes.  On any other non-nil error it returns a
    new object with that error as [Err], status code 500, a nil stack, no
    trace ID and no properties.  In both cases no frame is added. *)
Theorem Convert_keeps_or_wraps (s : store) :
  (forall p obj,
      heap s !! p = Some obj ->
      exists s',
        Convert (Some (Traced p)) s = Ok (Some p, s')
        /\ next s' = next s
        /\ heap s' !! p =
             Some (if (TracedError.StatusCode obj =? 0)%Z
                   then TracedError.setStatusCode obj 500 else obj)
        /\ (forall obj', heap s' !! p = Some obj' ->
              TracedError.Stack obj' = TracedError.Stack obj)
        /\ (forall q, q <> p -> heap s' !! q = heap s !! q))
  /\ (forall e,
        errorKind e <> 3%nat ->
        exists s',
          Convert (Some e) s = Ok (Some (next s), s')
          /\ heap s' !! next s =
               Some (TracedError.mk (Some e) None 500 "" None)
          /\ (forall q, q <> next s -> heap s' !! q = heap s !! q)).
Proof.
  split.
  - intros p obj E. rewrite (Convert_Traced _ _ _ E).
    eexists; split; [reflexivity|].
    destruct (TracedError.StatusCode obj =? 0)%Z; simpl.
    + rewrite lookup_insert_eq. repeat split; try reflexivity.
      * intros obj' [= <-]. reflexivity.
      * intros q Hq. now rewrite lookup_insert_ne.
    + repeat split; try assumption.
      intros obj' E'. congruence.
  - intros e K. rewrite (Convert_other _ _ K).
    eexists; split; [reflexivity|]. simpl.
    rewrite lookup_insert_eq. split; [reflexivity|].
    intros q Hq. now rewrite lookup_insert_ne.
Qed.

(** C10: [Convert] on a [*TracedError] returns that very pointer and
    allocates nothing; when the status code of the object is zero the
    object itself is overwritten, with 500 as its status code and every
    other field as it was, and otherwise the store is left as it is. *)
Theorem Convert_writes_in_place (s : store) (p : addr)
    (obj : TracedError.t) :
  heap s !! p = Some obj ->
  Convert (Some (Traced p)) s =
    Ok (Some p,
        if (TracedError.StatusCode obj =? 0)%Z
        then mkStore
               (<[p := TracedError.mk (TracedError.Err obj)
                         (TracedError.Stack obj) 500
                         (TracedError.Trace obj)
                         (TracedError.Properties obj)]> (heap s))
               (next s)
        else s).
Proof. intros E. now rewrite (Convert_Traced _ _ _ E). Qed.

Lemma Convert_keeps_or_wraps_witness :
  (exists s',
      Convert (Some (Traced 0%nat)) unsetStore = Ok (Some 0%nat, s')
      /\ heap s' !! 0%nat = Some (TracedError.setStatusCode unsetObject 500))
  /\ (exists s',
        Convert (Some (ErrorString 1 "oops")) unsetStore = Ok (Some 2%nat, s')
        /\ heap s' !! 2%nat =
             Some (TracedError.mk (Some (ErrorString 1 "oops")) None 500 ""
                     None)).
Proof.
  destruct (Convert_keeps_or_wraps unsetStore) as [Ht Ho]. split.
  - destruct (Ht 0%nat unsetObject eq_refl) as (s' & E & _ & L & _).
    exists s'. split; [exact E | exact L].
  - assert (K : errorKind (ErrorString 1 "oops") <> 3%nat) by discriminate.
    destruct (Ho (ErrorString 1 "oops") K) as (s' & E & L & _).
    exists s'. split; [exact E | exact L].
Defined.

Lemma Convert_writes_in_place_witness :
  Convert (Some (Traced 0%nat)) unsetStore =
    Ok (Some 0%nat,
        mkStore {[ 0%nat := TracedError.mk (Some (ErrorString 1 "oops")) None
                              500 "" None ]} 2).
Proof.
  rewrite (Convert_writes_in_place unsetStore 0%nat unsetObject eq_refl).
  vm_compute. reflexivity.
Defined.

(** ** The loop of New *)

Lemma fieldsOf_setErr (e : TracedError.t) (x : option error) :
  fieldsOf (TracedError.setErr e x) = fieldsOf e.
Proof. reflexivity. Qed.

Lemma fieldsOf_eq (a b : TracedError.t) :
  fieldsOf a = fieldsOf b ->
  TracedError.Stack a = TracedError.Stack b
  /\ TracedError.StatusCode a = TracedError.StatusCode b
  /\ TracedError.Trace a = TracedError.Trace b
  /\ TracedError.Properties a = TracedError.Properties b.
Proof. destruct a, b. unfold fieldsOf. simpl. intros [= -> -> -> ->]. auto. Qed.

Lemma classStep_setErr (h : gmap addr TracedError.t) (e : TracedError.t)
    (x : option error) (c : argClass) :
  classStep h (TracedError.setErr e x) c
  = TracedError.setErr (classStep h e c) x.
Proof.
  destruct e as [er st sc tr pr]. unfold classStep. simpl.
  destruct pr; simpl; destruct c as [k|[| | |q]|t|k v|v]; simpl;
    try reflexivity;
    (destruct (h !! q) as [tq|]; [|reflexivity]);
    unfold mergeTraced; simpl;
    destruct (sc =? 0)%Z; simpl;
    destruct (String.eqb tr "" || String.eqb tr zeroTrace); reflexivity.
Qed.

Lemma fold_classStep_setErr (h : gmap addr TracedError.t)
    (cs : list argClass) (e : TracedError.t) (x : option error) :
  fold_left (classStep h) cs (TracedError.setErr e x)
  = TracedError.setErr (fold_left (classStep h) cs e) x.
Proof.
  revert e. induction cs as [|c cs IH]; intros e; simpl; [reflexivity|].
  now rewrite classStep_setErr, IH.
Qed.

Section NewLoop.
Context `{Fmt}.

Lemma fmt_Errorf_Ok (pattern : string) (a : list any) (s : store) :
  exists e, fmt_Errorf pattern a s = Ok (e, mkStore (heap s) (S (next s))).
Proof.
  unfold fmt_Errorf, bind, alloc, ret.
  destruct (wrapped pattern a); eexists; reflexivity.
Qed.

Lemma New_loop_fields (n : nat) :
  forall (args : list any) (err : TracedError.t) (s : store),
    (length args <= n)%nat ->
    causesLoaded (heap s) (classify args) ->
    exists err' s',
      New_loop args err s = Ok (err', s')
      /\ heap s' = heap s
      /\ fieldsOf err'
         = fieldsOf (fold_left (classStep (heap s)) (classify args) err).
Proof.
  induction n as [|n IH]; intros args err s Hn Hq.
  { destruct args; [|simpl in Hn; lia].
    exists err, s. repeat split. }
  destruct args as [|k rest].
  { exists err, s. repeat split. }
  simpl in Hn.
  assert (Hrest : (length rest <= n)%nat) by lia.
  set (err0 := match TracedError.Properties err with
               | None => TracedError.setProperties err (Some ∅)
               | Some _ => err
               end).
  destruct k as [|k|k|k|b|z|l|j|tag].
  - (* nil *)
    destruct (IH rest (setProperty err0 "!BADKEY" ANil) s Hrest)
      as (e' & s' & E & Hh & Hf).
    { intros q Hin. apply Hq. simpl. now apply list_elem_of_further. }
    exists e', s'. repeat split; assumption.
  - (* int *)
    simpl. fold err0.
    set (err1 := TracedError.setStatusCode err0 k).
    destruct (TracedError.Err err0) as [x|] eqn:Ex.
    + destruct (IH rest err1 s Hrest) as (e' & s' & E & Hh & Hf).
      { intros q Hin. apply Hq. simpl. now apply list_elem_of_further. }
      exists e', s'. unfold bind, ret. repeat split; assumption.
    + destruct (IH rest
                  (TracedError.setErr err1
                     (Some (ErrorString (next s) (statusText k))))
                  (mkStore (heap s) (S (next s))) Hrest)
        as (e' & s' & E & Hh & Hf).
      { intros q Hin. apply Hq. simpl. now apply list_elem_of_further. }
      exists e', s'. unfold bind, ret, stderrors_New, alloc. simpl.
      repeat split; try assumption.
      simpl in Hf. now rewrite fold_classStep_setErr, fieldsOf_setErr in Hf.
  - (* string *)
    simpl. fold err0.
    destruct ((String.length k =? 32)%nat && isHex k) eqn:Et.
    + destruct (IH rest (TracedError.setTrace err0 k) s Hrest)
        as (e' & s' & E & Hh & Hf).
      { intros q Hin. apply Hq. simpl. rewrite Et.
        now apply list_elem_of_further. }
      exists e', s'. repeat split; assumption.
    + destruct rest as [|v rest'].
      * exists (setProperty err0 k (AString "")), s. repeat split.
      * destruct (IH rest' (setProperty err0 k v) s)
          as (e' & s' & E & Hh & Hf).
        { simpl in Hrest. lia. }
        { intros q Hin. apply Hq. simpl. rewrite Et.
          now apply list_elem_of_further. }
        exists e', s'. repeat split; assumption.
  - (* error *)
    simpl. fold err0.
    assert (Hs : exists x s1,
               (match TracedError.Err err0 with
                | None => ret (TracedError.setErr err0 (Some k))
                | Some e0 =>
                    let* w := fmt_Errorf "%w: %w" [AError e0; AError k] in
                    ret (TracedError.setErr err0 (Some w))
                end) s = Ok (TracedError.setErr err0 x, s1)
               /\ heap s1 = heap s).
    { destruct (TracedError.Err err0) as [e0|].
      - destruct (fmt_Errorf_Ok "%w: %w" [AError e0; AError k] s) as [w Ew].
        exists (Some w), (mkStore (heap s) (S (next s))).
        unfold bind. rewrite Ew. split; reflexivity.
      - exists (Some k), s. split; reflexivity. }
    destruct Hs as (x & s1 & E1 & Hh1).
    rewrite (bind_Ok _ _ _ _ _ E1).
    destruct k as [p m|p m es|p es|q].
    1-3: destruct (IH rest (TracedError.setErr err0 x) s1 Hrest)
           as (e' & s' & E & Hh & Hf);
         [ intros q Hin; rewrite Hh1; apply Hq; simpl;
           now apply list_elem_of_further
         | exists e', s'; unfold bind at 1, ret at 1;
           repeat split; [assumption | congruence |];
           rewrite Hf, Hh1, fold_classStep_setErr; reflexivity ].
    destruct (Hq q) as [tq Etq]; [simpl; apply list_elem_of_here|].
    assert (Etq1 : heap s1 !! q = Some tq) by now rewrite Hh1.
    rewrite (bind_Ok _ _ _ _ _
               (bind_Ok _ _ _ _ _ (load_Some _ _ _ Etq1))).
    destruct (IH rest (mergeTraced (TracedError.setErr err0 x) tq) s1 Hrest)
      as (e' & s' & E & Hh & Hf).
    { intros q' Hin. rewrite Hh1. apply Hq. simpl.
      now apply list_elem_of_further. }
    exists e', s'. repeat split; [assumption | congruence |].
    rewrite Hf, Hh1, Etq.
    replace (mergeTraced (TracedError.setErr err0 x) tq)
      with (TracedError.setErr (mergeTraced err0 tq) x).
    + now rewrite fold_classStep_setErr.
    + destruct err0 as [er st sc tr pr]. unfold mergeTraced. simpl.
      destruct (sc =? 0)%Z; simpl;
        destruct (String.eqb tr "" || String.eqb tr zeroTrace); reflexivity.
  - (* bool *)
    destruct (IH rest (setProperty err0 "!BADKEY" (ABool b)) s Hrest)
      as (e' & s' & E & Hh & Hf).
    { intros q Hin. apply Hq. simpl. now apply list_elem_of_further. }
    exists e', s'. repeat split; assumption.
  - destruct (IH rest (setProperty err0 "!BADKEY" (AFloat64 z)) s Hrest)
      as (e' & s' & E & Hh & Hf).
    { intros q Hin. apply Hq. simpl. now apply list_elem_of_further. }
    exists e', s'. repeat split; assumption.
  - destruct (IH rest (setProperty err0 "!BADKEY" (AStack l)) s Hrest)
      as (e' & s' & E & Hh & Hf).
    { intros q Hin. apply Hq. simpl. now apply list_elem_of_further. }
    exists e', s'. repeat split; assumption.
  - destruct (IH rest (setProperty err0 "!BADKEY" (AJSON j)) s Hrest)
      as (e' & s' & E & Hh & Hf).
    { intros q Hin. apply Hq. simpl. now apply list_elem_of_further. }
    exists e', s'. repeat split; assumption.
  - destruct (IH rest (setProperty err0 "!BADKEY" (AOther tag)) s Hrest)
      as (e' & s' & E & Hh & Hf).
    { intros q Hin. apply Hq. simpl. now apply list_elem_of_further. }
    exists e', s'. repeat split; assumption.
Qed.

End NewLoop.

(** ** traceCaller *)

Lemma traceCaller_Traced (frames : list RawFrame) (s : store) (p : addr)
    (obj : TracedError.t) :
  heap s !! p = Some obj ->
  traceCaller frames (Some (Traced p)) s =
    Ok (Some (Traced p),
        mkStore (<[p := traced frames obj]> (heap s)) (next s)).
Proof.
  intros E. unfold traceCaller, traced.
  rewrite (bind_Ok _ _ _ _ _ (Convert_Traced _ _ _ E)).
  destruct s as [h nx]. simpl in *.
  destruct (TracedError.StatusCode obj =? 0)%Z;
    destruct (traceCaller_loop frames) as [f|]; simpl;
    unfold bind, load, storeAt, ret; cbn [heap next];
    rewrite ?lookup_insert_eq, ?E; cbn [heap next];
    rewrite ?insert_insert_eq, ?(insert_id _ _ _ E); reflexivity.
Qed.

Lemma traceCaller_other (frames : list RawFrame) (s : store) (e : error) :
  errorKind e <> 3%nat ->
  traceCaller frames (Some e) s =
    Ok (Some (Traced (next s)),
        mkStore (<[next s := traced frames
                                (TracedError.mk (Some e) None 500 "" None)]>
                   (heap s))
                (S (next s))).
Proof.
  intros K. unfold traceCaller, traced.
  rewrite (bind_Ok _ _ _ _ _ (Convert_other _ _ K)).
  destruct s as [h nx]. simpl.
  destruct (traceCaller_loop frames) as [f|]; simpl;
    unfold bind, load, storeAt, ret; cbn [heap next];
    rewrite ?lookup_insert_eq; cbn [heap next];
    rewrite ?insert_insert_eq; reflexivity.
Qed.

(** The package's own frame is never the one recorded. *)
Lemma traceCaller_loop_libFrame (callers : list RawFrame) :
  traceCaller_loop (libFrame "New" :: callers) = traceCaller_loop callers
  /\ traceCaller_loop (libFrame "Trace" :: callers) = traceCaller_loop callers
  /\ traceCaller_loop (libFrame "Join" :: callers) = traceCaller_loop callers.
Proof. repeat split. Qed.

(** ** New as a whole *)

Lemma fold_classStep_agree (h1 h2 : gmap addr TracedError.t)
    (cs : list argClass) (e : TracedError.t) :
  (forall q, CCause (Traced q) ∈ cs -> h1 !! q = h2 !! q) ->
  fold_left (classStep h1) cs e = fold_left (classStep h2) cs e.
Proof.
  revert e. induction cs as [|c cs IH]; intros e Hq; simpl; [reflexivity|].
  rewrite IH by (intros q Hin; apply Hq; now apply list_elem_of_further).
  f_equal. destruct c as [k|[| | |q]|t|k v|v]; try reflexivity.
  unfold classStep. rewrite (Hq q) by apply list_elem_of_here. reflexivity.
Qed.

Lemma fieldsOf_traced (frames : list RawFrame) (a b : TracedError.t) :
  fieldsOf a = fieldsOf b ->
  fieldsOf (traced frames a) = fieldsOf (traced frames b).
Proof.
  intros E. apply fieldsOf_eq in E as (E1 & E2 & E3 & E4).
  destruct a as [er st sc tr pr], b as [er' st' sc' tr' pr'].
  simpl in *. subst. unfold traced. simpl.
  destruct (sc' =? 0)%Z; destruct (traceCaller_loop frames); reflexivity.
Qed.

Lemma Err_traced (frames : list RawFrame) (a : TracedError.t) :
  TracedError.Err (traced frames a) = TracedError.Err a.
Proof.
  unfold traced.
  destruct (TracedError.StatusCode a =? 0)%Z;
    destruct (traceCaller_loop frames); reflexivity.
Qed.

Section NewSpec.
Context `{Fmt}.

Lemma New_spec (callers : list RawFrame) (pattern : string)
    (args : list any) (s : store) :
  heap s !! next s = None ->
  causesLoaded (heap s) (scanned pattern args) ->
  exists obj nx,
    New callers pattern args s =
      Ok (Some (Traced (next s)), mkStore (<[next s := obj]> (heap s)) nx)
    /\ fieldsOf obj
       = fieldsOf (traced callers (built (heap s) (scanned pattern args)))
    /\ is_Some (TracedError.Err obj).
Proof.
  intros Hfresh Hq. unfold New.
  set (p := next s).
  set (s1 := mkStore (<[p := TracedError.zero]> (heap s)) (S p)).
  assert (E1 : newTraced TracedError.zero s = Ok (p, s1)) by reflexivity.
  rewrite (bind_Ok _ _ _ _ _ E1).
  assert (E2 : exists x s2,
             (if String.eqb pattern "" then ret TracedError.zero
              else
                let* e := fmt_Errorf pattern (take (pctArgs pattern args) args)
                in ret (TracedError.setErr TracedError.zero (Some e))) s1
             = Ok (TracedError.setErr TracedError.zero x, s2)
             /\ heap s2 = heap s1).
  { destruct (String.eqb pattern "").
    - exists None, s1. split; reflexivity.
    - destruct (fmt_Errorf_Ok pattern (take (pctArgs pattern args) args) s1)
        as [e Ee].
      exists (Some e), (mkStore (heap s1) (S (next s1))).
      unfold bind. rewrite Ee. split; reflexivity. }
  destruct E2 as (x & s2 & E2 & Hh2).
  rewrite (bind_Ok _ _ _ _ _ E2).
  assert (Hq2 : causesLoaded (heap s2)
                  (classify (drop (pctArgs pattern args) args))).
  { intros q Hin. rewrite Hh2. simpl.
    destruct (decide (p = q)) as [->|Hne].
    - rewrite lookup_insert_eq. eauto.
    - rewrite lookup_insert_ne by assumption. now apply Hq. }
  destruct (New_loop_fields _ _ (TracedError.setErr TracedError.zero x) s2
              (le_n _) Hq2) as (err' & s3 & E3 & Hh3 & Hf3).
  rewrite (bind_Ok _ _ _ _ _ E3).
  assert (E4 : exists y s4,
             (match TracedError.Err err' with
              | None =>
                  let* e := stderrors_New "unspecified error" in
                  ret (TracedError.setErr err' (Some e))
              | Some _ => ret err'
              end) s3 = Ok (TracedError.setErr err' (Some y), s4)
             /\ heap s4 = heap s3).
  { destruct (TracedError.Err err') as [y|] eqn:Ey.
    - exists y, s3. split; [|reflexivity].
      destruct err'. simpl in Ey. subst. reflexivity.
    - exists (ErrorString (next s3) "unspecified error"),
        (mkStore (heap s3) (S (next s3))).
      split; reflexivity. }
  destruct E4 as (y & s4 & E4 & Hh4).
  rewrite (bind_Ok _ _ _ _ _ E4).
  set (errF := if (TracedError.StatusCode (TracedError.setErr err' (Some y))
                   =? 0)%Z
               then TracedError.setStatusCode
                      (TracedError.setErr err' (Some y)) 500
               else TracedError.setErr err' (Some y)).
  unfold bind at 1, storeAt at 1.
  rewrite traceCaller_Traced with (obj := errF)
    by (simpl; apply lookup_insert_eq).
  cbn [heap next].
  rewrite Hh4, Hh3, Hh2. unfold s1. cbn [heap].
  rewrite !insert_insert_eq.
  eexists _, _. split; [reflexivity|]. split.
  - destruct (traceCaller_loop_libFrame callers) as (EN & _ & _).
    unfold traced at 1. rewrite EN. fold (traced callers errF).
    apply fieldsOf_traced.
    rewrite fold_classStep_setErr, fieldsOf_setErr, Hh2 in Hf3.
    unfold s1 in Hf3. cbn [heap] in Hf3.
    rewrite (fold_classStep_agree _ (heap s)) in Hf3.
    + apply fieldsOf_eq in Hf3 as (F1 & F2 & F3 & F4).
      unfold errF, built, scanned, orDefault.
      destruct err' as [er st sc tr pr]. simpl in *. subst.
      destruct (TracedError.StatusCode _ =? 0)%Z; reflexivity.
    + intros q Hin. apply lookup_insert_ne.
      intros Epq. destruct (Hq _ Hin) as [o Eo].
      rewrite <- Epq in Eo. unfold p in Eo. congruence.
  - rewrite Err_traced. unfold errF.
    destruct (TracedError.StatusCode _ =? 0)%Z; simpl; eauto.
Qed.

End NewSpec.

(** ** The status code New ends with *)

Lemma classStep_status_keep (h : gmap addr TracedError.t)
    (e : TracedError.t) (c : argClass) :
  isStatus c = false ->
  TracedError.StatusCode e <> 0%Z ->
  TracedError.StatusCode (classStep h e c) = TracedError.StatusCode e.
Proof.
  intros Hc Hz. destruct e as [er st sc tr pr]. simpl in Hz.
  apply Z.eqb_neq in Hz.
  destruct c as [k|[| | |q]|t|k v|v]; try discriminate;
    unfold classStep; destruct pr; simpl; try reflexivity;
    (destruct (h !! q); [|reflexivity]);
    unfold mergeTraced; simpl; rewrite Hz; simpl;
    destruct (String.eqb tr "" || String.eqb tr zeroTrace); reflexivity.
Qed.

Lemma classStep_status_unset (h : gmap addr TracedError.t)
    (e : TracedError.t) (c : argClass) :
  isStatus c = false ->
  isTracedCause c = false ->
  TracedError.StatusCode (classStep h e c) = TracedError.StatusCode e.
Proof.
  intros Hc Ht. destruct e as [er st sc tr pr].
  destruct c as [k|[| | |q]|t|k v|v]; try discriminate;
    unfold classStep; destruct pr; reflexivity.
Qed.

Lemma fold_status_keep (h : gmap addr TracedError.t) (cs : list argClass) :
  forall e,
    existsb isStatus cs = false ->
    TracedError.StatusCode e <> 0%Z ->
    TracedError.StatusCode (fold_left (classStep h) cs e)
    = TracedError.StatusCode e.
Proof.
  induction cs as [|c cs IH]; intros e Hn Hz; simpl; [reflexivity|].
  simpl in Hn. apply orb_false_iff in Hn as [Hc Hn].
  rewrite IH; [now apply classStep_status_keep| assumption |].
  now rewrite classStep_status_keep.
Qed.

Lemma fold_status_unset (h : gmap addr TracedError.t) (cs : list argClass) :
  forall e,
    existsb isStatus cs = false ->
    existsb isTracedCause cs = false ->
    TracedError.StatusCode (fold_left (classStep h) cs e)
    = TracedError.StatusCode e.
Proof.
  induction cs as [|c cs IH]; intros e Hn Ht; simpl; [reflexivity|].
  simpl in Hn, Ht.
  apply orb_false_iff in Hn as [Hc Hn]. apply orb_false_iff in Ht as [Hc' Ht].
  rewrite IH by assumption. now apply classStep_status_unset.
Qed.

Lemma classStep_CStatus (h : gmap addr TracedError.t) (e : TracedError.t)
    (k : Z) :
  TracedError.StatusCode (classStep h e (CStatus k)) = k.
Proof. unfold classStep. destruct (TracedError.Properties e); reflexivity. Qed.

Lemma fold_status_last (h : gmap addr TracedError.t)
    (pre post : list argClass) (c : Z) (e : TracedError.t) :
  c <> 0%Z ->
  existsb isStatus post = false ->
  TracedError.StatusCode
    (fold_left (classStep h) (pre ++ CStatus c :: post)%list e) = c.
Proof.
  intros Hc Hn. rewrite fold_left_app. simpl.
  rewrite fold_status_keep; rewrite ?classStep_CStatus; auto.
Qed.

Lemma StatusCode_traced (frames : list RawFrame) (a : TracedError.t) :
  TracedError.StatusCode (traced frames a)
  = orDefault (TracedError.StatusCode a).
Proof.
  unfold traced, orDefault.
  destruct (TracedError.StatusCode a =? 0)%Z;
    destruct (traceCaller_loop frames); reflexivity.
Qed.

Lemma orDefault_nonzero (k : Z) : orDefault k <> 0%Z.
Proof.
  unfold orDefault. destruct (k =? 0)%Z eqn:E; [discriminate|].
  now apply Z.eqb_neq.
Qed.

Lemma orDefault_idem (k : Z) : orDefault (orDefault k) = orDefault k.
Proof.
  unfold orDefault at 1.
  destruct (orDefault k =? 0)%Z eqn:E; [|reflexivity].
  apply Z.eqb_eq in E. now destruct (orDefault_nonzero k).
Qed.

Lemma StatusCode_Traced (s : store) (p : addr) (obj : TracedError.t) :
  heap s !! p = Some obj ->
  exists s',
    StatusCode (Some (Traced p)) s
    = Ok (orDefault (TracedError.StatusCode obj), s')
    /\ (TracedError.StatusCode obj <> 0%Z -> s' = s).
Proof.
  intros E. unfold StatusCode.
  rewrite (bind_Ok _ _ _ _ _ (Convert_Traced _ _ _ E)).
  unfold orDefault.
  destruct (TracedError.StatusCode obj =? 0)%Z eqn:Ez.
  - eexists. split.
    + unfold bind, load. simpl. rewrite lookup_insert_eq. reflexivity.
    + apply Z.eqb_eq in Ez. congruence.
  - exists s. split; [|reflexivity].
    unfold bind, load. rewrite E. reflexivity.
Qed.

Section NewStatus.
Context `{Fmt}.

(** The status code, as stored and as read, of what [New] returns. *)
Lemma New_status (callers : list RawFrame) (pattern : string)
    (args : list any) (s : store) :
  heap s !! next s = None ->
  causesLoaded (heap s) (scanned pattern args) ->
  exists obj s',
    New callers pattern args s = Ok (Some (Traced (next s)), s')
    /\ heap s' !! next s = Some obj
    /\ StatusCode (Some (Traced (next s))) s'
       = Ok (TracedError.StatusCode obj, s')
    /\ TracedError.StatusCode obj
       = orDefault (TracedError.StatusCode
                      (fold_left (classStep (heap s)) (scanned pattern args)
                         TracedError.zero)).
Proof.
  intros Hf Hq.
  destruct (New_spec callers pattern args s Hf Hq) as (obj & nx & E & F & _).
  exists obj, (mkStore (<[next s := obj]> (heap s)) nx).
  apply fieldsOf_eq in F as (_ & F & _ & _).
  rewrite StatusCode_traced in F. unfold built in F. simpl in F.
  rewrite orDefault_idem in F.
  split; [exact E|]. split; [apply lookup_insert_eq|]. split; [|exact F].
  destruct (StatusCode_Traced
              (mkStore (<[next s := obj]> (heap s)) nx) (next s) obj)
    as (s' & Es & Hs); [apply lookup_insert_eq|].
  assert (Hnz : TracedError.StatusCode obj <> 0%Z)
    by (rewrite F; apply orDefault_nonzero).
  rewrite Es, (Hs Hnz). f_equal. f_equal.
  unfold orDefault. apply Z.eqb_neq in Hnz. now rewrite Hnz.
Qed.

End NewStatus.

Lemma loadable_sound (h : gmap addr TracedError.t) (cs : list argClass) :
  forallb (loadable h) cs = true -> causesLoaded h cs.
Proof.
  intros Hb q Hin. rewrite forallb_forall in Hb.
  apply list_elem_of_In, Hb in Hin. simpl in Hin.
  destruct (h !! q); [eauto | discriminate].
Qed.

(** C1 (as amended): what [New] returns, and so what [Trace] returns, is a
    traced error whose status code the accessor reads as it is stored.  It
    is the last integer the loop takes as a status code when that integer
    is not zero (an integer given to the pattern or taken as the value of
    a key is not looked at), and it is 500 when the loop takes no integer
    as a status code and merges no traced error. *)
Theorem New_status_code `{Fmt} (callers : list RawFrame) (pattern : string)
    (args : list any) (s : store) :
  heap s !! next s = None ->
  forallb (loadable (heap s)) (scanned pattern args) = true ->
  exists obj s',
    New callers pattern args s = Ok (Some (Traced (next s)), s')
    /\ heap s' !! next s = Some obj
    /\ StatusCode (Some (Traced (next s))) s'
       = Ok (TracedError.StatusCode obj, s')
    /\ (forall pre c post,
          scanned pattern args = (pre ++ CStatus c :: post)%list ->
          c <> 0%Z ->
          existsb isStatus post = false ->
          TracedError.StatusCode obj = c)
    /\ (existsb isStatus (scanned pattern args) = false ->
        existsb isTracedCause (scanned pattern args) = false ->
        TracedError.StatusCode obj = 500%Z)
    /\ (forall e a,
          pattern = "" -> args = AError e :: a ->
          Trace callers (Some e) a s
          = New (libFrame "Trace" :: callers) pattern args s).
Proof.
  intros Hf Hq. apply loadable_sound in Hq.
  destruct (New_status callers pattern args s Hf Hq)
    as (obj & s' & E & L & A & F).
  exists obj, s'. repeat split; try assumption.
  - intros pre c post Ecs Hc Hn. rewrite F, Ecs.
    rewrite fold_status_last by assumption.
    unfold orDefault. apply Z.eqb_neq in Hc. now rewrite Hc.
  - intros Hn Ht. rewrite F, fold_status_unset by assumption. reflexivity.
  - intros e a -> ->. reflexivity.
Qed.

Lemma New_status_code_witness :
  exists obj s',
    New (H := plainFmt) testCaller "message" [AInt 5; AInt 6; AInt 7]
      emptyStore = Ok (Some (Traced 0), s')
    /\ heap s' !! 0%nat = Some obj
    /\ TracedError.StatusCode obj = 7%Z.
Proof.
  destruct (New_status_code (H := plainFmt) testCaller "message"
              [AInt 5; AInt 6; AInt 7] emptyStore eq_refl eq_refl)
    as (obj & s' & E & L & _ & Hlast & _).
  exists obj, s'. split; [exact E|]. split; [exact L|].
  apply (Hlast [CStatus 5; CStatus 6] 7%Z []); [reflexivity | lia | reflexivity].
Defined.

(** The status code is not the last integer of the argument list when
    that integer is the value of a key, it is not zero when the last
    integer is zero, and it is not 500 when [Trace] is given a traced
    error with another status code and no integer. *)
Lemma New_status_code_counterexample :
  (exists obj s',
      New (H := plainFmt) testCaller "msg" [AString "retries"; AInt 3]
        emptyStore = Ok (Some (Traced 0), s')
      /\ heap s' !! 0%nat = Some obj
      /\ TracedError.StatusCode obj = 500%Z
      /\ TracedError.StatusCode obj <> 3%Z)
  /\ (exists obj s',
        New (H := plainFmt) testCaller "msg" [AInt 0] emptyStore
        = Ok (Some (Traced 0), s')
        /\ heap s' !! 0%nat = Some obj
        /\ TracedError.StatusCode obj = 500%Z
        /\ TracedError.StatusCode obj <> 0%Z)
  /\ (exists obj s',
        Trace (H := plainFmt) testCaller (Some (Traced 0)) [] conflictStore
        = Ok (Some (Traced 2), s')
        /\ heap s' !! 2%nat = Some obj
        /\ TracedError.StatusCode obj = 409%Z
        /\ TracedError.StatusCode obj <> 500%Z).
Proof.
  repeat split; eexists _, _;
    (split; [vm_compute; reflexivity|]);
    (split; [vm_compute; reflexivity|]);
    (split; [reflexivity | discriminate]).
Qed.

(** ** Merging a traced cause *)

Lemma bag_mergeTraced (err tq : TracedError.t) (k : string) :
  is_Some (TracedError.Properties err) ->
  bag (mergeTraced err tq) !! k
  = match bag tq !! k with
    | Some v => Some v
    | None => bag err !! k
    end.
Proof.
  intros [pr Epr]. destruct err as [er st sc tr pr'], tq as [er2 st2 sc2 tr2 pr2].
  simpl in Epr. subst pr'. unfold mergeTraced, bag. simpl.
  destruct (sc =? 0)%Z; simpl;
    destruct (String.eqb tr "" || String.eqb tr zeroTrace); simpl;
    destruct pr2 as [m|]; simpl; rewrite ?lookup_empty; try reflexivity;
    rewrite lookup_union; destruct (m !! k), (pr !! k); reflexivity.
Qed.

Lemma fold_status_set (h : gmap addr TracedError.t)
    (pre post : list argClass) (c : Z) (e : TracedError.t) :
  existsb isStatus post = false ->
  existsb isTracedCause post = false ->
  TracedError.StatusCode
    (fold_left (classStep h) (pre ++ CStatus c :: post)%list e) = c.
Proof.
  intros Hn Ht. rewrite fold_left_app. cbn [fold_left].
  rewrite fold_status_unset by assumption. apply classStep_CStatus.
Qed.

(** C2 (as amended): when the loop of [New] comes to a [*TracedError]
    among the arguments, it goes on with an accumulating error that has
    the status code of the merged one only if its own was zero, the trace
    ID of the merged one only if its own was empty or all zeros, the
    properties of both with those of the merged one winning, and the stack
    of the merged one in place of its own.  So a status code that is not
    zero and comes before the merged error, with no other after it, is
    the one [New] ends with, and a status code that comes after the merged
    error, with no other and no traced error after it, is the one [New]
    ends with, 500 standing for zero. *)
Theorem New_merges_traced_cause `{Fmt} (q : addr) (tq err : TracedError.t)
    (rest : list any) (s : store) :
  heap s !! q = Some tq ->
  (exists merged s1,
      New_loop (AError (Traced q) :: rest) err s = New_loop rest merged s1
      /\ heap s1 = heap s
      /\ TracedError.StatusCode merged
         = (if (TracedError.StatusCode err =? 0)%Z
            then TracedError.StatusCode tq else TracedError.StatusCode err)
      /\ TracedError.Trace merged
         = (if String.eqb (TracedError.Trace err) ""
               || String.eqb (TracedError.Trace err) zeroTrace
            then TracedError.Trace tq else TracedError.Trace err)
      /\ (forall k,
            bag merged !! k = match bag tq !! k with
                              | Some v => Some v
                              | None => bag err !! k
                              end)
      /\ TracedError.Stack merged = TracedError.Stack tq)
  /\ (forall callers pattern args pre c mid post,
        heap s !! next s = None ->
        forallb (loadable (heap s)) (scanned pattern args) = true ->
        scanned pattern args
        = (pre ++ CStatus c :: mid ++ CCause (Traced q) :: post)%list ->
        c <> 0%Z ->
        existsb isStatus mid = false ->
        existsb isStatus post = false ->
        exists obj s',
          New callers pattern args s = Ok (Some (Traced (next s)), s')
          /\ heap s' !! next s = Some obj
          /\ TracedError.StatusCode obj = c)
  /\ (forall callers pattern args pre c mid post,
        heap s !! next s = None ->
        forallb (loadable (heap s)) (scanned pattern args) = true ->
        scanned pattern args
        = (pre ++ CCause (Traced q) :: mid ++ CStatus c :: post)%list ->
        existsb isStatus post = false ->
        existsb isTracedCause post = false ->
        exists obj s',
          New callers pattern args s = Ok (Some (Traced (next s)), s')
          /\ heap s' !! next s = Some obj
          /\ TracedError.StatusCode obj = orDefault c).
Proof.
  intros Eq. split; [|split].
  - set (err0 := match TracedError.Properties err with
                 | None => TracedError.setProperties err (Some ∅)
                 | Some _ => err
                 end).
    assert (Hs : exists x s1,
               (match TracedError.Err err0 with
                | None => ret (TracedError.setErr err0 (Some (Traced q)))
                | Some e0 =>
                    let* w :=
                      fmt_Errorf "%w: %w" [AError e0; AError (Traced q)] in
                    ret (TracedError.setErr err0 (Some w))
                end) s = Ok (TracedError.setErr err0 x, s1)
               /\ heap s1 = heap s).
    { destruct (TracedError.Err err0) as [e0|].
      - destruct (fmt_Errorf_Ok "%w: %w" [AError e0; AError (Traced q)] s)
          as [w Ew].
        exists (Some w), (mkStore (heap s) (S (next s))).
        unfold bind. rewrite Ew. split; reflexivity.
      - exists (Some (Traced q)), s. split; reflexivity. }
    destruct Hs as (x & s1 & E1 & Hh1).
    exists (mergeTraced (TracedError.setErr err0 x) tq), s1.
    assert (Etq1 : heap s1 !! q = Some tq) by now rewrite Hh1.
    split.
    { simpl. fold err0. rewrite (bind_Ok _ _ _ _ _ E1).
      rewrite (bind_Ok _ _ _ _ _
                 (bind_Ok _ _ _ _ _ (load_Some _ _ _ Etq1))).
      reflexivity. }
    split; [exact Hh1|].
    assert (Hp : is_Some (TracedError.Properties (TracedError.setErr err0 x))).
    { unfold err0. destruct err as [er st sc tr [pr|]]; simpl; eauto. }
    split; [|split; [|split]].
    + unfold err0. destruct err as [er st sc tr [pr|]]; unfold mergeTraced;
        simpl; destruct (sc =? 0)%Z; simpl;
        destruct (String.eqb tr "" || String.eqb tr zeroTrace); reflexivity.
    + unfold err0. destruct err as [er st sc tr [pr|]]; unfold mergeTraced;
        simpl; destruct (sc =? 0)%Z; simpl;
        destruct (String.eqb tr "" || String.eqb tr zeroTrace); reflexivity.
    + intros k. rewrite (bag_mergeTraced _ _ _ Hp).
      unfold err0. destruct err as [er st sc tr [pr|]]; reflexivity.
    + unfold err0. destruct err as [er st sc tr [pr|]]; unfold mergeTraced;
        simpl; destruct (sc =? 0)%Z; simpl;
        destruct (String.eqb tr "" || String.eqb tr zeroTrace); reflexivity.
  - intros callers pattern args pre c mid post Hf Hq Ecs Hc Hm Hp.
    apply loadable_sound in Hq.
    destruct (New_status callers pattern args s Hf Hq)
      as (obj & s' & E & L & _ & F).
    exists obj, s'. split; [exact E|]. split; [exact L|].
    rewrite F, Ecs, fold_status_last; try assumption.
    + unfold orDefault. apply Z.eqb_neq in Hc. now rewrite Hc.
    + rewrite existsb_app, Hm. simpl. exact Hp.
  - intros callers pattern args pre c mid post Hf Hq Ecs Hp Ht.
    apply loadable_sound in Hq.
    destruct (New_status callers pattern args s Hf Hq)
      as (obj & s' & E & L & _ & F).
    exists obj, s'. split; [exact E|]. split; [exact L|].
    rewrite F, Ecs.
    replace (pre ++ CCause (Traced q) :: mid ++ CStatus c :: post)%list
      with ((pre ++ CCause (Traced q) :: mid) ++ CStatus c :: post)%list
      by (rewrite <- app_assoc; reflexivity).
    now rewrite fold_status_set.
Qed.

Lemma New_merges_traced_cause_witness :
  exists obj s',
    New (H := plainFmt) testCaller ""
      [AInt 400; AError (Traced 0)] conflictStore
    = Ok (Some (Traced 2), s')
    /\ heap s' !! 2%nat = Some obj
    /\ TracedError.StatusCode obj = 400%Z.
Proof.
  destruct (New_merges_traced_cause (H := plainFmt) 0%nat
              (TracedError.mk
                 (Some (ErrorString 1 "error occurred"))
                 (Some [Some (mkStackFrame "errors.TestErrors_New"
                                "errors_test.go" 44)])
                 409 "" (Some {[ "key" := AString "value" ]}))
              TracedError.zero [] conflictStore)
    as (_ & Hbefore & _).
  { vm_compute. reflexivity. }
  apply (Hbefore testCaller "" [AInt 400; AError (Traced 0)] [] 400%Z [] []);
    try reflexivity.
  lia.
Defined.

(** The integer 0 comes before the merged error and does not win: the
    status code is the one of the merged error. *)
Lemma New_merges_traced_cause_counterexample :
  exists obj s',
    New (H := plainFmt) testCaller "" [AInt 0; AError (Traced 0)]
      conflictStore = Ok (Some (Traced 2), s')
    /\ heap s' !! 2%nat = Some obj
    /\ TracedError.StatusCode obj = 409%Z
    /\ TracedError.StatusCode obj <> orDefault 0.
Proof.
  eexists _, _.
  split; [vm_compute; reflexivity|].
  split; [vm_compute; reflexivity|].
  split; [reflexivity | discriminate].
Qed.

(** ** The key for arguments of other types *)

Lemma bag_setProperty (e : TracedError.t) (k k' : string) (v : any) :
  bag (setProperty e k v) !! k'
  = if decide (k = k') then Some v else bag e !! k'.
Proof.
  unfold setProperty, bag. simpl. fold (bag e).
  case_decide as E.
  - subst. apply lookup_insert_eq.
  - now apply lookup_insert_ne.
Qed.

Lemma bag_ensure (e : TracedError.t) :
  bag (match TracedError.Properties e with
       | None => TracedError.setProperties e (Some ∅)
       | Some _ => e
       end) = bag e.
Proof. destruct e as [er st sc tr [pr|]]; reflexivity. Qed.

Lemma classStep_bag_keep (h : gmap addr TracedError.t)
    (e : TracedError.t) (c : argClass) :
  writesBadKey h c = false ->
  bag (classStep h e c) !! "!BADKEY" = bag e !! "!BADKEY".
Proof.
  intros Hw. rewrite <- (bag_ensure e). unfold classStep.
  set (e0 := match TracedError.Properties e with
             | None => TracedError.setProperties e (Some ∅)
             | Some _ => e
             end).
  assert (Hp : is_Some (TracedError.Properties e0)).
  { unfold e0. destruct e as [er st sc tr [pr|]]; simpl; eauto. }
  destruct c as [k|[| | |q]|t|k v|v]; try reflexivity; simpl in Hw.
  - destruct (h !! q) as [tq|]; [|reflexivity].
    rewrite (bag_mergeTraced _ _ _ Hp).
    destruct (bag tq !! "!BADKEY"); [discriminate | reflexivity].
  - rewrite bag_setProperty. case_decide as E; [|reflexivity].
    subst. discriminate.
  - discriminate.
Qed.

Lemma fold_bag_keep (h : gmap addr TracedError.t) (cs : list argClass) :
  forall e,
    existsb (writesBadKey h) cs = false ->
    bag (fold_left (classStep h) cs e) !! "!BADKEY" = bag e !! "!BADKEY".
Proof.
  induction cs as [|c cs IH]; intros e Hn; simpl; [reflexivity|].
  simpl in Hn. apply orb_false_iff in Hn as [Hc Hn].
  rewrite IH by assumption. now apply classStep_bag_keep.
Qed.

Lemma bag_traced (frames : list RawFrame) (a : TracedError.t) :
  bag (traced frames a) = bag a.
Proof.
  unfold traced.
  destruct (TracedError.StatusCode a =? 0)%Z;
    destruct (traceCaller_loop frames); reflexivity.
Qed.

(** C8 (as amended): an argument of another type that the loop of [New]
    looks at is written under the key ["!BADKEY"], and it is the value of
    that key in the error [New] returns when no argument after it writes
    that key (another argument of another type, a key of that name, or a
    traced error that has a property of that name); an earlier value of
    the key is overwritten. *)
Theorem New_keeps_last_bad_key `{Fmt} (callers : list RawFrame)
    (pattern : string) (args : list any) (s : store)
    (pre post : list argClass) (v : any) :
  heap s !! next s = None ->
  forallb (loadable (heap s)) (scanned pattern args) = true ->
  scanned pattern args = (pre ++ CBadKey v :: post)%list ->
  existsb (writesBadKey (heap s)) post = false ->
  (forall a rest,
      otherType a = true -> classify (a :: rest) = CBadKey a :: classify rest)
  /\ exists obj s',
      New callers pattern args s = Ok (Some (Traced (next s)), s')
      /\ heap s' !! next s = Some obj
      /\ bag obj !! "!BADKEY" = Some v.
Proof.
  intros Hf Hq Ecs Hn. split.
  { intros a rest Ha. destruct a; try discriminate; reflexivity. }
  apply loadable_sound in Hq.
  destruct (New_spec callers pattern args s Hf Hq) as (obj & nx & E & F & _).
  exists obj, (mkStore (<[next s := obj]> (heap s)) nx).
  split; [exact E|]. split; [apply lookup_insert_eq|].
  apply fieldsOf_eq in F as (_ & _ & _ & F).
  unfold bag at 1. rewrite F.
  fold (bag (traced callers (built (heap s) (scanned pattern args)))).
  rewrite bag_traced. unfold built.
  change (bag (TracedError.setStatusCode ?e ?k)) with (bag e).
  rewrite Ecs, fold_left_app. cbn [fold_left].
  rewrite fold_bag_keep by assumption.
  unfold classStep. rewrite bag_setProperty. now rewrite decide_True.
Qed.

Lemma New_keeps_last_bad_key_witness :
  exists obj s',
    New (H := plainFmt) testCaller "message"
      [ABool false; AString "dur"; AInt 1000] emptyStore
    = Ok (Some (Traced 0), s')
    /\ heap s' !! 0%nat = Some obj
    /\ bag obj !! "!BADKEY" = Some (ABool false).
Proof.
  apply (New_keeps_last_bad_key (H := plainFmt) testCaller "message"
           [ABool false; AString "dur"; AInt 1000] emptyStore
           [] [CProperty "dur" (AInt 1000)] (ABool false));
    reflexivity.
Defined.

(** Of two arguments of another type the first is lost: it is the value
    of no key of the error [New] returns. *)
Lemma New_keeps_last_bad_key_counterexample :
  exists obj s',
    New (H := plainFmt) testCaller "message" [ABool false; ABool true]
      emptyStore = Ok (Some (Traced 0), s')
    /\ heap s' !! 0%nat = Some obj
    /\ bag obj = {[ "!BADKEY" := ABool true ]}
    /\ forall k, bag obj !! k <> Some (ABool false).
Proof.
  eexists _, _.
  split; [vm_compute; reflexivity|].
  split; [vm_compute; reflexivity|].
  split; [vm_compute; reflexivity|].
  intros k. destruct (decide (k = "!BADKEY")) as [->|Hk].
  - vm_compute. discriminate.
  - match goal with |- ?m !! k <> _ =>
      replace m with ({[ "!BADKEY" := ABool true ]} : gmap string any)
        by (vm_compute; reflexivity)
    end.
    rewrite lookup_singleton_ne by congruence. discriminate.
Qed.

(** ** errors.Is *)


Lemma is_any_ext (f g : error -> outcome bool) (errs : list error) (b : bool) :
  (forall e b', e ∈ errs -> f e = Done b' -> g e = Done b') ->
  is_any f errs = Done b -> is_any g errs = Done b.
Proof.
  induction errs as [|e errs IH]; intros Hfg; simpl; [auto|].
  destruct (f e) as [[|]| | |] eqn:Ef; try discriminate.
  - intros [= <-]. now rewrite (Hfg e true (list_elem_of_here _ _) Ef).
  - rewrite (Hfg e false (list_elem_of_here _ _) Ef).
    apply IH. intros e' b' Hin. apply Hfg. now apply list_elem_of_further.
Qed.

(** More steps do not change a result. *)
Lemma is_mono (h : gmap addr TracedError.t) (target : error) (n : nat) :
  forall (e : error) (b : bool),
    is_ n h e target = Done b -> is_ (S n) h e target = Done b.
Proof.
  induction n as [|n IH]; intros e b; [discriminate|].
  intros E. simpl in E. cbn [is_].
  destruct (error_eqb e target); [exact E|].
  destruct e as [p m|p m errs|p errs|p]; try exact E.
  - eapply is_any_ext; [|exact E]. intros e' b' _. apply IH.
  - eapply is_any_ext; [|exact E]. intros e' b' _. apply IH.
  - destruct (h !! p) as [obj|]; [|exact E].
    destruct (TracedError.Err obj); [now apply IH | exact E].
Qed.

Lemma is_mono_add (h : gmap addr TracedError.t) (target : error)
    (n k : nat) (e : error) (b : bool) :
  is_ n h e target = Done b -> is_ (k + n) h e target = Done b.
Proof.
  intros E. induction k as [|k IH]; [exact E|]. now apply is_mono.
Qed.



(** ** Join *)

Lemma Join_count (errs : list (option error)) :
  forall (err : option error) (n : nat),
    fold_left (fun '(err, n) (e : option error) =>
                 match e with
                 | Some _ => (e, S n)
                 | None => (err, n)
                 end) errs (err, n)
    = (match last (omap id errs) with
       | Some e => Some e
       | None => err
       end, (n + length (omap id errs))%nat).
Proof.
  induction errs as [|[x|] errs IH]; intros err n; simpl.
  - f_equal. lia.
  - rewrite IH. simpl. rewrite last_cons, Nat.add_succ_r.
    destruct (last _); reflexivity.
  - rewrite IH. reflexivity.
Qed.

Lemma Join_cases (callers : list RawFrame) (errs : list (option error))
    (s : store) :
  Join callers errs s
  = match omap id errs with
    | [] => Ok (None, s)
    | [e] => traceCaller (libFrame "Join" :: callers) (Some e) s
    | _ =>
        (let* j := stderrors_Join errs in
         traceCaller (libFrame "Join" :: callers) j) s
    end.
Proof.
  unfold Join. rewrite Join_count.
  destruct (omap id errs) as [|e1 [|e2 live]]; reflexivity.
Qed.


(** The frame [traceCaller] records is that of the first function of the
    call stack that is not skipped, and there is none when all are. *)
Lemma traceCaller_loop_split (pre post : list RawFrame) (c : RawFrame) :
  forallb skipped pre = true ->
  skipped c = false ->
  traceCaller_loop (pre ++ c :: post) = Some (frameOf c).
Proof.
  intros Hpre Hc. induction pre as [|fr pre IH].
  - cbn [app traceCaller_loop]. revert Hc. unfold skipped, frameOf.
    destruct (runtimeTrace c) as [[file function] line]. cbn [Function].
    now intros ->.
  - cbn [forallb] in Hpre. apply andb_true_iff in Hpre as [Hfr Hpre].
    cbn [app traceCaller_loop]. revert Hfr. unfold skipped, frameOf.
    destruct (runtimeTrace fr) as [[file function] line]. cbn [Function].
    intros ->. now apply IH.
Qed.

Lemma traceCaller_loop_skipped (frames : list RawFrame) :
  forallb skipped frames = true -> traceCaller_loop frames = None.
Proof.
  induction frames as [|fr frames IH]; [reflexivity|].
  cbn [forallb]. intros Hf. apply andb_true_iff in Hf as [Hfr Hf].
  cbn [traceCaller_loop]. revert Hfr. unfold skipped, frameOf.
  destruct (runtimeTrace fr) as [[file function] line]. cbn [Function].
  intros ->. now apply IH.
Qed.




(** ** The sign of the status code *)

Lemma classStep_status_nonneg (h : gmap addr TracedError.t)
    (e : TracedError.t) (c : argClass) :
  nonnegStatus h c = true ->
  (0 <= TracedError.StatusCode e)%Z ->
  (0 <= TracedError.StatusCode (classStep h e c))%Z.
Proof.
  intros Hc He. destruct e as [er st sc tr pr]. simpl in He.
  destruct c as [k|[| | |q]|t|k v|v]; unfold classStep;
    destruct pr; simpl in *; try assumption; try (now apply Z.leb_le);
    (destruct (h !! q) as [tq|]; [|assumption]);
    unfold mergeTraced; simpl; destruct (sc =? 0)%Z; simpl;
    destruct (String.eqb tr "" || String.eqb tr zeroTrace); simpl;
    try assumption; now apply Z.leb_le.
Qed.

Lemma fold_status_nonneg (h : gmap addr TracedError.t)
    (cs : list argClass) :
  forall e,
    forallb (nonnegStatus h) cs = true ->
    (0 <= TracedError.StatusCode e)%Z ->
    (0 <= TracedError.StatusCode (fold_left (classStep h) cs e))%Z.
Proof.
  induction cs as [|c cs IH]; intros e Hn He; simpl; [assumption|].
  simpl in Hn. apply andb_true_iff in Hn as [Hc Hn].
  apply IH; [assumption|]. now apply classStep_status_nonneg.
Qed.

Lemma orDefault_pos (k : Z) : (0 <= k)%Z -> (0 < orDefault k)%Z.
Proof.
  intros Hk. unfold orDefault. destruct (k =? 0)%Z eqn:E; [lia|].
  apply Z.eqb_neq in E. lia.
Qed.



(** ** The JSON object MarshalJSON writes *)

Section Marshal.
Context `{Json}.

(** The members of the object are the entries of the map, encoded. *)
Lemma json_Marshal_map_members (h : gmap addr TracedError.t)
    (m : gmap string any) :
  (forall k v, m !! k = Some v -> is_Some (json_Marshal_any h v)) ->
  exists kv,
    json_Marshal_map h m = Some (JObject kv)
    /\ forall k' j,
         (k', j) ∈ kv <->
         exists k v,
           m !! k = Some v /\ k' = coerceUTF8 k
           /\ json_Marshal_any h v = Some j.
Proof.
  intros Henc. unfold json_Marshal_map.
  set (f := fun '(k, v) =>
              j ← json_Marshal_any h v; Some (coerceUTF8 k, j)).
  set (l := merge_sort keyLe (map_to_list m)).
  assert (Hl : forall k v, (k, v) ∈ l <-> m !! k = Some v).
  { intros k v. unfold l. rewrite merge_sort_Permutation.
    apply elem_of_map_to_list. }
  destruct (mapM_is_Some_2 f l) as [kv Ekv].
  { apply Forall_forall. intros [k v] Hin. apply Hl in Hin.
    destruct (Henc k v Hin) as [j Ej]. exists (coerceUTF8 k, j).
    unfold compose, f. now rewrite Ej. }
  exists kv. rewrite Ekv. split; [reflexivity|].
  apply mapM_Some_1 in Ekv. intros k' j. split.
  - intros Hin. apply list_elem_of_lookup in Hin as [i Hi].
    destruct (Forall2_lookup_r _ _ _ _ _ Ekv Hi) as ([k v] & Hli & Hf).
    exists k, v. split; [apply Hl; eapply list_elem_of_lookup_2; eauto|].
    unfold f in Hf. destruct (json_Marshal_any h v); simpl in Hf;
      [|discriminate].
    now injection Hf as <- <-.
  - intros (k & v & Hm & -> & Ej).
    apply Hl, list_elem_of_lookup in Hm as [i Hi].
    destruct (Forall2_lookup_l _ _ _ _ _ Ekv Hi) as (y & Hki & Hf).
    unfold f in Hf. rewrite Ej in Hf. simpl in Hf. injection Hf as <-.
    eapply list_elem_of_lookup_2; eauto.
Qed.

Lemma MarshalJSON_unfold (fuel : nat) (h : gmap addr TracedError.t)
    (p : addr) (e : TracedError.t) (x : error) (msg : string) :
  h !! p = Some e ->
  TracedError.Err e = Some x ->
  error_Error fuel h x = Done msg ->
  MarshalJSON fuel h p
  = match json_Marshal_map h (marshalMap e msg) with
    | Some j => Done j
    | None => Failed
    end.
Proof.
  intros Ep Ex Em. unfold MarshalJSON. rewrite Ep, Ex, Em. reflexivity.
Qed.

End Marshal.

Lemma marshalMap_lookup (e : TracedError.t) (msg : string) (k : string) :
  marshalMap e msg !! k
  = if decide ("trace" = k) then
      if negb (String.eqb (TracedError.Trace e) "")
         && negb (String.eqb (TracedError.Trace e) zeroTrace)
      then Some (AString (TracedError.Trace e)) else None
    else if decide ("stack" = k) then AStack <$> TracedError.Stack e
    else if decide ("statusCode" = k) then
      if negb (TracedError.StatusCode e =? 0)%Z
      then Some (AInt (TracedError.StatusCode e)) else None
    else if decide ("error" = k) then Some (AString msg)
    else bag e !! k.
Proof.
  unfold marshalMap.
  set (m0 := match TracedError.Properties e with
             | Some props =>
                 if (0 <? size props)%nat
                 then props ∪ (∅ : gmap string any) else ∅
             | None => ∅
             end).
  assert (E0 : m0 = bag e).
  { unfold m0, bag. destruct (TracedError.Properties e) as [props|];
      [|reflexivity]. simpl.
    destruct (0 <? size props)%nat eqn:Es.
    - apply map_union_empty.
    - apply Nat.ltb_ge in Es. symmetry. apply map_size_empty_iff. lia. }
  rewrite E0.
  destruct (negb (String.eqb (TracedError.Trace e) "")
            && negb (String.eqb (TracedError.Trace e) zeroTrace));
    rewrite ?lookup_insert, ?lookup_delete;
    (destruct (decide ("trace" = k)); [reflexivity|]);
    destruct (TracedError.Stack e) as [st|];
    rewrite ?lookup_insert, ?lookup_delete;
    (destruct (decide ("stack" = k)); [reflexivity|]);
    destruct (negb (TracedError.StatusCode e =? 0)%Z);
    rewrite ?lookup_insert, ?lookup_delete;
    (destruct (decide ("statusCode" = k)); [reflexivity|]);
    rewrite ?lookup_insert;
    destruct (decide ("error" = k)); reflexivity.
Qed.

(** ** Decoding the object into StreamedError *)

Section Decode.
Context `{Json}.

Lemma findField_exact (k : string) :
  reservedName k = true -> findField streamedFields k = Some k.
Proof.
  unfold reservedName, streamedFields, findField. simpl.
  destruct (String.eqb_spec k "error") as [->|]; [reflexivity|].
  destruct (String.eqb_spec k "statusCode") as [->|]; [reflexivity|].
  destruct (String.eqb_spec k "trace") as [->|]; [reflexivity|].
  destruct (String.eqb_spec k "stack") as [->|]; [reflexivity|].
  discriminate.
Qed.

Lemma decodeFrame_encodeFrame (f : option StackFrame) :
  frameFits f = true -> is_Some (decodeFrame (encodeFrame f)).
Proof.
  destruct f as [f|]; simpl; [|eauto]. intros Hf.
  unfold findField. simpl. unfold setFrameField. simpl. rewrite Hf. simpl.
  eauto.
Qed.

Lemma decodeStack_encode (old : option (list (option StackFrame)))
    (st : list (option StackFrame)) :
  forallb frameFits st = true ->
  is_Some (decodeStack old (JArray (map encodeFrame st))).
Proof.
  intros Hst. simpl.
  destruct (mapM_is_Some_2 decodeFrame (map encodeFrame st)) as [l El].
  { apply Forall_forall. intros j Hj.
    apply list_elem_of_fmap in Hj as (f & -> & Hf).
    rewrite forallb_forall in Hst.
    apply decodeFrame_encodeFrame, Hst. now apply list_elem_of_In. }
  rewrite El. simpl. eauto.
Qed.

Variables (msg tr : string) (sc : Z) (st : list (option StackFrame)).

Lemma hasKey_cons (k k' : string) (j : json) (kv : list (string * json)) :
  hasKey k ((k', j) :: kv) = String.eqb k k' || hasKey k kv.
Proof. reflexivity. Qed.

Lemma decodeObject_canonical (kv : list (string * json)) :
  fitsInt sc = true ->
  forallb frameFits st = true ->
  forall a,
    (forall k j, (k, j) ∈ kv ->
       findField streamedFields k = None
       \/ canonical msg tr sc st k j) ->
    exists a',
      decodeObject streamedFields setStreamedField kv a = Some a'
      /\ StreamedError.Error a'
         = (if hasKey "error" kv then msg else StreamedError.Error a)
      /\ StreamedError.StatusCode a'
         = (if hasKey "statusCode" kv then sc
            else StreamedError.StatusCode a)
      /\ StreamedError.Trace a'
         = (if hasKey "trace" kv then tr else StreamedError.Trace a).
Proof.
  intros Hsc Hst. induction kv as [|[k j] kv IH]; intros a Hall.
  { exists a. repeat split. }
  assert (Hrest : forall k' j', (k', j') ∈ kv ->
            findField streamedFields k' = None
            \/ canonical msg tr sc st k' j').
  { intros k' j' Hin. apply Hall. now apply list_elem_of_further. }
  rewrite !hasKey_cons.
  destruct (Hall k j (list_elem_of_here _ _)) as [Hskip|Hcan].
  - destruct (IH a Hrest) as (a' & E & He & Hs & Ht).
    exists a'. cbn [decodeObject]. rewrite Hskip. split; [exact E|].
    destruct (String.eqb_spec "error" k) as [<-|];
      [now rewrite findField_exact in Hskip|].
    destruct (String.eqb_spec "statusCode" k) as [<-|];
      [now rewrite findField_exact in Hskip|].
    destruct (String.eqb_spec "trace" k) as [<-|];
      [now rewrite findField_exact in Hskip|].
    cbn [orb]. auto.
  - destruct Hcan as [[-> ->]|[[-> ->]|[[-> ->]|[-> ->]]]];
      cbn [decodeObject]; rewrite findField_exact by reflexivity;
      unfold setStreamedField;
      cbn [String.eqb Ascii.eqb Bool.eqb orb];
      cbn [decodeString decodeInt mbind option_bind];
      rewrite ?Hsc; cbn [mbind option_bind].
    + destruct (IH (StreamedError.mk msg (StreamedError.StatusCode a)
                      (StreamedError.Trace a) (StreamedError.Stack a))
                  Hrest) as (a' & E & He & Hs & Ht).
      exists a'. split; [exact E|].
      cbn [StreamedError.Error StreamedError.StatusCode
             StreamedError.Trace] in He, Hs, Ht.
      rewrite He. split; [now destruct (hasKey "error" kv)|].
      split; assumption.
    + destruct (IH (StreamedError.mk (StreamedError.Error a) sc
                      (StreamedError.Trace a) (StreamedError.Stack a))
                  Hrest) as (a' & E & He & Hs & Ht).
      exists a'. split; [exact E|].
      cbn [StreamedError.Error StreamedError.StatusCode
             StreamedError.Trace] in He, Hs, Ht.
      rewrite Hs. split; [assumption|].
      split; [now destruct (hasKey "statusCode" kv) | assumption].
    + destruct (IH (StreamedError.mk (StreamedError.Error a)
                      (StreamedError.StatusCode a) tr
                      (StreamedError.Stack a))
                  Hrest) as (a' & E & He & Hs & Ht).
      exists a'. split; [exact E|].
      cbn [StreamedError.Error StreamedError.StatusCode
             StreamedError.Trace] in He, Hs, Ht.
      rewrite Ht. split; [assumption|].
      split; [assumption | now destruct (hasKey "trace" kv)].
    + destruct (decodeStack_encode (StreamedError.Stack a) st Hst)
        as [st' Est].
      rewrite Est. cbn [mbind option_bind].
      destruct (IH (StreamedError.mk (StreamedError.Error a)
                      (StreamedError.StatusCode a)
                      (StreamedError.Trace a) st')
                  Hrest) as (a' & E & He & Hs & Ht).
      exists a'. split; [exact E|].
      cbn [StreamedError.Error StreamedError.StatusCode
             StreamedError.Trace] in He, Hs, Ht.
      repeat split; assumption.
Qed.

End Decode.

(** ** UnmarshalJSON *)

Section Unmarshal.
Context `{Json}.

Lemma reservedName_cases (r : string) :
  reservedName r = true ->
  r = "error" \/ r = "statusCode" \/ r = "trace" \/ r = "stack".
Proof.
  unfold reservedName, streamedFields. simpl.
  destruct (String.eqb_spec r "error"); [auto|].
  destruct (String.eqb_spec r "statusCode"); [auto|].
  destruct (String.eqb_spec r "trace"); [auto|].
  destruct (String.eqb_spec r "stack"); [auto|]. discriminate.
Qed.

Lemma deleted_reserved (m : gmap string any) (r : string) :
  reservedName r = true ->
  delete "trace" (delete "stack" (delete "statusCode" (delete "error" m)))
    !! r = None.
Proof.
  intros Hr. rewrite !lookup_delete.
  destruct (reservedName_cases r Hr) as [-> | [-> | [-> | ->]]];
    repeat case_decide; congruence.
Qed.


End Unmarshal.

(** ** Serialization and back *)

Section RoundTrip.
Context `{Json}.

Lemma not_reserved (k : string) :
  "trace" <> k -> "stack" <> k -> "statusCode" <> k -> "error" <> k ->
  reservedName k = false.
Proof.
  intros H1 H2 H3 H4. unfold reservedName, streamedFields. simpl.
  destruct (String.eqb_spec k "error"); [congruence|].
  destruct (String.eqb_spec k "statusCode"); [congruence|].
  destruct (String.eqb_spec k "trace"); [congruence|].
  destruct (String.eqb_spec k "stack"); [congruence|]. reflexivity.
Qed.

(** What an entry of the map of [MarshalJSON] is: one of the four fields
    with its built-in value, or a property of another name. *)
Lemma marshalMap_entry (e : TracedError.t) (msg k : string) (v : any) :
  marshalMap e msg !! k = Some v ->
  (k = "error" /\ v = AString msg)
  \/ (k = "statusCode" /\ v = AInt (TracedError.StatusCode e)
      /\ TracedError.StatusCode e <> 0%Z)
  \/ (k = "trace" /\ v = AString (TracedError.Trace e)
      /\ TracedError.Trace e <> "" /\ TracedError.Trace e <> zeroTrace)
  \/ (k = "stack" /\ exists st,
        TracedError.Stack e = Some st /\ v = AStack st)
  \/ (reservedName k = false /\ bag e !! k = Some v).
Proof.
  rewrite marshalMap_lookup.
  destruct (decide ("trace" = k)) as [<-|N1].
  { destruct (String.eqb_spec (TracedError.Trace e) "");
      [discriminate|].
    destruct (String.eqb_spec (TracedError.Trace e) zeroTrace);
      [discriminate|].
    simpl. intros [= <-]. auto 10. }
  destruct (decide ("stack" = k)) as [<-|N2].
  { destruct (TracedError.Stack e) as [st|]; [|discriminate].
    simpl. intros [= <-]. eauto 10. }
  destruct (decide ("statusCode" = k)) as [<-|N3].
  { destruct (TracedError.StatusCode e =? 0)%Z eqn:Ez; [discriminate|].
    simpl. intros [= <-]. apply Z.eqb_neq in Ez. auto 10. }
  destruct (decide ("error" = k)) as [<-|N4].
  { intros [= <-]. auto. }
  intros Eb. right. right. right. right. split; [|exact Eb].
  now apply not_reserved.
Qed.

Lemma encodable_entry (h : gmap addr TracedError.t) (e : TracedError.t)
    (msg k : string) (v : any) :
  encodable h e = true ->
  marshalMap e msg !! k = Some v ->
  is_Some (json_Marshal_any h v).
Proof.
  intros Henc Em.
  destruct (marshalMap_entry _ _ _ _ Em)
    as [[_ ->]|[(_ & -> & _)|[(_ & -> & _)|[(_ & st & _ & ->)|[_ Eb]]]]];
    simpl; eauto.
  unfold encodable in Henc. rewrite forallb_forall in Henc.
  apply elem_of_map_to_list, list_elem_of_In, Henc in Eb. simpl in Eb.
  destruct (json_Marshal_any h v); [eauto | discriminate].
Qed.

End RoundTrip.

Section RoundTripStatus.
Context `{Json}.

Lemma hasKey_true (k : string) (j : json) (kv : list (string * json)) :
  (k, j) ∈ kv -> hasKey k kv = true.
Proof.
  intros Hin. unfold hasKey. apply existsb_exists.
  exists (k, j). split; [now apply list_elem_of_In|]. apply String.eqb_refl.
Qed.

Lemma hasKey_false (k : string) (kv : list (string * json)) :
  (forall j, (k, j) ∉ kv) -> hasKey k kv = false.
Proof.
  intros Hn. unfold hasKey.
  destruct (existsb _ kv) eqn:E; [|reflexivity].
  apply existsb_exists in E as ([k' j] & Hin & Ek). simpl in Ek.
  apply String.eqb_eq in Ek. subst k'.
  now apply list_elem_of_In, Hn in Hin.
Qed.

Lemma coerce_reserved (k : string) :
  reservedName k = true -> coerceUTF8 k = k.
Proof.
  intros Hk.
  destruct (reservedName_cases k Hk) as [-> | [-> | [-> | ->]]];
    now apply coerceUTF8_ascii.
Qed.


End RoundTripStatus.




(** * Further properties *)

(** ** The arguments New hands to the pattern *)

Lemma count_pairs_bound (s : string) :
  (2 * strings_Count_from "%%" 0 s <= strings_Count_from "%" 0 s)%nat
  /\ (2 * strings_Count_from "%%" 1 s <= strings_Count_from "%" 0 s)%nat
  /\ (String.prefix "%" s = true ->
      2 * strings_Count_from "%%" 1 s + 1 <= strings_Count_from "%" 0 s)%nat.
Proof.
  induction s as [|c s (IH0 & IH1 & IHp)].
  { simpl. repeat split; intros; (lia || discriminate). }
  set (pc := String.prefix "%" (String c s)).
  assert (Hone : strings_Count_from "%" 0 (String c s)
                 = ((if pc then 1 else 0)
                    + strings_Count_from "%" 0 s)%nat).
  { cbn [strings_Count_from String.length Nat.sub]. fold pc.
    now destruct pc. }
  assert (Hskip : strings_Count_from "%%" 1 (String c s)
                  = strings_Count_from "%%" 0 s) by reflexivity.
  assert (Hpp : String.prefix "%%" (String c s)
                = pc && String.prefix "%" s).
  { unfold pc. cbn [String.prefix].
    destruct (ascii_dec "%" c); [|reflexivity].
    destruct s as [|d s]; [reflexivity|]. cbn [String.prefix andb].
    destruct (ascii_dec "%" d); reflexivity. }
  assert (Htwo : strings_Count_from "%%" 0 (String c s)
                 = if pc && String.prefix "%" s
                   then S (strings_Count_from "%%" 1 s)
                   else strings_Count_from "%%" 0 s).
  { cbn [strings_Count_from String.length Nat.sub]. now rewrite Hpp. }
  rewrite Hone, Hskip, Htwo. repeat split.
  - destruct pc; cbn [andb]; [|lia].
    destruct (String.prefix "%" s) eqn:Ep; [|lia].
    specialize (IHp eq_refl). lia.
  - destruct pc; lia.
  - intros Hp. rewrite Hp. lia.
Qed.

(** X1: the number of arguments [New] hands to the pattern is the number
    of percent signs less twice the number of doubled percent signs, a
    number that is never negative, cut down to the number of arguments:
    the slice [args[:pctArgs]] is always within bounds, and the arguments
    handed to the pattern and the arguments the loop looks at make up the
    argument list. *)
Theorem pctArgs_in_bounds (pattern : string) (args : list any) :
  (0 <= Z.of_nat (strings_Count pattern "%")
        - 2 * Z.of_nat (strings_Count pattern "%%"))%Z
  /\ Z.of_nat (pctArgs pattern args)
     = Z.min (Z.of_nat (strings_Count pattern "%")
              - 2 * Z.of_nat (strings_Count pattern "%%"))
         (Z.of_nat (length args))
  /\ (pctArgs pattern args <= length args)%nat
  /\ (take (pctArgs pattern args) args
        ++ drop (pctArgs pattern args) args)%list = args
  /\ (strings_Count pattern "%" = 0%nat -> pctArgs pattern args = 0%nat).
Proof.
  destruct (count_pairs_bound pattern) as (Hb & _ & _).
  unfold strings_Count, pctArgs, strings_Count in *.
  split; [lia|]. split; [lia|]. split; [lia|].
  split; [apply take_drop|]. intros E. rewrite E. lia.
Qed.

(** ** The cause New ends with *)

Section NewCause.
Context `{Fmt}.

(** Without an error among the arguments the loop keeps the cause it
    has. *)
Lemma New_loop_keeps_cause (n : nat) :
  forall (args : list any) (err err' : TracedError.t) (s s' : store)
         (x : error),
    (length args <= n)%nat ->
    existsb isCause (classify args) = false ->
    TracedError.Err err = Some x ->
    New_loop args err s = Ok (err', s') ->
    TracedError.Err err' = Some x.
Proof.
  induction n as [|n IH]; intros args err err' s s' x Hn Hc Ex E.
  { destruct args; [|simpl in Hn; lia]. injection E as <- _. exact Ex. }
  destruct args as [|k rest]; [injection E as <- _; exact Ex|].
  simpl in Hn. assert (Hrest : (length rest <= n)%nat) by lia.
  set (err0 := match TracedError.Properties err with
               | None => TracedError.setProperties err (Some ∅)
               | Some _ => err
               end) in *.
  assert (Ex0 : TracedError.Err err0 = Some x).
  { unfold err0. now destruct (TracedError.Properties err). }
  destruct k as [|k|k|k|b|z|l|j|tag]; cbn [classify] in Hc;
    try (cbn [existsb isCause orb] in Hc;
         refine (IH rest _ err' s s' x Hrest Hc _ E); exact Ex0).
  - (* int *)
    cbn [existsb isCause orb] in Hc. cbn [New_loop] in E. fold err0 in E.
    cbn [TracedError.Err TracedError.setStatusCode] in E. rewrite Ex0 in E.
    refine (IH rest _ err' s s' x Hrest Hc _ E). exact Ex0.
  - (* string *)
    cbn [New_loop] in E. fold err0 in E.
    destruct ((String.length k =? 32)%nat && isHex k).
    + cbn [existsb isCause orb] in Hc.
      refine (IH rest _ err' s s' x Hrest Hc _ E). exact Ex0.
    + destruct rest as [|v rest'].
      * injection E as <- _. exact Ex0.
      * cbn [existsb isCause orb] in Hc. simpl in Hrest.
        refine (IH rest' _ err' s s' x _ Hc _ E); [lia | exact Ex0].
  - (* error *)
    discriminate Hc.
Qed.

(** The run of [New], stage by stage: the cause [x0] the pattern gives,
    the loop, the cause [y] it ends with, and the object returned. *)
Lemma New_run (callers : list RawFrame) (pattern : string)
    (args : list any) (s : store) :
  heap s !! next s = None ->
  causesLoaded (heap s) (scanned pattern args) ->
  exists x0 s2 err' s3 y obj nx,
    (pattern = "" -> x0 = None /\ next s2 = S (next s))
    /\ heap s2 = <[next s := TracedError.zero]> (heap s)
    /\ New_loop (drop (pctArgs pattern args) args)
         (TracedError.setErr TracedError.zero x0) s2 = Ok (err', s3)
    /\ (TracedError.Err err' = Some y
        \/ (TracedError.Err err' = None
            /\ y = ErrorString (next s3) "unspecified error"))
    /\ New callers pattern args s
       = Ok (Some (Traced (next s)), mkStore (<[next s := obj]> (heap s)) nx)
    /\ TracedError.Err obj = Some y.
Proof.
  intros Hfresh Hq. unfold New.
  set (p := next s).
  set (s1 := mkStore (<[p := TracedError.zero]> (heap s)) (S p)).
  assert (E1 : newTraced TracedError.zero s = Ok (p, s1)) by reflexivity.
  rewrite (bind_Ok _ _ _ _ _ E1).
  assert (E2 : exists x s2,
             (if String.eqb pattern "" then ret TracedError.zero
              else
                let* e := fmt_Errorf pattern (take (pctArgs pattern args) args)
                in ret (TracedError.setErr TracedError.zero (Some e))) s1
             = Ok (TracedError.setErr TracedError.zero x, s2)
             /\ heap s2 = heap s1
             /\ (pattern = "" -> x = None /\ next s2 = S p)).
  { destruct (String.eqb_spec pattern "") as [Ep|Np].
    - exists None, s1. repeat split.
    - destruct (fmt_Errorf_Ok pattern (take (pctArgs pattern args) args) s1)
        as [e Ee].
      exists (Some e), (mkStore (heap s1) (S (next s1))).
      unfold bind. rewrite Ee. repeat split; congruence. }
  destruct E2 as (x & s2 & E2 & Hh2 & Hx).
  rewrite (bind_Ok _ _ _ _ _ E2).
  assert (Hq2 : causesLoaded (heap s2)
                  (classify (drop (pctArgs pattern args) args))).
  { intros q Hin. rewrite Hh2. simpl.
    destruct (decide (p = q)) as [->|Hne].
    - rewrite lookup_insert_eq. eauto.
    - rewrite lookup_insert_ne by assumption. now apply Hq. }
  destruct (New_loop_fields _ _ (TracedError.setErr TracedError.zero x) s2
              (le_n _) Hq2) as (err' & s3 & E3 & Hh3 & Hf3).
  rewrite (bind_Ok _ _ _ _ _ E3).
  assert (E4 : exists y s4,
             (match TracedError.Err err' with
              | None =>
                  let* e := stderrors_New "unspecified error" in
                  ret (TracedError.setErr err' (Some e))
              | Some _ => ret err'
              end) s3 = Ok (TracedError.setErr err' (Some y), s4)
             /\ heap s4 = heap s3
             /\ (TracedError.Err err' = Some y
                 \/ (TracedError.Err err' = None
                     /\ y = ErrorString (next s3) "unspecified error"))).
  { destruct (TracedError.Err err') as [y|] eqn:Ey.
    - exists y, s3. split; [|auto].
      destruct err'. simpl in Ey. subst. reflexivity.
    - exists (ErrorString (next s3) "unspecified error"),
        (mkStore (heap s3) (S (next s3))).
      repeat split. auto. }
  destruct E4 as (y & s4 & E4 & Hh4 & Hy).
  rewrite (bind_Ok _ _ _ _ _ E4).
  set (errF := if (TracedError.StatusCode (TracedError.setErr err' (Some y))
                   =? 0)%Z
               then TracedError.setStatusCode
                      (TracedError.setErr err' (Some y)) 500
               else TracedError.setErr err' (Some y)).
  unfold bind at 1, storeAt at 1.
  rewrite traceCaller_Traced with (obj := errF)
    by (simpl; apply lookup_insert_eq).
  cbn [heap next].
  rewrite Hh4, Hh3, Hh2. unfold s1. cbn [heap].
  rewrite !insert_insert_eq.
  exists x, s2, err', s3, y. eexists _, _.
  split; [exact Hx|]. split; [exact Hh2|]. split; [exact E3|].
  split; [exact Hy|]. split; [reflexivity|].
  rewrite Err_traced. unfold errF.
  destruct (TracedError.StatusCode _ =? 0)%Z; reflexivity.
Qed.


End NewCause.



(** ** Properties, stack and trace ID through New *)

Lemma classStep_bag_other (h : gmap addr TracedError.t)
    (e : TracedError.t) (c : argClass) (k : string) :
  writesKey h k c = false ->
  bag (classStep h e c) !! k = bag e !! k.
Proof.
  intros Hw. rewrite <- (bag_ensure e). unfold classStep.
  set (e0 := match TracedError.Properties e with
             | None => TracedError.setProperties e (Some ∅)
             | Some _ => e
             end).
  assert (Hp : is_Some (TracedError.Properties e0)).
  { unfold e0. destruct e as [er st sc tr [pr|]]; simpl; eauto. }
  destruct c as [z|[| | |q]|t|k' v|v]; try reflexivity;
    cbn [writesKey] in Hw.
  - destruct (h !! q) as [tq|]; [|reflexivity].
    rewrite (bag_mergeTraced _ _ _ Hp).
    destruct (bag tq !! k); [discriminate Hw | reflexivity].
  - rewrite bag_setProperty. case_decide as E; [|reflexivity].
    subst. now rewrite String.eqb_refl in Hw.
  - rewrite bag_setProperty. case_decide as E; [|reflexivity].
    subst. now rewrite String.eqb_refl in Hw.
Qed.

Lemma fold_bag_other (h : gmap addr TracedError.t) (cs : list argClass)
    (k : string) :
  forall e,
    existsb (writesKey h k) cs = false ->
    bag (fold_left (classStep h) cs e) !! k = bag e !! k.
Proof.
  induction cs as [|c cs IH]; intros e Hn; [reflexivity|].
  cbn [existsb] in Hn. apply orb_false_iff in Hn as [Hc Hn].
  cbn [fold_left]. rewrite IH by assumption. now apply classStep_bag_other.
Qed.

Lemma classStep_stack_keep (h : gmap addr TracedError.t)
    (e : TracedError.t) (c : argClass) :
  isTracedCause c = false ->
  TracedError.Stack (classStep h e c) = TracedError.Stack e.
Proof.
  intros Hc. destruct e as [er st sc tr pr].
  destruct c as [z|[| | |q]|t|k' v|v]; try discriminate Hc;
    unfold classStep; destruct pr; reflexivity.
Qed.

Lemma fold_stack_keep (h : gmap addr TracedError.t) (cs : list argClass) :
  forall e,
    existsb isTracedCause cs = false ->
    TracedError.Stack (fold_left (classStep h) cs e) = TracedError.Stack e.
Proof.
  induction cs as [|c cs IH]; intros e Hn; [reflexivity|].
  cbn [existsb] in Hn. apply orb_false_iff in Hn as [Hc Hn].
  cbn [fold_left]. rewrite IH by assumption.
  now apply classStep_stack_keep.
Qed.

Lemma Stack_traced (frames : list RawFrame) (a : TracedError.t) :
  TracedError.Stack (traced frames a)
  = match traceCaller_loop frames with
    | Some f => Some (default [] (TracedError.Stack a) ++ [Some f])%list
    | None => TracedError.Stack a
    end.
Proof.
  unfold traced.
  destruct (TracedError.StatusCode a =? 0)%Z;
    destruct (traceCaller_loop frames); reflexivity.
Qed.

(** X3: [Trace] of a traced error, with further arguments among which
    there is no other traced error, returns a new traced error and leaves
    the one given as it is.  When the call stack is [pre ++ c :: post],
    the functions of [pre] being skipped and [c] not, the stack of the new
    one is the stack of the one given followed by the frame of [c]; when
    every function on the call stack is skipped, it is the stack of the
    one given.  The new one has every property of the one given that the
    further arguments do not write. *)
Theorem Trace_extends_traced `{Fmt} (callers : list RawFrame) (q : addr)
    (tq : TracedError.t) (a : list any) (s : store) :
  heap s !! next s = None ->
  heap s !! q = Some tq ->
  existsb isTracedCause (classify a) = false ->
  exists obj s',
    Trace callers (Some (Traced q)) a s = Ok (Some (Traced (next s)), s')
    /\ next s <> q
    /\ heap s' !! next s = Some obj
    /\ heap s' !! q = Some tq
    /\ (forall pre c post,
          callers = (pre ++ c :: post)%list ->
          forallb skipped pre = true ->
          skipped c = false ->
          TracedError.Stack obj
          = Some (default [] (TracedError.Stack tq)
                    ++ [Some (frameOf c)])%list)
    /\ (forallb skipped callers = true ->
          TracedError.Stack obj = TracedError.Stack tq)
    /\ forall k,
         existsb (writesKey (heap s) k) (classify a) = false ->
         bag obj !! k = bag tq !! k.
Proof.
  intros Hf Eq Ht.
  assert (Hne : next s <> q) by congruence.
  assert (Hq : causesLoaded (heap s) (scanned "" (AError (Traced q) :: a))).
  { intros q' Hin. unfold scanned in Hin.
    change (pctArgs "" (AError (Traced q) :: a)) with 0%nat in Hin.
    cbn [drop classify] in Hin.
    apply elem_of_cons in Hin as [[= ->]|Hin]; [eauto|].
    exfalso. apply list_elem_of_In in Hin.
    assert (Hex : existsb isTracedCause (classify a) = true)
      by (apply existsb_exists; eexists; split; [exact Hin | reflexivity]).
    congruence. }
  destruct (New_spec (libFrame "Trace" :: callers) ""
              (AError (Traced q) :: a) s Hf Hq) as (obj & nx & E & F & _).
  exists obj, (mkStore (<[next s := obj]> (heap s)) nx).
  split; [exact E|]. split; [exact Hne|].
  cbn [heap]. split; [apply lookup_insert_eq|].
  split; [now rewrite lookup_insert_ne|].
  apply fieldsOf_eq in F as (Fs & _ & _ & Fp).
  destruct (traceCaller_loop_libFrame callers) as (_ & ET & _).
  assert (Esc : scanned "" (AError (Traced q) :: a)
                = CCause (Traced q) :: classify a) by reflexivity.
  assert (Est : TracedError.Stack obj
                = match traceCaller_loop callers with
                  | Some f =>
                      Some (default [] (TracedError.Stack tq) ++ [Some f])%list
                  | None => TracedError.Stack tq
                  end).
  { rewrite Fs, Stack_traced, ET. unfold built. rewrite Esc.
    cbn [fold_left TracedError.Stack TracedError.setStatusCode].
    rewrite fold_stack_keep by assumption.
    unfold classStep. rewrite Eq. reflexivity. }
  split; [|split].
  - intros pre c post -> Hpre Hc.
    now rewrite Est, (traceCaller_loop_split pre post c Hpre Hc).
  - intros Hall. now rewrite Est, (traceCaller_loop_skipped callers Hall).
  - intros k Hk. unfold bag at 1. rewrite Fp.
    fold (bag (traced (libFrame "Trace" :: callers)
                 (built (heap s) (scanned "" (AError (Traced q) :: a))))).
    rewrite bag_traced. unfold built. rewrite Esc.
    change (bag (TracedError.setStatusCode ?e ?z)) with (bag e).
    cbn [fold_left]. rewrite fold_bag_other by assumption.
    unfold classStep. rewrite Eq.
    rewrite bag_mergeTraced by (simpl; eauto).
    destruct (bag tq !! k); reflexivity.
Qed.

Lemma Trace_extends_traced_witness :
  exists obj s',
    Trace (H := plainFmt) testCaller (Some (Traced 0))
      [AInt 501; AString "moo"; AString "baz"] conflictStore
    = Ok (Some (Traced (next conflictStore)), s')
    /\ heap s' !! next conflictStore = Some obj
    /\ TracedError.Stack obj
       = Some [Some (mkStackFrame "errors.TestErrors_New" "errors_test.go" 44);
               Some (mkStackFrame "errors.TestErrors_New" "errors_test.go" 44)]
    /\ bag obj !! "key" = Some (AString "value").
Proof.
  assert (Eq : heap conflictStore !! 0%nat
               = Some (default TracedError.zero (heap conflictStore !! 0%nat)))
    by (vm_compute; reflexivity).
  assert (Hf : heap conflictStore !! next conflictStore = None)
    by (vm_compute; reflexivity).
  destruct (Trace_extends_traced (H := plainFmt) testCaller 0%nat _
              [AInt 501; AString "moo"; AString "baz"] conflictStore
              Hf Eq eq_refl)
    as (obj & s' & E & _ & L & _ & St & _ & Pr).
  exists obj, s'. split; [exact E|]. split; [exact L|]. split.
  - rewrite (St [] _ _ eq_refl eq_refl) by (vm_compute; reflexivity).
    vm_compute. reflexivity.
  - rewrite Pr by (vm_compute; reflexivity). vm_compute. reflexivity.
Defined.

Lemma classStep_trace_keep (h : gmap addr TracedError.t)
    (e : TracedError.t) (c : argClass) :
  isTraceID c = false ->
  TracedError.Trace e <> "" ->
  TracedError.Trace e <> zeroTrace ->
  TracedError.Trace (classStep h e c) = TracedError.Trace e.
Proof.
  intros Hc N1 N2. destruct e as [er st sc tr pr]. cbn in N1, N2.
  apply String.eqb_neq in N1, N2.
  destruct c as [z|[| | |q]|t|k' v|v]; try discriminate Hc;
    unfold classStep; destruct pr; try reflexivity;
    (destruct (h !! q); [|reflexivity]);
    unfold mergeTraced; cbn; destruct (sc =? 0)%Z; cbn;
    rewrite N1, N2; reflexivity.
Qed.

Lemma fold_trace_keep (h : gmap addr TracedError.t) (cs : list argClass) :
  forall e,
    existsb isTraceID cs = false ->
    TracedError.Trace e <> "" ->
    TracedError.Trace e <> zeroTrace ->
    TracedError.Trace (fold_left (classStep h) cs e) = TracedError.Trace e.
Proof.
  induction cs as [|c cs IH]; intros e Hn N1 N2; [reflexivity|].
  cbn [existsb] in Hn. apply orb_false_iff in Hn as [Hc Hn].
  cbn [fold_left].
  assert (Et := classStep_trace_keep h e c Hc N1 N2).
  rewrite IH; [exact Et | assumption | congruence | congruence].
Qed.

Lemma Trace_traced (frames : list RawFrame) (a : TracedError.t) :
  TracedError.Trace (traced frames a) = TracedError.Trace a.
Proof.
  unfold traced.
  destruct (TracedError.StatusCode a =? 0)%Z;
    destruct (traceCaller_loop frames); reflexivity.
Qed.

(** X4: a string that is not a trace ID is the key of a property and the
    argument after it is the value, or the empty string when there is
    none; the error [New] returns has that value under that key when no
    argument after them writes the key. *)
Theorem New_sets_property `{Fmt} (callers : list RawFrame)
    (pattern : string) (args : list any) (s : store)
    (pre post : list argClass) (k : string) (v : any) :
  heap s !! next s = None ->
  forallb (loadable (heap s)) (scanned pattern args) = true ->
  scanned pattern args = (pre ++ CProperty k v :: post)%list ->
  existsb (writesKey (heap s) k) post = false ->
  (forall k' v' rest,
      (String.length k' =? 32)%nat && isHex k' = false ->
      classify (AString k' :: v' :: rest) = CProperty k' v' :: classify rest
      /\ classify [AString k'] = [CProperty k' (AString "")])
  /\ exists obj s',
      New callers pattern args s = Ok (Some (Traced (next s)), s')
      /\ heap s' !! next s = Some obj
      /\ bag obj !! k = Some v.
Proof.
  intros Hf Hq Ecs Hn. split.
  { intros k' v' rest Hk. cbn [classify]. rewrite Hk. split; reflexivity. }
  apply loadable_sound in Hq.
  destruct (New_spec callers pattern args s Hf Hq) as (obj & nx & E & F & _).
  exists obj, (mkStore (<[next s := obj]> (heap s)) nx).
  split; [exact E|]. split; [apply lookup_insert_eq|].
  apply fieldsOf_eq in F as (_ & _ & _ & F).
  unfold bag at 1. rewrite F.
  fold (bag (traced callers (built (heap s) (scanned pattern args)))).
  rewrite bag_traced. unfold built.
  change (bag (TracedError.setStatusCode ?e ?z)) with (bag e).
  rewrite Ecs, fold_left_app. cbn [fold_left].
  rewrite fold_bag_other by assumption.
  unfold classStep. rewrite bag_setProperty. now rewrite decide_True.
Qed.

Lemma New_sets_property_witness :
  exists obj s',
    New (H := plainFmt) testCaller "format string %s %d"
      [AString "XYZ"; AInt 123; AString "strKey"; AString "ABC";
       AString "intKey"; AInt 888] emptyStore
    = Ok (Some (Traced 0), s')
    /\ heap s' !! 0%nat = Some obj
    /\ bag obj !! "intKey" = Some (AInt 888).
Proof.
  apply (New_sets_property (H := plainFmt) testCaller "format string %s %d"
           [AString "XYZ"; AInt 123; AString "strKey"; AString "ABC";
            AString "intKey"; AInt 888] emptyStore
           [CProperty "strKey" (AString "ABC")] [] "intKey" (AInt 888));
    reflexivity.
Defined.

(** X5: a string of 32 hexadecimal digits is a trace ID, whatever comes
    after it, and never the key of a property; the error [New] returns
    has the last one as its trace ID, unless that one is all zeros. *)
Theorem New_sets_trace_ID `{Fmt} (callers : list RawFrame)
    (pattern : string) (args : list any) (s : store)
    (pre post : list argClass) (t : string) :
  heap s !! next s = None ->
  forallb (loadable (heap s)) (scanned pattern args) = true ->
  scanned pattern args = (pre ++ CTrace t :: post)%list ->
  existsb isTraceID post = false ->
  t <> "" ->
  t <> zeroTrace ->
  (forall t' rest,
      (String.length t' =? 32)%nat && isHex t' = true ->
      classify (AString t' :: rest) = CTrace t' :: classify rest)
  /\ exists obj s',
      New callers pattern args s = Ok (Some (Traced (next s)), s')
      /\ heap s' !! next s = Some obj
      /\ TracedError.Trace obj = t.
Proof.
  intros Hf Hq Ecs Hn N1 N2. split.
  { intros t' rest Ht. cbn [classify]. now rewrite Ht. }
  apply loadable_sound in Hq.
  destruct (New_spec callers pattern args s Hf Hq) as (obj & nx & E & F & _).
  exists obj, (mkStore (<[next s := obj]> (heap s)) nx).
  split; [exact E|]. split; [apply lookup_insert_eq|].
  apply fieldsOf_eq in F as (_ & _ & F & _).
  rewrite F, Trace_traced. unfold built.
  cbn [TracedError.Trace TracedError.setStatusCode].
  rewrite Ecs, fold_left_app. cbn [fold_left].
  assert (Et : TracedError.Trace
                 (classStep (heap s)
                    (fold_left (classStep (heap s)) pre TracedError.zero)
                    (CTrace t)) = t).
  { unfold classStep.
    now destruct (TracedError.Properties
                    (fold_left (classStep (heap s)) pre TracedError.zero)). }
  rewrite fold_trace_keep; [exact Et | assumption | congruence | congruence].
Qed.

Lemma New_sets_trace_ID_witness :
  exists obj s',
    New (H := plainFmt) testCaller "failed"
      [AString "0123456789abcdef0123456789abcdef"] emptyStore
    = Ok (Some (Traced 0), s')
    /\ heap s' !! 0%nat = Some obj
    /\ TracedError.Trace obj = "0123456789abcdef0123456789abcdef".
Proof.
  apply (New_sets_trace_ID (H := plainFmt) testCaller "failed"
           [AString "0123456789abcdef0123456789abcdef"] emptyStore
           [] [] "0123456789abcdef0123456789abcdef");
    (reflexivity || discriminate).
Defined.

(** ** The frames recorded *)

(** X6: the frame [traceCaller] records is the first frame of the call
    stack, from its caller outwards, whose function is not one of the
    runtime or of the package itself, functions of the package's tests
    apart; with no such frame it records none. *)
Theorem traceCaller_loop_first (frames : list RawFrame) :
  traceCaller_loop frames
  = option_map frameOf (List.find (fun fr => negb (skipped fr)) frames).
Proof.
  induction frames as [|fr outer IH]; [reflexivity|].
  cbn [traceCaller_loop List.find].
  assert (Es : skipped fr = skipFrame (Function (frameOf fr)))
    by reflexivity.
  rewrite Es. unfold frameOf at 1 2.
  destruct (runtimeTrace fr) as [[file function] line] eqn:E.
  cbn [Function].
  destruct (skipFrame function); cbn [negb option_map]; [exact IH|].
  unfold frameOf. rewrite E. reflexivity.
Qed.

(** ** The function name of a frame *)

Lemma substring_all (s : string) : String.substring 0 (String.length s) s = s.
Proof. induction s as [|c s IH]; [reflexivity|]. cbn. now rewrite IH. Qed.

(** X7: the function name [runtimeTrace] gives is the part of the full
    name after its last slash, the full name when it has none, and ["?"]
    when the runtime knows no function; the file and the line are those
    of the frame. *)
Theorem runtimeTrace_short_name (fr : RawFrame) :
  (forall name,
      rawFunc fr = Some name ->
      exists dir function,
        runtimeTrace fr = (rawFile fr, function, rawLine fr)
        /\ name = dir ++ function
        /\ LastIndexByte function "/"%char = None
        /\ (dir = "" \/ exists dir', dir = dir' ++ "/"))
  /\ (rawFunc fr = None -> runtimeTrace fr = (rawFile fr, "?", rawLine fr)).
Proof.
  split; [|intros E; unfold runtimeTrace; now rewrite E].
  intros name E. unfold runtimeTrace. rewrite E. clear E.
  enough (Hs : exists dir,
             name = dir ++ match LastIndexByte name "/"%char with
                           | Some p =>
                               String.substring (p + 1)
                                 (String.length name - (p + 1)) name
                           | None => name
                           end
             /\ LastIndexByte
                  match LastIndexByte name "/"%char with
                  | Some p =>
                      String.substring (p + 1)
                        (String.length name - (p + 1)) name
                  | None => name
                  end "/"%char = None
             /\ (dir = "" \/ exists dir', dir = dir' ++ "/")).
  { destruct Hs as (dir & H1 & H2 & H3). eauto 10. }
  induction name as [|a name IH].
  { exists "". repeat split. now left. }
  destruct IH as (dir & H1 & H2 & H3).
  cbn [LastIndexByte].
  destruct (LastIndexByte name "/"%char) as [i|] eqn:Ei.
  - rewrite ?Ei in H1, H2. exists (String a dir).
    replace (String.substring (S i + 1) (String.length (String a name)
                                          - (S i + 1)) (String a name))
      with (String.substring (i + 1) (String.length name - (i + 1)) name)
      by reflexivity.
    split; [exact (f_equal (String a) H1)|]. split; [exact H2|].
    right. destruct H3 as [->|[dir' ->]].
    + exfalso. change ("" ++ ?x) with x in H1.
      assert (Hl := f_equal String.length H1).
      assert (Hi : (i < String.length name)%nat).
      { clear -Ei. revert i Ei. induction name as [|b name IH]; intros i Ei;
          [discriminate|]. cbn [LastIndexByte] in Ei. cbn [String.length].
        destruct (LastIndexByte name "/"%char) as [j|].
        - injection Ei as <-. specialize (IH j eq_refl). lia.
        - destruct (Ascii.eqb b "/"%char); [|discriminate].
          injection Ei as <-. lia. }
      assert (Hsub : forall n m s,
                 (String.length (String.substring n m s) <= m)%nat).
      { clear. intros n m s. revert n m.
        induction s as [|c s IH]; intros [|n] [|m]; cbn; try lia.
        - specialize (IH 0%nat m). lia.
        - apply IH.
        - apply IH. }
      specialize (Hsub (i + 1)%nat (String.length name - (i + 1))%nat name).
      lia.
    + exists (String a dir'). reflexivity.
  - destruct (Ascii.eqb_spec a "/"%char) as [->|Na].
    + exists "/". cbn [Nat.add String.length Nat.sub String.substring].
      rewrite Nat.sub_0_r, substring_all.
      split; [reflexivity|]. split; [exact Ei|].
      right. exists "". reflexivity.
    + exists "". split; [reflexivity|]. split; [|now left].
      cbn [LastIndexByte]. rewrite Ei.
      destruct (Ascii.eqb_spec a "/"%char); [contradiction | reflexivity].
Qed.

(** ** traceFull *)

Lemma appendFrames_cons (st : option (list (option StackFrame)))
    (f : StackFrame) (l : list StackFrame) :
  appendFrames (appendFrame st f) l = appendFrames st (f :: l).
Proof.
  unfold appendFrames, appendFrame. destruct l as [|g l]; [reflexivity|].
  cbn. now rewrite <- app_assoc.
Qed.

Lemma fullTrace_cons (fr : RawFrame) (outer : list RawFrame) :
  fullTrace (fr :: outer)
  = if beforeCatch fr
    then if skipped fr then fullTrace outer
         else frameOf fr :: fullTrace outer
    else [].
Proof.
  unfold fullTrace. cbn [upTo].
  destruct (beforeCatch fr); [|reflexivity].
  cbn [List.filter]. now destruct (skipped fr).
Qed.

Lemma traceFull_loop_spec (p : addr) (frames : list RawFrame) :
  forall (s : store) (obj : TracedError.t),
    heap s !! p = Some obj ->
    traceFull_loop p frames s
    = Ok (tt,
          mkStore
            (<[p := TracedError.setStack obj
                      (appendFrames (TracedError.Stack obj)
                         (fullTrace frames))]> (heap s))
            (next s)).
Proof.
  induction frames as [|fr outer IH]; intros s obj Ep.
  { cbn. rewrite insert_id; [now destruct s|]. rewrite Ep. now destruct obj. }
  rewrite fullTrace_cons. cbn [traceFull_loop].
  unfold beforeCatch, skipped, frameOf.
  destruct (runtimeTrace fr) as [[file function] line].
  cbn [Function].
  destruct (String.eqb function "errors.CatchPanic"); cbn [negb].
  { cbn. rewrite insert_id; [now destruct s|]. rewrite Ep. now destruct obj. }
  destruct (skipFrame function); [now apply IH|].
  rewrite (bind_Ok _ _ _ _ _ (load_Some _ _ _ Ep)).
  unfold bind at 1, storeAt at 1.
  rewrite (IH _ (TracedError.setStack obj
                   (appendFrame (TracedError.Stack obj)
                      (mkStackFrame function file line))))
    by (cbn [heap]; apply lookup_insert_eq).
  cbn [heap next TracedError.Stack TracedError.setStack].
  rewrite insert_insert_eq, appendFrames_cons. reflexivity.
Qed.

(** [traceFull] on the store of the model. *)
Lemma traceFull_Traced (frames : list RawFrame) (level : Z) (s : store)
    (p : addr) (obj : TracedError.t) :
  heap s !! p = Some obj ->
  traceFull frames (Some (Traced p)) level s
  = Ok (Some (Traced p),
        mkStore
          (<[p := TracedError.mk (TracedError.Err obj)
                    (appendFrames (TracedError.Stack obj)
                       (fullTrace (drop (Z.to_nat (Z.max 0 level)) frames)))
                    (orDefault (TracedError.StatusCode obj))
                    (TracedError.Trace obj)
                    (TracedError.Properties obj)]> (heap s))
          (next s)).
Proof.
  assert (El : Z.to_nat (if (level <? 0)%Z then 0%Z else level)
               = Z.to_nat (Z.max 0 level)).
  { destruct (Z.ltb_spec level 0); f_equal; lia. }
  intros Ep. unfold traceFull. rewrite El.
  rewrite (bind_Ok _ _ _ _ _ (Convert_Traced _ _ _ Ep)).
  unfold orDefault.
  destruct (TracedError.StatusCode obj =? 0)%Z eqn:Ez.
  - unfold bind at 1.
    rewrite (traceFull_loop_spec p _ _ (TracedError.setStatusCode obj 500))
      by (cbn [heap]; apply lookup_insert_eq).
    cbn [heap next]. rewrite insert_insert_eq. reflexivity.
  - unfold bind at 1. rewrite (traceFull_loop_spec p _ _ obj Ep).
    destruct obj. reflexivity.
Qed.

Lemma traceFull_other (frames : list RawFrame) (level : Z) (s : store)
    (e : error) :
  errorKind e <> 3%nat ->
  traceFull frames (Some e) level s
  = Ok (Some (Traced (next s)),
        mkStore
          (<[next s := TracedError.mk (Some e)
                         (appendFrames None
                            (fullTrace
                               (drop (Z.to_nat (Z.max 0 level)) frames)))
                         500 "" None]> (heap s))
          (S (next s))).
Proof.
  assert (El : Z.to_nat (if (level <? 0)%Z then 0%Z else level)
               = Z.to_nat (Z.max 0 level)).
  { destruct (Z.ltb_spec level 0); f_equal; lia. }
  intros K. unfold traceFull. rewrite El.
  rewrite (bind_Ok _ _ _ _ _ (Convert_other _ _ K)).
  unfold bind at 1.
  rewrite (traceFull_loop_spec (next s) _ _
             (TracedError.mk (Some e) None 500 "" None))
    by (cbn [heap]; apply lookup_insert_eq).
  cbn [heap next]. rewrite insert_insert_eq. reflexivity.
Qed.

(** X8: [traceFull] returns nil for nil.  For a traced error it returns
    the same pointer, and the error then reads its cause, its trace ID and
    its properties as before, its status code as [Convert] leaves it, and
    as its stack the frames it read before followed by those of the call
    stack from the given level on, a negative level counting as 0, up to
    the frame of [CatchPanic], which is left out with all that follows
    it; frames of the runtime and of the package are left out as in
    [traceCaller].  For another error it returns a new traced error
    around it, with these frames as its stack. *)
Theorem traceFull_records_stack (frames : list RawFrame) (level : Z)
    (s : store) :
  traceFull frames None level s = Ok (None, s)
  /\ (forall p obj,
        heap s !! p = Some obj ->
        exists s',
          traceFull frames (Some (Traced p)) level s
          = Ok (Some (Traced p), s')
          /\ heap s' !! p
             = Some (TracedError.mk (TracedError.Err obj)
                       (appendFrames (TracedError.Stack obj)
                          (fullTrace
                             (drop (Z.to_nat (Z.max 0 level)) frames)))
                       (orDefault (TracedError.StatusCode obj))
                       (TracedError.Trace obj)
                       (TracedError.Properties obj)))
  /\ (forall e,
        errorKind e <> 3%nat ->
        traceFull frames (Some e) level s
        = Ok (Some (Traced (next s)),
              mkStore
                (<[next s := TracedError.mk (Some e)
                               (appendFrames None
                                  (fullTrace
                                     (drop (Z.to_nat (Z.max 0 level))
                                        frames)))
                               500 "" None]> (heap s))
                (S (next s)))).
Proof.
  split; [reflexivity|]. split.
  - intros p obj Ep. rewrite (traceFull_Traced frames level s p obj Ep).
    eexists. split; [reflexivity|]. cbn [heap]. apply lookup_insert_eq.
  - intros e K. now apply traceFull_other.
Qed.

Lemma traceFull_records_stack_witness :
  traceFull testCaller (Some (ErrorString 0 "Oops")) 0 (mkStore ∅ 1)
  = Ok (Some (Traced 1),
        mkStore
          (<[1%nat := TracedError.mk (Some (ErrorString 0 "Oops"))
                        (Some [Some (mkStackFrame "errors.TestErrors_New"
                                       "errors_test.go" 44);
                               Some (mkStackFrame "testing.tRunner"
                                       "testing.go" 1792)])
                        500 "" None]> ∅) 2)
  /\ exists s' obj',
       traceFull testCaller (Some (Traced 0)) 0 conflictStore
       = Ok (Some (Traced 0), s')
       /\ heap s' !! 0%nat = Some obj'
       /\ TracedError.Stack obj'
          = Some [Some (mkStackFrame "errors.TestErrors_New"
                          "errors_test.go" 44);
                  Some (mkStackFrame "errors.TestErrors_New"
                          "errors_test.go" 44);
                  Some (mkStackFrame "testing.tRunner" "testing.go" 1792)].
Proof.
  split.
  - destruct (traceFull_records_stack testCaller 0 (mkStore ∅ 1))
      as (_ & _ & Ho).
    rewrite (Ho (ErrorString 0 "Oops")) by discriminate. reflexivity.
  - assert (Ep : heap conflictStore !! 0%nat
                 = Some (default TracedError.zero
                           (heap conflictStore !! 0%nat)))
      by (vm_compute; reflexivity).
    destruct (traceFull_records_stack testCaller 0 conflictStore)
      as (_ & Ht & _).
    destruct (Ht 0%nat _ Ep) as (s' & E & L).
    eexists s', _. split; [exact E|]. split; [exact L|].
    vm_compute. reflexivity.
Defined.

(** ** CatchPanic *)

Lemma upTo_app (P : RawFrame -> bool) (l1 l2 : list RawFrame) :
  forallb P l1 = true ->
  upTo P (l1 ++ l2)%list = (l1 ++ upTo P l2)%list.
Proof.
  induction l1 as [|x l1 IH]; intros Hl; [reflexivity|].
  cbn [forallb] in Hl. apply andb_true_iff in Hl as [Hx Hl].
  cbn [app upTo]. rewrite Hx. now rewrite IH.
Qed.

Lemma fullTrace_inner (inner callers : list RawFrame) :
  forallb beforeCatch inner = true ->
  fullTrace (inner ++ libFrame "CatchPanic" :: callers)%list
  = map frameOf (List.filter (fun fr => negb (skipped fr)) inner).
Proof.
  intros Hi. unfold fullTrace. rewrite upTo_app by assumption.
  cbn [upTo]. change (beforeCatch (libFrame "CatchPanic")) with false.
  cbn iota. now rewrite app_nil_r.
Qed.

(** X9: [CatchPanic] passes on what the function returns when it does
    not panic, and returns nil when the recovered value is nil.  When the
    function panics with an error that is not a traced error, it returns a
    new traced error with that error as cause, status code 500 and, as
    stack, the frames between the panic and [CatchPanic] that are not of
    the runtime or of the package; when it panics with a value that is not
    an error, the cause is the error [fmt.Errorf] makes of the value. *)
Theorem CatchPanic_recovers `{Fmt} (callers : list RawFrame)
    (f : store -> ending * store) (s s' : store) :
  (forall err, f s = (Returns err, s') ->
     CatchPanic callers f s = Ok (err, s'))
  /\ (forall inner, f s = (Panics ANil inner, s') ->
        CatchPanic callers f s = Ok (None, s'))
  /\ (forall e inner,
        f s = (Panics (AError e) inner, s') ->
        errorKind e <> 3%nat ->
        forallb beforeCatch inner = true ->
        CatchPanic callers f s
        = Ok (Some (Traced (next s')),
              mkStore
                (<[next s' := TracedError.mk (Some e)
                                (appendFrames None
                                   (map frameOf
                                      (List.filter
                                         (fun fr => negb (skipped fr))
                                         inner)))
                                500 "" None]> (heap s'))
                (S (next s'))))
  /\ (forall r inner,
        f s = (Panics r inner, s') ->
        r <> ANil ->
        (forall e, r <> AError e) ->
        forallb beforeCatch inner = true ->
        exists e,
          fmt_Errorf "%v" [r] s' = Ok (e, mkStore (heap s') (S (next s')))
          /\ error_Error 1 (heap s') e = Done (Sprintf (heap s') "%v" [r])
          /\ CatchPanic callers f s
             = Ok (Some (Traced (S (next s'))),
                   mkStore
                     (<[S (next s') := TracedError.mk (Some e)
                                        (appendFrames None
                                           (map frameOf
                                              (List.filter
                                                 (fun fr => negb (skipped fr))
                                                 inner)))
                                        500 "" None]> (heap s'))
                     (S (S (next s'))))).
Proof.
  split; [|split; [|split]].
  - intros err E. unfold CatchPanic. now rewrite E.
  - intros inner E. unfold CatchPanic. now rewrite E.
  - intros e inner E K Hi. unfold CatchPanic. rewrite E.
    unfold bind at 1, ret at 1.
    assert (Ho := traceFull_other
                    (libFrame "CatchPanic.func1"
                       :: inner ++ libFrame "CatchPanic" :: callers)%list
                    1 s' e K).
    change (Z.to_nat (Z.max 0 1)) with 1%nat in Ho.
    cbn [drop] in Ho. rewrite drop_0, fullTrace_inner in Ho by assumption.
    exact Ho.
  - intros r inner E Nn Ne Hi.
    destruct (fmt_Errorf_Ok "%v" [r] s') as [e Ee]. exists e.
    split; [exact Ee|].
    assert (Hk : errorKind e <> 3%nat
                 /\ error_Error 1 (heap s') e
                    = Done (Sprintf (heap s') "%v" [r])).
    { revert Ee. unfold fmt_Errorf, bind, alloc, ret.
      destruct (wrapped "%v" [r]); intros [= <-]; split;
        (discriminate || reflexivity). }
    destruct Hk as [K Em]. split; [exact Em|].
    unfold CatchPanic. rewrite E.
    assert (Ho := traceFull_other
                    (libFrame "CatchPanic.func1"
                       :: inner ++ libFrame "CatchPanic" :: callers)%list
                    1 (mkStore (heap s') (S (next s'))) e K).
    change (Z.to_nat (Z.max 0 1)) with 1%nat in Ho.
    cbn [drop heap next] in Ho.
    rewrite drop_0, fullTrace_inner in Ho by assumption.
    destruct r; try (now elim Nn); try (now elim (Ne e0));
      unfold bind at 1; rewrite Ee; exact Ho.
Qed.

Lemma CatchPanic_recovers_witness :
  CatchPanic (H := plainFmt) testCaller dividesByZero (mkStore ∅ 1)
  = Ok (Some (Traced 1),
        mkStore
          (<[1%nat := TracedError.mk
                        (Some (ErrorString 0
                                 "runtime error: integer divide by zero"))
                        (Some [Some (mkStackFrame
                                       "errors.TestErrors_CatchPanic.func4"
                                       "errors_test.go" 350)])
                        500 "" None]> ∅) 2).
Proof.
  destruct (CatchPanic_recovers (H := plainFmt) testCaller dividesByZero
              (mkStore ∅ 1) (mkStore ∅ 1)) as (_ & _ & He & _).
  rewrite (He (ErrorString 0 "runtime error: integer divide by zero")
             panicFrames eq_refl); [reflexivity | discriminate | reflexivity].
Defined.

(** ** Convert twice *)

(** X10: [Convert] of what [Convert] returned returns it again and
    changes nothing more, and [StatusCode] then reads the stored status
    code without writing; [StatusCode] of an error that is not a traced
    error is 500. *)
Theorem Convert_idempotent (e : error) (s : store) :
  joinable (heap s) (Some e) = true ->
  exists p s1 obj,
    Convert (Some e) s = Ok (Some p, s1)
    /\ heap s1 !! p = Some obj
    /\ Convert (Some (Traced p)) s1 = Ok (Some p, s1)
    /\ StatusCode (Some (Traced p)) s1
       = Ok (TracedError.StatusCode obj, s1)
    /\ (errorKind e <> 3%nat ->
        exists s2, StatusCode (Some e) s = Ok (500%Z, s2)).
Proof.
  intros Hj.
  assert (Hagain : forall p s1 obj,
            heap s1 !! p = Some obj ->
            TracedError.StatusCode obj <> 0%Z ->
            Convert (Some (Traced p)) s1 = Ok (Some p, s1)
            /\ StatusCode (Some (Traced p)) s1
               = Ok (TracedError.StatusCode obj, s1)).
  { intros p s1 obj Ep Hz. apply Z.eqb_neq in Hz.
    assert (EC := Convert_Traced _ _ _ Ep). rewrite Hz in EC.
    split; [exact EC|]. unfold StatusCode.
    rewrite (bind_Ok _ _ _ _ _ EC). unfold bind, load. now rewrite Ep. }
  assert (Hother : forall e', errorKind e' <> 3%nat ->
            exists p s1 obj,
              Convert (Some e') s = Ok (Some p, s1)
              /\ heap s1 !! p = Some obj
              /\ Convert (Some (Traced p)) s1 = Ok (Some p, s1)
              /\ StatusCode (Some (Traced p)) s1
                 = Ok (TracedError.StatusCode obj, s1)
              /\ (errorKind e' <> 3%nat ->
                  exists s2, StatusCode (Some e') s = Ok (500%Z, s2))).
  { intros e' K. eexists _, _, _.
    split; [exact (Convert_other _ _ K)|].
    split; [cbn [heap]; apply lookup_insert_eq|].
    split; [|split].
    - eapply Hagain; [cbn [heap]; apply lookup_insert_eq | discriminate].
    - eapply Hagain; [cbn [heap]; apply lookup_insert_eq | discriminate].
    - intros _. eexists. unfold StatusCode. destruct e'; try (now elim K);
        rewrite (bind_Ok _ _ _ _ _ (Convert_other _ _ K));
        unfold bind, load; cbn [heap]; rewrite lookup_insert_eq;
        reflexivity. }
  destruct e as [a m|a m es|a es|p]; try (apply Hother; discriminate).
  cbn [joinable] in Hj. destruct (heap s !! p) as [obj|] eqn:Ep;
    [|discriminate Hj].
  rewrite (Convert_Traced _ _ _ Ep).
  destruct (TracedError.StatusCode obj =? 0)%Z eqn:Ez.
  - eexists _, _, _. split; [reflexivity|].
    split; [cbn [heap]; apply lookup_insert_eq|].
    split; [|split].
    + eapply Hagain; [cbn [heap]; apply lookup_insert_eq | discriminate].
    + eapply Hagain; [cbn [heap]; apply lookup_insert_eq | discriminate].
    + intros K. now elim K.
  - apply Z.eqb_neq in Ez. exists p, s, obj. split; [reflexivity|].
    split; [exact Ep|]. split; [|split].
    + now apply Hagain with (obj := obj).
    + now apply Hagain.
    + intros K. now elim K.
Qed.

Lemma Convert_idempotent_witness :
  exists p s1 obj,
    Convert (Some (Traced 0)) unsetStore = Ok (Some p, s1)
    /\ heap s1 !! p = Some obj
    /\ Convert (Some (Traced p)) s1 = Ok (Some p, s1).
Proof.
  destruct (Convert_idempotent (Traced 0) unsetStore eq_refl)
    as (p & s1 & obj & E & L & E2 & _).
  exists p, s1, obj. split; [exact E|]. split; [exact L | exact E2].
Defined.

(** ** The message New gives when the pattern is empty *)

Section NewMessage.
Context `{Fmt}.

(** Without a status code or an error among the arguments the loop
    leaves the cause unset. *)
Lemma New_loop_no_cause (n : nat) :
  forall (args : list any) (err err' : TracedError.t) (s s' : store),
    (length args <= n)%nat ->
    existsb isCause (classify args) = false ->
    existsb isStatus (classify args) = false ->
    TracedError.Err err = None ->
    New_loop args err s = Ok (err', s') ->
    TracedError.Err err' = None.
Proof.
  induction n as [|n IH]; intros args err err' s s' Hn Hc Hs Ex E.
  { destruct args; [|simpl in Hn; lia]. injection E as <- _. exact Ex. }
  destruct args as [|k rest]; [injection E as <- _; exact Ex|].
  simpl in Hn. assert (Hrest : (length rest <= n)%nat) by lia.
  set (err0 := match TracedError.Properties err with
               | None => TracedError.setProperties err (Some ∅)
               | Some _ => err
               end) in *.
  assert (Ex0 : TracedError.Err err0 = None).
  { unfold err0. now destruct (TracedError.Properties err). }
  destruct k as [|k|k|k|b|z|l|j|tag]; cbn [classify] in Hc, Hs;
    try (cbn [existsb isCause isStatus orb] in Hc, Hs;
         refine (IH rest _ err' s s' Hrest Hc Hs _ E); exact Ex0).
  - discriminate Hs.
  - cbn [New_loop] in E. fold err0 in E.
    destruct ((String.length k =? 32)%nat && isHex k).
    + cbn [existsb isCause isStatus orb] in Hc, Hs.
      refine (IH rest _ err' s s' Hrest Hc Hs _ E). exact Ex0.
    + destruct rest as [|v rest'].
      * injection E as <- _. exact Ex0.
      * cbn [existsb isCause isStatus orb] in Hc, Hs. simpl in Hrest.
        refine (IH rest' _ err' s s' _ Hc Hs _ E); [lia | exact Ex0].
  - discriminate Hc.
Qed.

(** The first status code, with no error before or after it, gives the
    cause when there is none yet. *)
Lemma New_loop_status_text (n : nat) :
  forall (args : list any) (err err' : TracedError.t) (s s' : store)
         (pre post : list argClass) (k : Z),
    (length args <= n)%nat ->
    classify args = (pre ++ CStatus k :: post)%list ->
    existsb isCause pre = false ->
    existsb isStatus pre = false ->
    existsb isCause post = false ->
    TracedError.Err err = None ->
    New_loop args err s = Ok (err', s') ->
    plainMessage (TracedError.Err err') (statusText k).
Proof.
  induction n as [|n IH];
    intros args err err' s s' pre post k Hn Ecs Hc Hs Hp Ex E.
  { destruct args; [|simpl in Hn; lia]. now destruct pre. }
  destruct args as [|a rest]; [now destruct pre|].
  simpl in Hn. assert (Hrest : (length rest <= n)%nat) by lia.
  set (err0 := match TracedError.Properties err with
               | None => TracedError.setProperties err (Some ∅)
               | Some _ => err
               end) in *.
  assert (Ex0 : TracedError.Err err0 = None).
  { unfold err0. now destruct (TracedError.Properties err). }
  destruct pre as [|c pre].
  - (* the status code is the first argument looked at *)
    cbn [app] in Ecs.
    destruct a as [|z|t|x|b|z|l|j|tag]; cbn [classify] in Ecs;
      try discriminate Ecs.
    + injection Ecs as -> Ecs. cbn [New_loop] in E. fold err0 in E.
      cbn [TracedError.Err TracedError.setStatusCode] in E.
      rewrite Ex0 in E.
      unfold bind at 1, stderrors_New, bind at 1, alloc, ret in E.
      exists (next s).
      eapply (New_loop_keeps_cause _ rest _ err' _ s' _ Hrest); [| |exact E].
      * now rewrite Ecs.
      * reflexivity.
    + destruct ((String.length t =? 32)%nat && isHex t);
        [discriminate Ecs|]. destruct rest; discriminate Ecs.
  - (* an argument before it *)
    cbn [app existsb] in Ecs, Hc, Hs.
    apply orb_false_iff in Hc as [Hc0 Hc]. apply orb_false_iff in Hs as [Hs0 Hs].
    destruct a as [|z|t|x|b|z|l|j|tag]; cbn [classify] in Ecs.
    1,5-9: injection Ecs as Ec0 Ecs; subst c;
      refine (IH rest _ err' s s' pre post k Hrest Ecs Hc Hs Hp _ E);
      exact Ex0.
    + injection Ecs as Ec0 Ecs; subst c. discriminate Hs0.
    + cbn [New_loop] in E. fold err0 in E.
      destruct ((String.length t =? 32)%nat && isHex t).
      * injection Ecs as Ec0 Ecs; subst c.
        refine (IH rest _ err' s s' pre post k Hrest Ecs Hc Hs Hp _ E).
        exact Ex0.
      * destruct rest as [|v rest'].
        -- injection Ecs as _ Ecs. now destruct pre.
        -- injection Ecs as Ec0 Ecs; subst c. simpl in Hrest.
           refine (IH rest' _ err' s s' pre post k _ Ecs Hc Hs Hp _ E);
             [lia | exact Ex0].
    + injection Ecs as Ec0 Ecs; subst c. discriminate Hc0.
Qed.

End NewMessage.

(** X11: with an empty pattern, [New] gives the error the message
    ["unspecified error"] when the loop finds neither a status code nor
    an error, and the text of the status code (the empty string for a
    code that is not in the table) when the loop finds a status code and
    no error. *)
Theorem New_default_message `{Fmt} (callers : list RawFrame)
    (args : list any) (s : store) :
  heap s !! next s = None ->
  existsb isCause (classify args) = false ->
  exists obj s' msg,
    New callers "" args s = Ok (Some (Traced (next s)), s')
    /\ heap s' !! next s = Some obj
    /\ plainMessage (TracedError.Err obj) msg
    /\ error_Error 2 (heap s') (Traced (next s)) = Done msg
    /\ (existsb isStatus (classify args) = false ->
        msg = "unspecified error")
    /\ (forall pre k post,
          classify args = (pre ++ CStatus k :: post)%list ->
          existsb isStatus pre = false ->
          msg = statusText k).
Proof.
  intros Hf Hc.
  assert (Ep : pctArgs "" args = 0%nat).
  { unfold pctArgs.
    change (strings_Count "" "%") with 0%nat.
    change (strings_Count "" "%%") with 0%nat. lia. }
  assert (Hq : causesLoaded (heap s) (scanned "" args)).
  { intros q Hin. exfalso. unfold scanned in Hin.
    rewrite Ep, drop_0 in Hin.
    apply list_elem_of_In in Hin.
    assert (Hex : existsb isCause (classify args) = true)
      by (apply existsb_exists; eexists; split; [exact Hin | reflexivity]).
    congruence. }
  destruct (New_run callers "" args s Hf Hq)
    as (x0 & s2 & err' & s3 & y & obj & nx & Hx & Hh2 & EL & Hy & E & Eo).
  destruct (Hx eq_refl) as [-> _].
  rewrite Ep, drop_0 in EL.
  assert (Hmsg : exists msg,
             plainMessage (Some y) msg
             /\ (existsb isStatus (classify args) = false ->
                 msg = "unspecified error")
             /\ (forall pre k post,
                   classify args = (pre ++ CStatus k :: post)%list ->
                   existsb isStatus pre = false ->
                   msg = statusText k)).
  { destruct (existsb isStatus (classify args)) eqn:Es.
    - (* the first status code *)
      assert (Hsplit : forall cs,
                 existsb isStatus cs = true ->
                 exists pre k post,
                   cs = (pre ++ CStatus k :: post)%list
                   /\ existsb isStatus pre = false).
      { induction cs as [|c cs IH]; intros Hs; [discriminate Hs|].
        destruct (isStatus c) eqn:Ec.
        - destruct c as [k| | | |]; try discriminate Ec.
          exists [], k, cs. split; reflexivity.
        - cbn [existsb] in Hs. rewrite Ec in Hs.
          destruct (IH Hs) as (pre & k & post & -> & Hp).
          exists (c :: pre), k, post. split; [reflexivity|].
          cbn [existsb]. now rewrite Ec. }
      specialize (Hsplit _ Es).
      destruct Hsplit as (pre & k & post & Ecs & Hp).
      assert (Hcs : existsb isCause pre = false
                    /\ existsb isCause post = false).
      { rewrite Ecs, existsb_app in Hc. cbn [existsb isCause orb] in Hc.
        now apply orb_false_iff in Hc. }
      destruct Hcs as [Hc1 Hc2].
      assert (Hm := New_loop_status_text _ args
                      (TracedError.setErr TracedError.zero None)
                      err' s2 s3 pre post k
                      (le_n _) Ecs Hc1 Hp Hc2 eq_refl EL).
      exists (statusText k).
      destruct Hy as [Hy|[Hy _]]; [|destruct Hm as [p Hm]; congruence].
      split; [now rewrite <- Hy|]. split; [discriminate|].
      intros pre' k' post' Ecs' Hp'. rewrite Ecs in Ecs'.
      clear -Ecs' Hp Hp'. revert pre' Ecs' Hp'.
      induction pre as [|c pre IH]; intros [|c' pre'] Ecs' Hp';
        cbn [app] in Ecs'.
      + now injection Ecs' as ->.
      + injection Ecs' as <- _. discriminate Hp'.
      + injection Ecs' as -> _. discriminate Hp.
      + injection Ecs' as <- Ecs'. cbn [existsb] in Hp, Hp'.
        apply orb_false_iff in Hp as [_ Hp].
        apply orb_false_iff in Hp' as [_ Hp']. now apply IH with pre'.
    - assert (Hn := New_loop_no_cause _ args
                      (TracedError.setErr TracedError.zero None)
                      err' s2 s3 (le_n _) Hc Es
                      eq_refl EL).
      exists "unspecified error".
      destruct Hy as [Hy|[_ ->]]; [congruence|].
      split; [eexists; reflexivity|]. split; [reflexivity|].
      intros pre k post Ecs Hp. exfalso.
      rewrite Ecs, existsb_app in Es. cbn [existsb isStatus] in Es.
      rewrite orb_true_r in Es. discriminate Es. }
  destruct Hmsg as (msg & Hpm & H1 & H2).
  exists obj, (mkStore (<[next s := obj]> (heap s)) nx), msg.
  split; [exact E|]. cbn [heap]. split; [apply lookup_insert_eq|].
  split; [now rewrite Eo|]. split; [|split; assumption].
  cbn [error_Error]. rewrite lookup_insert_eq, Eo.
  destruct Hpm as [p [= ->]]. reflexivity.
Qed.

Lemma New_default_message_witness :
  exists obj s',
    New (H := plainFmt) testCaller "" [AInt 400] emptyStore
    = Ok (Some (Traced 0), s')
    /\ heap s' !! 0%nat = Some obj
    /\ error_Error 2 (heap s') (Traced 0) = Done "bad request".
Proof.
  destruct (New_default_message (H := plainFmt) testCaller [AInt 400]
              emptyStore eq_refl eq_refl)
    as (obj & s' & msg & E & L & _ & Em & _ & Hk).
  exists obj, s'. split; [exact E|]. split; [exact L|].
  transitivity (Done msg : outcome string); [exact Em|].
  f_equal. apply (Hk [] 400%Z []); reflexivity.
Defined.

(** ** The stack and the properties through JSON *)

Section RoundTripMore.
Context `{Json}.

Lemma decodeFrame_encodeFrame_id (f : option StackFrame) :
  frameFits f = true -> frameStable f = true ->
  decodeFrame (encodeFrame f) = Some f.
Proof.
  destruct f as [[fn fl ln]|]; [|reflexivity].
  cbn [frameFits frameStable Function File Line]. intros Hf Hs.
  apply andb_true_iff in Hs as [H1 H2].
  apply String.eqb_eq in H1, H2.
  cbn [encodeFrame decodeFrame Function File Line].
  unfold findField. cbn [decodeObject List.find String.eqb Ascii.eqb Bool.eqb].
  unfold findField. cbn [List.find String.eqb Ascii.eqb Bool.eqb].
  unfold setFrameField.
  cbn [String.eqb Ascii.eqb Bool.eqb decodeString decodeInt mbind
         option_bind Function File Line].
  rewrite Hf. cbn [mbind option_bind]. now rewrite H1, H2.
Qed.

Lemma decodeStack_encode_id (old : option (list (option StackFrame)))
    (st : list (option StackFrame)) :
  forallb frameFits st = true ->
  forallb frameStable st = true ->
  decodeStack old (JArray (map encodeFrame st)) = Some (Some st).
Proof.
  intros Hf Hs. cbn [decodeStack].
  replace (mapM decodeFrame (map encodeFrame st)) with (Some st);
    [reflexivity|].
  symmetry. apply mapM_Some_2.
  induction st as [|f st IH]; [constructor|].
  cbn [forallb] in Hf, Hs.
  apply andb_true_iff in Hf as [Hf1 Hf]. apply andb_true_iff in Hs as [Hs1 Hs].
  constructor; [now apply decodeFrame_encodeFrame_id | now apply IH].
Qed.

(** The stack the decoder leaves, for members as [MarshalJSON] writes
    them. *)
Lemma decodeObject_stack (msg tr : string) (sc : Z)
    (st : list (option StackFrame)) (kv : list (string * json)) :
  fitsInt sc = true ->
  forallb frameFits st = true ->
  forallb frameStable st = true ->
  forall a a',
    (forall k j, (k, j) ∈ kv ->
       findField streamedFields k = None
       \/ canonical msg tr sc st k j) ->
    decodeObject streamedFields setStreamedField kv a = Some a' ->
    StreamedError.Stack a'
    = (if hasKey "stack" kv then Some st else StreamedError.Stack a).
Proof.
  intros Hsc Hst Hss. induction kv as [|[k j] kv IH]; intros a a' Hall E.
  { injection E as <-. reflexivity. }
  assert (Hrest : forall k' j', (k', j') ∈ kv ->
            findField streamedFields k' = None
            \/ canonical msg tr sc st k' j').
  { intros k' j' Hin. apply Hall. now apply list_elem_of_further. }
  rewrite hasKey_cons. cbn [decodeObject] in E.
  destruct (Hall k j (list_elem_of_here _ _)) as [Hskip|Hcan].
  - rewrite Hskip in E. rewrite (IH a a' Hrest E).
    destruct (String.eqb_spec "stack" k) as [<-|];
      [now rewrite findField_exact in Hskip | reflexivity].
  - destruct Hcan as [[-> ->]|[[-> ->]|[[-> ->]|[-> ->]]]];
      rewrite findField_exact in E by reflexivity;
      unfold setStreamedField in E;
      cbn [String.eqb Ascii.eqb Bool.eqb orb] in E |- *;
      cbn [decodeString decodeInt mbind option_bind] in E;
      rewrite ?Hsc in E; cbn [mbind option_bind] in E.
    1-3: now rewrite (IH _ a' Hrest E).
    rewrite (decodeStack_encode_id _ st Hst Hss) in E.
    cbn [mbind option_bind] in E. rewrite (IH _ a' Hrest E).
    now destruct (hasKey "stack" kv).
Qed.

(** What the object [MarshalJSON] writes is made of. *)
Lemma MarshalJSON_members (fuel : nat) (h : gmap addr TracedError.t)
    (p : addr) (e : TracedError.t) (x : error) (msg : string) :
  h !! p = Some e ->
  TracedError.Err e = Some x ->
  error_Error fuel h x = Done msg ->
  encodable h e = true ->
  noFieldClash e = true ->
  coerceUTF8 msg = msg ->
  coerceUTF8 (TracedError.Trace e) = TracedError.Trace e ->
  exists kv,
    MarshalJSON fuel h p = Done (JObject kv)
    /\ (forall k' j,
          (k', j) ∈ kv <->
          exists k v,
            marshalMap e msg !! k = Some v /\ k' = coerceUTF8 k
            /\ json_Marshal_any h v = Some j)
    /\ (forall k j, (k, j) ∈ kv ->
          findField streamedFields k = None
          \/ canonical msg (TracedError.Trace e) (TracedError.StatusCode e)
               (default [] (TracedError.Stack e)) k j)
    /\ hasKey "stack" kv
       = match TracedError.Stack e with Some _ => true | None => false end.
Proof.
  intros Ep Ex Em Henc Hclash Hmsg Htr.
  destruct (json_Marshal_map_members h (marshalMap e msg))
    as (kv & Ekv & Hkv).
  { intros k v. now apply encodable_entry. }
  exists kv. rewrite (MarshalJSON_unfold _ _ _ _ _ _ Ep Ex Em), Ekv.
  split; [reflexivity|]. split; [exact Hkv|].
  assert (Hskip : forall k0 v,
            reservedName k0 = false -> bag e !! k0 = Some v ->
            findField streamedFields (coerceUTF8 k0) = None).
  { intros k0 v Hk0 Eb. unfold noFieldClash in Hclash.
    rewrite forallb_forall in Hclash.
    apply elem_of_map_to_list, list_elem_of_In, Hclash in Eb.
    cbn [fst] in Eb. rewrite Hk0 in Eb. cbn [orb] in Eb.
    now destruct (findField streamedFields (coerceUTF8 k0)). }
  split.
  - intros k j Hin. apply Hkv in Hin as (k0 & v & Em0 & -> & Ej).
    destruct (marshalMap_entry _ _ _ _ Em0)
      as [[-> ->]|[(-> & -> & _)|[(-> & -> & _)|[(-> & st & Es & ->)|[Hb Eb]]]]].
    + right. left. rewrite coerce_reserved by reflexivity.
      cbn [json_Marshal_any] in Ej. rewrite Hmsg in Ej.
      now injection Ej as <-.
    + right. right. left. rewrite coerce_reserved by reflexivity.
      cbn [json_Marshal_any] in Ej. now injection Ej as <-.
    + right. right. right. left. rewrite coerce_reserved by reflexivity.
      cbn [json_Marshal_any] in Ej. rewrite Htr in Ej.
      now injection Ej as <-.
    + right. right. right. right. rewrite coerce_reserved by reflexivity.
      cbn [json_Marshal_any] in Ej. rewrite Es. cbn [default].
      now injection Ej as <-.
    + left. now apply (Hskip k0 v).
  - destruct (TracedError.Stack e) as [st|] eqn:Es.
    + apply hasKey_true with (j := JArray (map encodeFrame st)).
      apply Hkv. exists "stack", (AStack st).
      rewrite marshalMap_lookup. cbn. rewrite Es.
      rewrite coerce_reserved by reflexivity. auto.
    + apply hasKey_false. intros j Hin.
      apply Hkv in Hin as (k0 & v & Em0 & Ek & Ej).
      destruct (marshalMap_entry _ _ _ _ Em0)
        as [[-> ->]|[(-> & -> & _)|[(-> & -> & _)|[(-> & st & Es' & ->)|[Hb Eb]]]]];
        rewrite ?coerce_reserved in Ek by reflexivity;
        try discriminate Ek; try congruence.
      assert (Hf := Hskip k0 v Hb Eb). rewrite <- Ek in Hf.
      now rewrite findField_exact in Hf.
Qed.

(** [UnmarshalJSON] on a JSON object that decodes into [j], with the
    property bag it leaves. *)
Lemma UnmarshalJSON_object_bag (q : addr) (kv : list (string * json))
    (s : store) (objq : TracedError.t) (j : StreamedError.t) :
  heap s !! q = Some objq ->
  json_Unmarshal_StreamedError (JObject kv) = Some j ->
  exists props,
    UnmarshalJSON q (JObject kv) s
    = Ok (true,
          mkStore
            (<[q := TracedError.mk
                      (Some (ErrorString (next s) (StreamedError.Error j)))
                      (StreamedError.Stack j) (StreamedError.StatusCode j)
                      (StreamedError.Trace j) props]> (heap s))
            (S (next s)))
    /\ forall k,
         default ∅ props !! k
         = if reservedName k then None else decodedMap kv !! k.
Proof.
  intros Eq Ej. unfold UnmarshalJSON. rewrite Ej.
  rewrite (bind_Ok _ _ _ _ _ (load_Some _ _ _ Eq)).
  cbv beta iota delta [bind stderrors_New alloc ret storeAt
                         json_Unmarshal_map].
  cbn [heap next fmap option_fmap option_map].
  fold (decodedMap kv).
  set (m4 := delete "trace"
               (delete "stack"
                  (delete "statusCode" (delete "error" (decodedMap kv))))).
  exists (if (0 <? size m4)%nat then Some m4 else None).
  split.
  - unfold TracedError.setProperties. cbn.
    rewrite insert_insert_eq. reflexivity.
  - intros k.
    assert (E4 : m4 !! k
                 = if reservedName k then None else decodedMap kv !! k).
    { destruct (reservedName k) eqn:Er.
      - now apply deleted_reserved.
      - unfold m4. rewrite !lookup_delete.
        unfold reservedName, streamedFields in Er. cbn [existsb] in Er.
        repeat case_decide; subst; try discriminate Er; reflexivity. }
    destruct (0 <? size m4)%nat eqn:Es; cbn [default]; [exact E4|].
    rewrite <- E4. apply Nat.ltb_ge in Es.
    assert (m4 = ∅) as -> by (apply map_size_empty_iff; lia).
    reflexivity.
Qed.

End RoundTripMore.

Section RoundTripFields.
Context `{Json}.

Lemma decodedMap_snoc (kv : list (string * json)) (k : string) (j : json) :
  decodedMap (kv ++ [(k, j)])%list = <[k := decodeAny j]> (decodedMap kv).
Proof. unfold decodedMap. now rewrite fold_left_app. Qed.

Lemma decodedMap_unique (kv : list (string * json)) (k : string) (j : json) :
  (k, j) ∈ kv ->
  (forall j', (k, j') ∈ kv -> j' = j) ->
  decodedMap kv !! k = Some (decodeAny j).
Proof.
  induction kv as [|[k1 j1] kv IH] using rev_ind; intros Hin Huniq.
  { now apply elem_of_nil in Hin. }
  rewrite decodedMap_snoc.
  destruct (decide (k1 = k)) as [->|Hne].
  - rewrite lookup_insert_eq.
    rewrite (Huniq j1); [reflexivity|].
    apply elem_of_app. right. apply list_elem_of_here.
  - rewrite lookup_insert_ne by exact Hne.
    apply elem_of_app in Hin as [Hin|Hin].
    + apply IH; [exact Hin|]. intros j' Hj'. apply Huniq.
      apply elem_of_app. now left.
    + apply list_elem_of_singleton in Hin. congruence.
Qed.

Lemma decodedMap_absent (kv : list (string * json)) (k : string) :
  (forall j, (k, j) ∉ kv) -> decodedMap kv !! k = None.
Proof.
  induction kv as [|[k1 j1] kv IH] using rev_ind; intros Hno.
  { apply lookup_empty. }
  rewrite decodedMap_snoc.
  destruct (decide (k1 = k)) as [->|Hne].
  - exfalso. apply (Hno j1). apply elem_of_app. right.
    apply list_elem_of_here.
  - rewrite lookup_insert_ne by exact Hne. apply IH.
    intros j Hin. apply (Hno j). apply elem_of_app. now left.
Qed.


End RoundTripFields.



(** ** UnmarshalJSON on any input *)

Section UnmarshalAny.
Context `{Json}.

Lemma decodeObject_fails {A} (names : list string)
    (set : A -> string -> json -> option A) (k n : string) (v : json)
    (kv : list (string * json)) :
  (k, v) ∈ kv ->
  findField names k = Some n ->
  (forall a, set a n v = None) ->
  forall a, decodeObject names set kv a = None.
Proof.
  intros Hin Hf Hset. induction kv as [|[k1 v1] kv IH]; intros a.
  { now apply elem_of_nil in Hin. }
  cbn [decodeObject]. apply elem_of_cons in Hin as [E|Hin].
  - injection E as <- <-. now rewrite Hf, Hset.
  - destruct (findField names k1) as [n1|]; [|now apply IH].
    destruct (set a n1 v1); [now apply IH | reflexivity].
Qed.

Lemma wrongKind_fails (n : string) (v : json) (j : StreamedError.t) :
  wrongKind n v = true -> setStreamedField j n v = None.
Proof.
  unfold setStreamedField, wrongKind.
  destruct (String.eqb n "error"), (String.eqb n "statusCode"),
    (String.eqb n "trace"), v as [| b | z | t | l | kv];
    cbn [orb andb negb decodeString decodeInt decodeStack mbind
           option_bind];
    intros Hw; try discriminate Hw; try reflexivity;
    apply negb_true_iff in Hw; now rewrite Hw.
Qed.

(** X14: when the JSON object has a member that is decoded into a field
    of [StreamedError] and whose value is not of the kind of that field,
    [UnmarshalJSON] returns an error and leaves the store as it was: no
    field of the receiver is assigned, and no error is made. *)
Theorem UnmarshalJSON_failure_keeps_receiver (q : addr)
    (kv : list (string * json)) (k n : string) (v : json) (s : store) :
  (k, v) ∈ kv ->
  findField streamedFields k = Some n ->
  wrongKind n v = true ->
  UnmarshalJSON q (JObject kv) s = Ok (false, s).
Proof.
  intros Hin Hf Hw. unfold UnmarshalJSON.
  cbn [json_Unmarshal_StreamedError].
  rewrite (decodeObject_fails streamedFields setStreamedField k n v kv
             Hin Hf (fun a => wrongKind_fails n v a Hw)).
  reflexivity.
Qed.

(** X15: when [UnmarshalJSON] returns without an error, the store it
    leaves does not depend on what the receiver held: every field of the
    receiver is assigned. *)
Theorem UnmarshalJSON_overwrites (q : addr) (data : json) (s s' : store)
    (objq objq' : TracedError.t) :
  heap s !! q = Some objq ->
  UnmarshalJSON q data s = Ok (true, s') ->
  UnmarshalJSON q data (mkStore (<[q := objq']> (heap s)) (next s))
  = Ok (true, s').
Proof.
  intros Eq. unfold UnmarshalJSON.
  destruct (json_Unmarshal_StreamedError data) as [j|];
    [|intros E; discriminate E].
  rewrite (bind_Ok _ _ _ _ _ (load_Some _ _ _ Eq)).
  assert (Eq' : heap (mkStore (<[q := objq']> (heap s)) (next s)) !! q
                = Some objq')
    by (cbn [heap]; apply lookup_insert_eq).
  rewrite (bind_Ok _ _ _ _ _ (load_Some _ _ _ Eq')).
  cbv beta iota delta [bind stderrors_New alloc ret storeAt].
  cbn [heap next].
  destruct (json_Unmarshal_map data) as [m|]; [|intros E; discriminate E].
  unfold TracedError.setProperties.
  cbn [TracedError.Err TracedError.Stack TracedError.StatusCode
         TracedError.Trace heap next].
  rewrite !insert_insert_eq. intros E. exact E.
Qed.

End UnmarshalAny.

Lemma UnmarshalJSON_failure_keeps_receiver_witness :
  UnmarshalJSON (H := plainJson) 0%nat
    (JObject [("error", JString "x"); ("StatusCode", JString "400")])
    unsetStore
  = Ok (false, unsetStore).
Proof.
  apply (UnmarshalJSON_failure_keeps_receiver (H := plainJson) 0%nat
           [("error", JString "x"); ("StatusCode", JString "400")]
           "StatusCode" "statusCode" (JString "400") unsetStore).
  - apply list_elem_of_further, list_elem_of_here.
  - vm_compute. reflexivity.
  - reflexivity.
Defined.

Lemma UnmarshalJSON_overwrites_witness :
  exists s',
    UnmarshalJSON (H := plainJson) 0%nat
      (JObject [("error", JString "x")]) unsetStore = Ok (true, s')
    /\ UnmarshalJSON (H := plainJson) 0%nat
         (JObject [("error", JString "x")])
         (mkStore (<[0%nat := roundTripObject]> (heap unsetStore))
            (next unsetStore))
       = Ok (true, s').
Proof.
  assert (E : exists s',
            UnmarshalJSON (H := plainJson) 0%nat
              (JObject [("error", JString "x")]) unsetStore = Ok (true, s')).
  { destruct (UnmarshalJSON_object_bag (H := plainJson) 0%nat
                [("error", JString "x")] unsetStore unsetObject
                (StreamedError.mk "x" 0 "" None) eq_refl eq_refl)
      as (props & EU & _).
    eexists. exact EU. }
  destruct E as (s' & E). exists s'. split; [exact E|].
  exact (UnmarshalJSON_overwrites (H := plainJson) 0%nat _ unsetStore s'
           unsetObject roundTripObject eq_refl E).
Defined.

(** ** String *)

Lemma string_app_assoc (a b c : string) : (a ++ b) ++ c = a ++ (b ++ c).
Proof.
  induction a as [|ch a IH]; [reflexivity|].
  change (String ch ((a ++ b) ++ c) = String ch (a ++ (b ++ c))).
  now rewrite IH.
Qed.

Lemma string_app_nil_r (a : string) : a ++ "" = a.
Proof.
  induction a as [|ch a IH]; [reflexivity|].
  change (String ch (a ++ "") = String ch a). now rewrite IH.
Qed.

Section PrintingFacts.
Context `{Fmt}.

Lemma writeProperties_extends (h : gmap addr TracedError.t)
    (order : list (string * any)) (b : string) :
  exists rest, writeProperties h order b = b ++ rest.
Proof.
  unfold writeProperties. revert b.
  induction order as [|kv order IH]; intros b.
  - exists "". cbn [fold_left]. now rewrite string_app_nil_r.
  - cbn [fold_left]. destruct (IH (b ++ newline ++ kv.1 ++ "="
                                     ++ Sprintf h "%v" [kv.2]))
      as [rest E].
    rewrite E, string_app_assoc. eauto.
Qed.

Lemma writeFrames_None (h : gmap addr TracedError.t)
    (st : list (option StackFrame)) :
  fold_left
    (fun ob f =>
       b ← ob; t ← StackFrame_String h f; Some (b ++ newline ++ t))
    st None = None.
Proof. induction st as [|f st IH]; [reflexivity | exact IH]. Qed.

Lemma writeFrames_nil_frame (h : gmap addr TracedError.t)
    (st : list (option StackFrame)) (b : string) :
  None ∈ st -> writeFrames h st b = None.
Proof.
  unfold writeFrames. revert b. induction st as [|f st IH]; intros b Hin.
  { now apply elem_of_nil in Hin. }
  cbn [fold_left mbind option_bind].
  apply elem_of_cons in Hin as [<-|Hin].
  - cbn [StackFrame_String mbind option_bind]. apply writeFrames_None.
  - destruct f as [f|]; cbn [StackFrame_String mbind option_bind];
      [now apply IH | apply writeFrames_None].
Qed.

Lemma writeFrames_extends (h : gmap addr TracedError.t)
    (st : list (option StackFrame)) (b : string) :
  None ∉ st -> exists rest, writeFrames h st b = Some (b ++ rest).
Proof.
  unfold writeFrames. revert b. induction st as [|f st IH]; intros b Hno.
  - exists "". cbn [fold_left]. now rewrite string_app_nil_r.
  - destruct f as [f|].
    + cbn [fold_left mbind option_bind StackFrame_String].
      destruct (IH (b ++ newline ++
                      Sprintf h ("- %s" ++ newline ++ "  %s:%d")
                        [AString (Function f); AString (File f);
                         AInt (Line f)]))
        as [rest E].
      { intros Hin. apply Hno. now apply list_elem_of_further. }
      rewrite E, string_app_assoc. eauto.
    + exfalso. apply Hno. apply list_elem_of_here.
Qed.

Lemma writeFrames_heap (h h' : gmap addr TracedError.t)
    (st : list (option StackFrame)) (b : string) :
  (forall pat a, forallb plainOperand a = true ->
     Sprintf h pat a = Sprintf h' pat a) ->
  writeFrames h st b = writeFrames h' st b.
Proof.
  intros Hfmt. unfold writeFrames. generalize (Some b).
  induction st as [|f st IH]; intros ob; [reflexivity|].
  cbn [fold_left]. rewrite IH. f_equal.
  destruct ob as [b0|]; [|reflexivity]. cbn [mbind option_bind].
  destruct f as [f|]; [|reflexivity]. cbn [StackFrame_String].
  now rewrite (Hfmt _ [AString (Function f); AString (File f);
                        AInt (Line f)] eq_refl).
Qed.

(** X16: when [Error] returns the message of the receiver, [String]
    panics if the stack holds a nil frame, and otherwise returns a text
    that begins with the message. *)
Theorem String_outcome (fuel : nat) (h : gmap addr TracedError.t)
    (order : list (string * any)) (p : addr) (e : TracedError.t)
    (msg : string) :
  h !! p = Some e ->
  error_Error fuel h (Traced p) = Done msg ->
  (None ∈ default [] (TracedError.Stack e) ->
     TracedError_String fuel h order p = Panicked)
  /\ (None ∉ default [] (TracedError.Stack e) ->
        exists rest, TracedError_String fuel h order p = Done (msg ++ rest)).
Proof.
  intros Ep Em. unfold TracedError_String. rewrite Ep, Em.
  set (b1 := if negb (TracedError.StatusCode e =? 0)%Z
                && negb (TracedError.StatusCode e =? 500)%Z
             then msg ++ newline ++ "statusCode="
                    ++ Sprintf h "%d" [AInt (TracedError.StatusCode e)]
             else msg).
  set (b2 := if negb (String.eqb (TracedError.Trace e) "")
                && negb (String.eqb (TracedError.Trace e) zeroTrace)
             then b1 ++ newline ++ "trace=" ++ TracedError.Trace e
             else b1).
  set (st := default [] (TracedError.Stack e)).
  set (b4 := if (0 <? length st)%nat
             then writeProperties h order b2 ++ newline
             else writeProperties h order b2).
  split.
  - intros Hin. now rewrite (writeFrames_nil_frame h st b4 Hin).
  - intros Hno. destruct (writeFrames_extends h st b4 Hno) as [r5 E5].
    rewrite E5.
    assert (E1 : exists r, b1 = msg ++ r).
    { unfold b1. destruct (_ && _); [eauto | exists ""; now rewrite string_app_nil_r]. }
    assert (E2 : exists r, b2 = msg ++ r).
    { unfold b2. destruct E1 as [r1 ->].
      destruct (_ && _); [|eauto]. rewrite string_app_assoc. eauto. }
    destruct E2 as [r2 E2].
    destruct (writeProperties_extends h order b2) as [r3 E3].
    assert (E4 : exists r, b4 = msg ++ r).
    { unfold b4. rewrite E3, E2.
      destruct (0 <? length st)%nat;
        rewrite !string_app_assoc; eauto. }
    destruct E4 as [r4 ->]. rewrite string_app_assoc. eauto.
Qed.

End PrintingFacts.

Lemma String_outcome_witness :
  TracedError_String (H := plainFmt) 2 (heap nilFrameStore) [] 0%nat
  = Panicked.
Proof.
  assert (Ep : heap nilFrameStore !! 0%nat
               = Some (TracedError.mk (Some (ErrorString 2 "x"))
                         (Some [None]) 0 "" None))
    by (vm_compute; reflexivity).
  apply (String_outcome (H := plainFmt) 2 (heap nilFrameStore) [] 0%nat
           _ "x" Ep).
  - vm_compute. reflexivity.
  - cbn [TracedError.Stack default]. apply list_elem_of_here.
Defined.

Section RoundTripString.
Context `{Fmt} `{Json}.

(** The object [UnmarshalJSON] leaves in the receiver, for the object
    that [MarshalJSON] writes. *)
Lemma round_trip_restored (fuel : nat) (h : gmap addr TracedError.t)
    (p : addr) (e : TracedError.t) (x : error) (msg : string) :
  h !! p = Some e ->
  TracedError.Err e = Some x ->
  error_Error fuel h x = Done msg ->
  encodable h e = true ->
  noFieldClash e = true ->
  intsFit e = true ->
  coerceUTF8 msg = msg ->
  coerceUTF8 (TracedError.Trace e) = TracedError.Trace e ->
  forallb frameStable (default [] (TracedError.Stack e)) = true ->
  exists kv,
    MarshalJSON fuel h p = Done (JObject kv)
    /\ (forall k j,
          reservedName k = false -> (k, j) ∈ kv ->
          exists k0 v, bag e !! k0 = Some v)
    /\ forall q s objq,
         heap s !! q = Some objq ->
         exists props,
           UnmarshalJSON q (JObject kv) s
           = Ok (true,
                 mkStore
                   (<[q := TracedError.mk
                             (Some (ErrorString (next s) msg))
                             (TracedError.Stack e)
                             (TracedError.StatusCode e)
                             (if String.eqb (TracedError.Trace e) zeroTrace
                              then "" else TracedError.Trace e)
                             props]> (heap s))
                   (S (next s)))
           /\ forall k,
                default ∅ props !! k
                = if reservedName k then None else decodedMap kv !! k.
Proof.
  intros Ep Ex Em Henc Hclash Hfit Hmsg Htr Hstable.
  destruct (MarshalJSON_members fuel h p e x msg Ep Ex Em Henc Hclash
              Hmsg Htr) as (kv & EM & Hkv & Hcan & Hstack).
  exists kv. split; [exact EM|].
  apply andb_true_iff in Hfit as [Hsc Hst].
  assert (Hsrc : forall k j, (k, j) ∈ kv ->
            reservedName k = true \/ exists k0 v, bag e !! k0 = Some v).
  { intros k j Hin. apply Hkv in Hin as (k0 & v & Em0 & -> & Ej).
    destruct (marshalMap_entry _ _ _ _ Em0)
      as [[-> _]|[(-> & _)|[(-> & _)|[(-> & _)|[Hb Eb]]]]];
      rewrite ?coerce_reserved by reflexivity; eauto. }
  split.
  { intros k j Hk Hin. destruct (Hsrc k j Hin) as [Hr|Hb];
      [congruence | exact Hb]. }
  destruct (decodeObject_canonical msg (TracedError.Trace e)
              (TracedError.StatusCode e) (default [] (TracedError.Stack e))
              kv Hsc Hst StreamedError.zero Hcan)
    as (a' & Ea & Herr & Hstat & Htrace).
  assert (Es := decodeObject_stack msg (TracedError.Trace e)
                  (TracedError.StatusCode e)
                  (default [] (TracedError.Stack e)) kv Hsc Hst Hstable
                  StreamedError.zero a' Hcan Ea).
  assert (Hnone : forall k0 j,
            (k0, j) ∈ kv ->
            forall k1 v,
              marshalMap e msg !! k1 = Some v -> k0 = coerceUTF8 k1 ->
              reservedName k0 = true -> k0 = k1).
  { intros k0 j Hin k1 v Em1 Ek Hr.
    destruct (marshalMap_entry _ _ _ _ Em1)
      as [[-> _]|[(-> & _)|[(-> & _)|[(-> & _)|[Hb Eb]]]]];
      rewrite ?coerce_reserved in Ek by reflexivity; try exact Ek.
    exfalso. unfold noFieldClash in Hclash.
    rewrite forallb_forall in Hclash.
    apply elem_of_map_to_list, list_elem_of_In, Hclash in Eb.
    cbn [fst] in Eb. rewrite Hb in Eb. cbn [orb] in Eb.
    rewrite <- Ek in Eb.
    destruct (reservedName_cases k0 Hr) as [-> | [-> | [-> | ->]]];
      rewrite findField_exact in Eb by reflexivity; discriminate Eb. }
  assert (Kerr : hasKey "error" kv = true).
  { apply hasKey_true with (j := JString msg). apply Hkv.
    exists "error", (AString msg). rewrite marshalMap_lookup. simpl.
    rewrite coerce_reserved by reflexivity. now rewrite Hmsg. }
  assert (Kstat : TracedError.StatusCode e <> 0%Z ->
            hasKey "statusCode" kv = true).
  { intros Hnz.
    apply hasKey_true with (j := JNumber (TracedError.StatusCode e)).
    apply Hkv. exists "statusCode", (AInt (TracedError.StatusCode e)).
    rewrite marshalMap_lookup. simpl. apply Z.eqb_neq in Hnz. rewrite Hnz.
    rewrite coerce_reserved by reflexivity. auto. }
  assert (Ktr1 : TracedError.Trace e <> "" ->
            TracedError.Trace e <> zeroTrace ->
            hasKey "trace" kv = true).
  { intros N1 N2.
    apply hasKey_true with (j := JString (TracedError.Trace e)).
    apply Hkv. exists "trace", (AString (TracedError.Trace e)).
    rewrite marshalMap_lookup. simpl.
    apply String.eqb_neq in N1, N2. rewrite N1, N2. simpl.
    rewrite coerce_reserved by reflexivity. now rewrite Htr. }
  assert (Ktr0 : TracedError.Trace e = zeroTrace ->
            hasKey "trace" kv = false).
  { intros Ez. apply hasKey_false. intros j Hin.
    destruct (proj1 (Hkv _ _) Hin) as (k1 & v & Em1 & Ek & Ej).
    assert (E1 := Hnone _ _ Hin k1 v Em1 Ek eq_refl). subst k1.
    rewrite marshalMap_lookup in Em1.
    apply String.eqb_eq in Ez. rewrite Ez in Em1.
    rewrite andb_false_r in Em1.
    repeat case_decide; try discriminate; congruence. }
  intros q s objq Eq.
  destruct (UnmarshalJSON_object_bag q kv s objq a' Eq Ea)
    as (props & EU & Hprops).
  exists props. split; [|exact Hprops]. rewrite EU.
  rewrite Herr, Kerr, Es, Hstack, Hstat, Htrace.
  cbn [StreamedError.StatusCode StreamedError.Trace StreamedError.Stack
         StreamedError.zero].
  repeat f_equal.
  - now destruct (TracedError.Stack e).
  - destruct (decide (TracedError.StatusCode e = 0%Z)) as [E0|N0].
    + rewrite E0. now destruct (hasKey "statusCode" kv).
    + now rewrite (Kstat N0).
  - destruct (String.eqb_spec (TracedError.Trace e) zeroTrace) as [E0|N0].
    + now rewrite (Ktr0 E0).
    + destruct (String.eqb_spec (TracedError.Trace e) "") as [E1|N1].
      * rewrite E1. now destruct (hasKey "trace" kv).
      * now rewrite (Ktr1 N1 N0).
Qed.

(** X17: for an error without properties that meets the conditions of
    the round trip, whose stack frames have function and file names that
    are read back from JSON as they are written, and with a formatter
    whose text for integers and strings does not depend on the store,
    [String] gives the same on the receiver of [UnmarshalJSON] as on the
    error [MarshalJSON] was called on; the receiver has no property. *)
Theorem String_round_trip (fuel : nat) (h : gmap addr TracedError.t)
    (p : addr) (e : TracedError.t) (x : error) (msg : string) :
  h !! p = Some e ->
  TracedError.Err e = Some x ->
  error_Error fuel h x = Done msg ->
  bag e = ∅ ->
  intsFit e = true ->
  coerceUTF8 msg = msg ->
  coerceUTF8 (TracedError.Trace e) = TracedError.Trace e ->
  forallb frameStable (default [] (TracedError.Stack e)) = true ->
  (forall h1 h2 pat a, forallb plainOperand a = true ->
     Sprintf h1 pat a = Sprintf h2 pat a) ->
  exists kv,
    MarshalJSON fuel h p = Done (JObject kv)
    /\ forall q s objq,
         heap s !! q = Some objq ->
         exists s' obj',
           UnmarshalJSON q (JObject kv) s = Ok (true, s')
           /\ heap s' !! q = Some obj'
           /\ bag obj' = ∅
           /\ TracedError_String 2 (heap s') [] q
              = TracedError_String (S fuel) h [] p.
Proof.
  intros Ep Ex Em Hbag Hfit Hmsg Htr Hstable Hfmt.
  assert (Henc : encodable h e = true).
  { unfold encodable. rewrite Hbag, map_to_list_empty. reflexivity. }
  assert (Hclash : noFieldClash e = true).
  { unfold noFieldClash. rewrite Hbag, map_to_list_empty. reflexivity. }
  destruct (round_trip_restored fuel h p e x msg Ep Ex Em Henc Hclash Hfit
              Hmsg Htr Hstable) as (kv & EM & Hsrc & HU).
  exists kv. split; [exact EM|].
  intros q s objq Eq. destruct (HU q s objq Eq) as (props & EU & Hprops).
  rewrite EU. eexists _, _. split; [reflexivity|]. cbn [heap].
  rewrite lookup_insert_eq. split; [reflexivity|].
  split.
  { unfold bag. cbn [TracedError.Properties]. apply map_eq. intros k.
    rewrite Hprops, lookup_empty.
    destruct (reservedName k) eqn:Hk; [reflexivity|].
    apply decodedMap_absent. intros j Hin.
    destruct (Hsrc k j Hk Hin) as (k0 & v & Eb).
    rewrite Hbag, lookup_empty in Eb. discriminate Eb. }
  unfold TracedError_String. rewrite Ep, lookup_insert_eq.
  cbn [error_Error]. rewrite Ep, Ex, Em, lookup_insert_eq.
  cbn [TracedError.Err TracedError.StatusCode TracedError.Trace
         TracedError.Stack writeProperties fold_left].
  set (h' := <[q := _]> (heap s)).
  rewrite (Hfmt h' h "%d" [AInt (TracedError.StatusCode e)] eq_refl).
  set (b1 := if negb (TracedError.StatusCode e =? 0)%Z
                && negb (TracedError.StatusCode e =? 500)%Z
             then _ else msg).
  assert (E2 :
    (if negb (String.eqb
               (if String.eqb (TracedError.Trace e) zeroTrace
                then "" else TracedError.Trace e) "")
        && negb (String.eqb
                   (if String.eqb (TracedError.Trace e) zeroTrace
                    then "" else TracedError.Trace e) zeroTrace)
     then b1 ++ newline ++ "trace="
            ++ (if String.eqb (TracedError.Trace e) zeroTrace
                then "" else TracedError.Trace e)
     else b1)
    = (if negb (String.eqb (TracedError.Trace e) "")
          && negb (String.eqb (TracedError.Trace e) zeroTrace)
       then b1 ++ newline ++ "trace=" ++ TracedError.Trace e
       else b1)).
  { destruct (String.eqb (TracedError.Trace e) zeroTrace) eqn:Ez.
    - now rewrite andb_false_r.
    - now rewrite Ez. }
  rewrite E2.
  now rewrite (writeFrames_heap h' h _ _ (Hfmt h' h)).
Qed.

End RoundTripString.

Lemma String_round_trip_witness :
  exists kv s',
    MarshalJSON (H := plainJson) 2 (heap zeroTraceStore) 0%nat
    = Done (JObject kv)
    /\ UnmarshalJSON (H := plainJson) 0%nat (JObject kv) unsetStore
       = Ok (true, s')
    /\ TracedError_String (H := plainFmt) 2 (heap s') [] 0%nat
       = TracedError_String (H := plainFmt) 3 (heap zeroTraceStore) []
           0%nat.
Proof.
  set (e := default TracedError.zero (heap zeroTraceStore !! 0%nat)).
  assert (Ep : heap zeroTraceStore !! 0%nat = Some e)
    by (vm_compute; reflexivity).
  assert (Ex : TracedError.Err e = Some (ErrorString 1 "error!"))
    by (vm_compute; reflexivity).
  assert (Hbag : bag e = ∅) by (vm_compute; reflexivity).
  assert (Hfit : intsFit e = true) by (vm_compute; reflexivity).
  assert (Htr : coerceUTF8 (Json := plainJson) (TracedError.Trace e)
                = TracedError.Trace e) by reflexivity.
  assert (Hst : forallb (frameStable (H := plainJson))
                  (default [] (TracedError.Stack e)) = true)
    by (vm_compute; reflexivity).
  destruct (String_round_trip (H := plainFmt) (H0 := plainJson) 2
              (heap zeroTraceStore) 0%nat e (ErrorString 1 "error!")
              "error!" Ep Ex eq_refl Hbag Hfit eq_refl Htr Hst
              (fun _ _ _ _ _ => eq_refl))
    as (kv & EM & HU).
  destruct (HU 0%nat unsetStore unsetObject eq_refl)
    as (s' & obj' & EU & _ & _ & ES).
  exists kv, s'. split; [exact EM|]. split; [exact EU|]. exact ES.
Defined.

(** ** The object MarshalJSON writes, for any traced error *)

Section Marshalled.
Context `{Json}.

Lemma propsEncodable_entry (h : gmap addr TracedError.t)
    (e : TracedError.t) (msg k : string) (v : any) :
  propsEncodable h e = true ->
  marshalMap e msg !! k = Some v ->
  is_Some (json_Marshal_any h v).
Proof.
  intros Henc Em.
  destruct (marshalMap_entry _ _ _ _ Em)
    as [[_ ->]|[(_ & -> & _)|[(_ & -> & _)|[(_ & st & _ & ->)|[Hr Eb]]]]];
    cbn [json_Marshal_any]; eauto.
  unfold propsEncodable in Henc. rewrite forallb_forall in Henc.
  apply elem_of_map_to_list, list_elem_of_In, Henc in Eb.
  cbn [fst snd] in Eb. rewrite Hr in Eb. cbn [orb] in Eb.
  destruct (json_Marshal_any h v); [eauto | discriminate Eb].
Qed.

Lemma MarshalJSON_object (fuel : nat) (h : gmap addr TracedError.t)
    (p : addr) (e : TracedError.t) (x : error) (msg : string) :
  h !! p = Some e ->
  TracedError.Err e = Some x ->
  error_Error fuel h x = Done msg ->
  propsEncodable h e = true ->
  exists kv,
    MarshalJSON fuel h p = Done (JObject kv)
    /\ forall k' j,
         (k', j) ∈ kv <->
         exists k v,
           marshalMap e msg !! k = Some v /\ k' = coerceUTF8 k
           /\ json_Marshal_any h v = Some j.
Proof.
  intros Ep Ex Em Henc.
  destruct (json_Marshal_map_members h (marshalMap e msg))
    as (kv & Ekv & Hkv).
  { intros k v. now apply propsEncodable_entry. }
  exists kv. rewrite (MarshalJSON_unfold _ _ _ _ _ _ Ep Ex Em), Ekv.
  split; [reflexivity | exact Hkv].
Qed.

(** A property under a key that is none of the four names is not
    written under one of them. *)
Lemma noFieldClash_entry (e : TracedError.t) (k : string) (v : any) :
  noFieldClash e = true ->
  reservedName k = false ->
  bag e !! k = Some v ->
  findField streamedFields (coerceUTF8 k) = None.
Proof.
  intros Hclash Hk Eb. unfold noFieldClash in Hclash.
  rewrite forallb_forall in Hclash.
  apply elem_of_map_to_list, list_elem_of_In, Hclash in Eb.
  cbn [fst] in Eb. rewrite Hk in Eb. cbn [orb] in Eb.
  now destruct (findField streamedFields (coerceUTF8 k)).
Qed.

(** Every member of the object is skipped by the decoder of
    [StreamedError] or carries the built-in value of its name. *)
Lemma members_canonical (h : gmap addr TracedError.t) (e : TracedError.t)
    (msg : string) (kv : list (string * json)) :
  noFieldClash e = true ->
  (forall k' j,
     (k', j) ∈ kv ->
     exists k v,
       marshalMap e msg !! k = Some v /\ k' = coerceUTF8 k
       /\ json_Marshal_any h v = Some j) ->
  forall k j,
    (k, j) ∈ kv ->
    findField streamedFields k = None
    \/ canonical (coerceUTF8 msg) (coerceUTF8 (TracedError.Trace e))
         (TracedError.StatusCode e) (default [] (TracedError.Stack e)) k j.
Proof.
  intros Hclash Hkv k j Hin.
  destruct (Hkv k j Hin) as (k0 & v & Em0 & -> & Ej).
  destruct (marshalMap_entry _ _ _ _ Em0)
    as [[-> ->]|[(-> & -> & _)|[(-> & -> & _)|[(-> & st & Es & ->)|[Hb Eb]]]]].
  - right. left. rewrite coerce_reserved by reflexivity.
    cbn [json_Marshal_any] in Ej. now injection Ej as <-.
  - right. right. left. rewrite coerce_reserved by reflexivity.
    cbn [json_Marshal_any] in Ej. now injection Ej as <-.
  - right. right. right. left. rewrite coerce_reserved by reflexivity.
    cbn [json_Marshal_any] in Ej. now injection Ej as <-.
  - right. right. right. right. rewrite coerce_reserved by reflexivity.
    cbn [json_Marshal_any] in Ej. rewrite Es. cbn [default].
    now injection Ej as <-.
  - left. now apply (noFieldClash_entry e k0 v).
Qed.


End Marshalled.


(** ** The properties through JSON *)

Lemma float64_of_Z_exact (z : Z) :
  (Z.abs z <= 2 ^ 53)%Z -> float64_of_Z z = z.
Proof.
  intros Hz. unfold float64_of_Z.
  destruct (Z.leb_spec (Z.abs z) (2 ^ 53)); [reflexivity | lia].
Qed.

Section RoundTripScalars.
Context `{Json}.

Lemma scalarValue_readBack (h : gmap addr TracedError.t) (v : any) :
  scalarValue v = true ->
  exists j, json_Marshal_any h v = Some j /\ decodeAny j = readBack v.
Proof.
  destruct v; intros Hv; try discriminate Hv;
    cbn [json_Marshal_any]; eexists; (split; [reflexivity|]); reflexivity.
Qed.

Lemma scalarProps_entry (e : TracedError.t) (k : string) (v : any) :
  scalarProps e = true ->
  reservedName k = false ->
  bag e !! k = Some v ->
  scalarValue v = true.
Proof.
  intros Hs Hk Eb. unfold scalarProps in Hs. rewrite forallb_forall in Hs.
  apply elem_of_map_to_list, list_elem_of_In, Hs in Eb.
  cbn [fst snd] in Eb. now rewrite Hk in Eb.
Qed.

Lemma scalarProps_encodable (h : gmap addr TracedError.t)
    (e : TracedError.t) :
  scalarProps e = true -> propsEncodable h e = true.
Proof.
  unfold scalarProps, propsEncodable. rewrite !forallb_forall.
  intros Hs kv Hin. specialize (Hs kv Hin).
  destruct (reservedName kv.1); [reflexivity|]. cbn [orb] in Hs |- *.
  destruct (scalarValue_readBack h kv.2 Hs) as (j & -> & _). reflexivity.
Qed.

(** X13: for a traced error whose cause has a message, whose properties
    under keys other than the four field names are nil, booleans, strings
    or values of [int], none of whose other property keys is decoded into
    a field of [StreamedError], and whose property keys are read back
    from JSON as they are written, [UnmarshalJSON] on the object
    [MarshalJSON] writes returns without an error and leaves in the
    receiver exactly the properties whose key is none of the four, each
    with its value as it is read back: nil, a boolean and a string as
    they were written, and an integer as the [float64] nearest to it,
    which holds the integer itself when that is at most [2 ^ 53] in
    absolute value. *)
Theorem JSON_round_trip_properties (fuel : nat)
    (h : gmap addr TracedError.t) (p : addr) (e : TracedError.t)
    (x : error) (msg : string) :
  h !! p = Some e ->
  TracedError.Err e = Some x ->
  error_Error fuel h x = Done msg ->
  scalarProps e = true ->
  noFieldClash e = true ->
  intsFit e = true ->
  keysStable e = true ->
  exists kv,
    MarshalJSON fuel h p = Done (JObject kv)
    /\ forall q s objq,
         heap s !! q = Some objq ->
         exists s' obj',
           UnmarshalJSON q (JObject kv) s = Ok (true, s')
           /\ heap s' !! q = Some obj'
           /\ (forall k,
                 bag obj' !! k
                 = if reservedName k then None
                   else readBack <$> bag e !! k)
           /\ (forall k z,
                 reservedName k = false ->
                 bag e !! k = Some (AInt z) ->
                 (Z.abs z <= 2 ^ 53)%Z ->
                 bag obj' !! k = Some (AFloat64 z)).
Proof.
  intros Ep Ex Em Hscal Hclash Hfit Hkeys.
  destruct (MarshalJSON_object fuel h p e x msg Ep Ex Em
              (scalarProps_encodable h e Hscal)) as (kv & EM & Hkv).
  exists kv. split; [exact EM|].
  assert (Hcan := members_canonical h e msg kv Hclash
                    (fun k j Hin => proj1 (Hkv k j) Hin)).
  apply andb_true_iff in Hfit as [Hsc Hst].
  destruct (decodeObject_canonical (coerceUTF8 msg)
              (coerceUTF8 (TracedError.Trace e))
              (TracedError.StatusCode e)
              (default [] (TracedError.Stack e))
              kv Hsc Hst StreamedError.zero Hcan)
    as (a' & Ea & _).
  assert (Hstable : forall k v, bag e !! k = Some v -> coerceUTF8 k = k).
  { intros k v Eb. unfold keysStable in Hkeys.
    rewrite forallb_forall in Hkeys.
    apply elem_of_map_to_list, list_elem_of_In, Hkeys in Eb.
    cbn [fst] in Eb. now apply String.eqb_eq in Eb. }
  (* a member whose key is not a field name is the property of that key *)
  assert (Hsrc : forall k j,
            reservedName k = false -> (k, j) ∈ kv ->
            exists v, bag e !! k = Some v /\ json_Marshal_any h v = Some j).
  { intros k j Hk Hin. apply Hkv in Hin as (k0 & v & Em0 & Ek & Ej).
    destruct (marshalMap_entry _ _ _ _ Em0)
      as [[-> _]|[(-> & _)|[(-> & _)|[(-> & _)|[Hb Eb]]]]];
      rewrite ?coerce_reserved in Ek by reflexivity;
      try (subst k; discriminate Hk).
    rewrite (Hstable k0 v Eb) in Ek. subst k0. eauto. }
  assert (Hdec : forall k,
            reservedName k = false ->
            decodedMap kv !! k = readBack <$> bag e !! k).
  { intros k Hk. destruct (bag e !! k) as [v|] eqn:Eb;
      cbn [fmap option_fmap option_map].
    - destruct (scalarValue_readBack h v
                  (scalarProps_entry e k v Hscal Hk Eb)) as (j & Ej & <-).
      apply decodedMap_unique.
      + apply Hkv. exists k, v. rewrite (Hstable k v Eb).
        split; [|auto]. rewrite marshalMap_lookup.
        unfold reservedName, streamedFields in Hk. cbn [existsb] in Hk.
        repeat case_decide; subst; try discriminate Hk. exact Eb.
      + intros j' Hin. destruct (Hsrc k j' Hk Hin) as (v' & Eb' & Ej').
        congruence.
    - apply decodedMap_absent. intros j Hin.
      destruct (Hsrc k j Hk Hin) as (v' & Eb' & _). congruence. }
  intros q s objq Eq.
  destruct (UnmarshalJSON_object_bag q kv s objq a' Eq Ea)
    as (props & EU & Hprops).
  rewrite EU. eexists _, _. split; [reflexivity|]. cbn [heap].
  rewrite lookup_insert_eq. split; [reflexivity|].
  assert (Hbag : forall k,
            bag (TracedError.mk
                   (Some (ErrorString (next s) (StreamedError.Error a')))
                   (StreamedError.Stack a') (StreamedError.StatusCode a')
                   (StreamedError.Trace a') props) !! k
            = if reservedName k then None else readBack <$> bag e !! k).
  { intros k. unfold bag at 1. cbn [TracedError.Properties].
    rewrite Hprops. destruct (reservedName k) eqn:Hk; [reflexivity|].
    now apply Hdec. }
  split; [exact Hbag|].
  intros k z Hk Eb Hz. rewrite Hbag, Hk, Eb.
  cbn [fmap option_fmap option_map readBack].
  now rewrite float64_of_Z_exact.
Qed.

End RoundTripScalars.

(** The property ["id"] of value [2 ^ 53 + 1], an [int], comes back as
    the [float64] [2 ^ 53]; the property ["statusCode"] does not come
    back. *)
Lemma JSON_round_trip_properties_witness :
  exists kv s' obj',
    MarshalJSON (H := plainJson) 2 (heap shadowedStore) 0%nat
    = Done (JObject kv)
    /\ UnmarshalJSON (H := plainJson) 0%nat (JObject kv) unsetStore
       = Ok (true, s')
    /\ heap s' !! 0%nat = Some obj'
    /\ bag shadowedObject !! "id" = Some (AInt 9007199254740993)
    /\ bag obj' !! "id" = Some (AFloat64 9007199254740992)
    /\ bag obj' !! "statusCode" = None.
Proof.
  assert (Ep : heap shadowedStore !! 0%nat = Some shadowedObject)
    by (vm_compute; reflexivity).
  assert (Ex : TracedError.Err shadowedObject
               = Some (ErrorString 1 "bad input"))
    by (vm_compute; reflexivity).
  assert (Hscal : scalarProps shadowedObject = true)
    by (vm_compute; reflexivity).
  assert (Hclash : noFieldClash (H := plainJson) shadowedObject = true)
    by (vm_compute; reflexivity).
  assert (Hfit : intsFit shadowedObject = true)
    by (vm_compute; reflexivity).
  assert (Hk : keysStable (H := plainJson) shadowedObject = true)
    by (vm_compute; reflexivity).
  assert (Eb : bag shadowedObject !! "id" = Some (AInt 9007199254740993))
    by (vm_compute; reflexivity).
  destruct (JSON_round_trip_properties (H := plainJson) 2
              (heap shadowedStore) 0%nat shadowedObject
              (ErrorString 1 "bad input") "bad input"
              Ep Ex eq_refl Hscal Hclash Hfit Hk)
    as (kv & EM & HU).
  destruct (HU 0%nat unsetStore unsetObject eq_refl)
    as (s' & obj' & EU & L & Hb & _).
  exists kv, s', obj'. split; [exact EM|]. split; [exact EU|].
  split; [exact L|]. split; [exact Eb|]. split.
  - rewrite (Hb "id"), Eb. vm_compute. reflexivity.
  - rewrite (Hb "statusCode"). reflexivity.
Defined.

(** ** The sign of the status code, operation by operation *)

Lemma orDefault_nonneg (k : Z) : (0 <= k)%Z -> (0 <= orDefault k)%Z.
Proof. intros Hk. unfold orDefault. destruct (k =? 0)%Z; lia. Qed.

(** C7 (as amended): the status code stored in the traced error that
    [New], [Trace], [Convert], [Join] or [CatchPanic] returns is in
    [[0, ∞)], and is not zero, when the status codes that go in are in
    [[0, ∞)]: the integers the loop of [New] takes as status codes and the
    status codes stored in the traced errors that are merged, converted,
    joined or recovered.  No operation checks the sign.  What the
    function given to [CatchPanic] returns is passed on as it is.  And
    [StatusCode] reads a stored zero as 500 and any other stored status
    code as it is. *)
Theorem status_code_is_not_negative `{Fmt} (callers : list RawFrame)
    (s : store) :
  heap s !! next s = None ->
  (forall pattern args,
     forallb (loadable (heap s)) (scanned pattern args) = true ->
     forallb (nonnegStatus (heap s)) (scanned pattern args) = true ->
     exists obj s',
       New callers pattern args s = Ok (Some (Traced (next s)), s')
       /\ heap s' !! next s = Some obj
       /\ (0 <= TracedError.StatusCode obj)%Z
       /\ TracedError.StatusCode obj <> 0%Z)
  /\ (forall e a,
        forallb (loadable (heap s)) (classify (AError e :: a)) = true ->
        forallb (nonnegStatus (heap s)) (classify (AError e :: a)) = true ->
        exists obj s',
          Trace callers (Some e) a s = Ok (Some (Traced (next s)), s')
          /\ heap s' !! next s = Some obj
          /\ (0 <= TracedError.StatusCode obj)%Z
          /\ TracedError.StatusCode obj <> 0%Z)
  /\ (forall e,
        joinable (heap s) (Some e) = true ->
        nonnegError (heap s) e = true ->
        exists p s' obj',
          Convert (Some e) s = Ok (Some p, s')
          /\ heap s' !! p = Some obj'
          /\ (0 <= TracedError.StatusCode obj')%Z
          /\ TracedError.StatusCode obj' <> 0%Z)
  /\ (forall errs,
        forallb (joinable (heap s)) errs = true ->
        forallb (nonnegError (heap s)) (omap id errs) = true ->
        exists r s',
          Join callers errs s = Ok (r, s')
          /\ (omap id errs = [] -> r = None)
          /\ (omap id errs <> [] ->
              exists p obj',
                r = Some (Traced p)
                /\ heap s' !! p = Some obj'
                /\ (0 <= TracedError.StatusCode obj')%Z
                /\ TracedError.StatusCode obj' <> 0%Z))
  /\ (forall f r inner s1,
        f s = (Panics r inner, s1) ->
        r <> ANil ->
        recoverable (heap s1) r = true ->
        nonnegValue (heap s1) r = true ->
        exists p s' obj',
          CatchPanic callers f s = Ok (Some (Traced p), s')
          /\ heap s' !! p = Some obj'
          /\ (0 <= TracedError.StatusCode obj')%Z
          /\ TracedError.StatusCode obj' <> 0%Z)
  /\ (forall f err s1,
        f s = (Returns err, s1) ->
        CatchPanic callers f s = Ok (err, s1))
  /\ (forall p obj,
        heap s !! p = Some obj ->
        exists s',
          StatusCode (Some (Traced p)) s
          = Ok (orDefault (TracedError.StatusCode obj), s')
          /\ (TracedError.StatusCode obj = 0%Z ->
              StatusCode (Some (Traced p)) s = Ok (500%Z, s'))
          /\ (TracedError.StatusCode obj <> 0%Z ->
              StatusCode (Some (Traced p)) s
              = Ok (TracedError.StatusCode obj, s))).
Proof.
  intros Hf.
  assert (HNew : forall frames pattern args,
            forallb (loadable (heap s)) (scanned pattern args) = true ->
            forallb (nonnegStatus (heap s)) (scanned pattern args) = true ->
            exists obj s',
              New frames pattern args s = Ok (Some (Traced (next s)), s')
              /\ heap s' !! next s = Some obj
              /\ (0 <= TracedError.StatusCode obj)%Z
              /\ TracedError.StatusCode obj <> 0%Z).
  { intros frames pattern args Hq Hn. apply loadable_sound in Hq.
    destruct (New_status frames pattern args s Hf Hq)
      as (obj & s' & E & L & _ & F).
    exists obj, s'. split; [exact E|]. split; [exact L|]. rewrite F.
    split; [|apply orDefault_nonzero].
    apply orDefault_nonneg, fold_status_nonneg; [assumption|].
    cbn [TracedError.StatusCode TracedError.zero]. lia. }
  assert (HConv : forall (s0 : store) e,
            joinable (heap s0) (Some e) = true ->
            nonnegError (heap s0) e = true ->
            exists p s' obj',
              Convert (Some e) s0 = Ok (Some p, s')
              /\ heap s' !! p = Some obj'
              /\ (0 <= TracedError.StatusCode obj')%Z
              /\ TracedError.StatusCode obj' <> 0%Z).
  { intros s0 e Hj Hn. destruct e as [p0 m|p0 m es|p0 es|p0].
    1-3: rewrite Convert_other by discriminate;
      eexists _, _, _; (split; [reflexivity|]); cbn [heap next];
      rewrite lookup_insert_eq; (split; [reflexivity|]);
      cbn [TracedError.StatusCode]; split; (lia || discriminate).
    cbn [joinable nonnegError] in Hj, Hn.
    destruct (heap s0 !! p0) as [obj|] eqn:Ep; [|discriminate Hj].
    apply Z.leb_le in Hn.
    rewrite (Convert_Traced _ _ _ Ep).
    destruct (TracedError.StatusCode obj =? 0)%Z eqn:Ez.
    - eexists _, _, _. split; [reflexivity|]. cbn [heap next].
      rewrite lookup_insert_eq. split; [reflexivity|].
      destruct obj. cbn. split; (lia || discriminate).
    - apply Z.eqb_neq in Ez. exists p0, s0, obj.
      split; [reflexivity|]. split; [exact Ep|]. split; assumption. }
  split; [exact (HNew callers)|]. split.
  { intros e a Hq Hn. unfold Trace.
    apply (HNew (libFrame "Trace" :: callers) "" (AError e :: a));
      assumption. }
  split.
  { intros e Hj Hn. exact (HConv s e Hj Hn). }
  split.
  { intros errs Hj Hn. rewrite Join_cases.
    assert (Hval : forall e, e ∈ omap id errs ->
              joinable (heap s) (Some e) = true).
    { intros e He. apply list_elem_of_omap in He as (x0 & Hx & Ex).
      cbn in Ex. subst x0. rewrite forallb_forall in Hj.
      apply Hj. now apply list_elem_of_In. }
    destruct (omap id errs) as [|e1 [|e2 live]] eqn:El.
    - exists None, s. split; [reflexivity|]. split; [reflexivity|].
      intros N. now elim N.
    - cbn [forallb] in Hn. apply andb_true_iff in Hn as [Hn _].
      specialize (Hval e1 (list_elem_of_here _ _)).
      destruct e1 as [p0 m|p0 m es|p0 es|p0].
      1-3: rewrite traceCaller_other by discriminate;
        eexists _, _; (split; [reflexivity|]);
        (split; [discriminate|]); intros _;
        eexists _, _; (split; [reflexivity|]); cbn [heap];
        rewrite lookup_insert_eq; (split; [reflexivity|]);
        rewrite StatusCode_traced; cbn [TracedError.StatusCode];
        split; [apply orDefault_nonneg; lia | apply orDefault_nonzero].
      cbn [joinable nonnegError] in Hval, Hn.
      destruct (heap s !! p0) as [obj|] eqn:Ep; [|discriminate Hval].
      apply Z.leb_le in Hn.
      rewrite (traceCaller_Traced _ _ _ _ Ep).
      eexists _, _. split; [reflexivity|]. split; [discriminate|].
      intros _. eexists _, _. split; [reflexivity|]. cbn [heap].
      rewrite lookup_insert_eq. split; [reflexivity|].
      rewrite StatusCode_traced.
      split; [now apply orDefault_nonneg | apply orDefault_nonzero].
    - unfold stderrors_Join. rewrite El.
      cbv beta iota delta [bind alloc ret].
      rewrite traceCaller_other by discriminate.
      eexists _, _. split; [reflexivity|]. split; [discriminate|].
      intros _. eexists _, _. split; [reflexivity|]. cbn [heap next].
      rewrite lookup_insert_eq. split; [reflexivity|].
      rewrite StatusCode_traced. cbn [TracedError.StatusCode].
      split; [apply orDefault_nonneg; lia | apply orDefault_nonzero]. }
  split.
  { intros f r inner s1 E Nn Hrec Hn. unfold CatchPanic. rewrite E.
    set (frames := (libFrame "CatchPanic.func1"
                      :: inner ++ libFrame "CatchPanic" :: callers)%list).
    assert (HT : forall (s0 : store) e,
              joinable (heap s0) (Some e) = true ->
              nonnegError (heap s0) e = true ->
              exists p s' obj',
                traceFull frames (Some e) 1 s0 = Ok (Some (Traced p), s')
                /\ heap s' !! p = Some obj'
                /\ (0 <= TracedError.StatusCode obj')%Z
                /\ TracedError.StatusCode obj' <> 0%Z).
    { intros s0 e Hj Hne. destruct e as [p0 m|p0 m es|p0 es|p0].
      1-3: rewrite traceFull_other by discriminate;
        eexists _, _, _; (split; [reflexivity|]); cbn [heap];
        rewrite lookup_insert_eq; (split; [reflexivity|]);
        cbn [TracedError.StatusCode]; split; (lia || discriminate).
      cbn [joinable nonnegError] in Hj, Hne.
      destruct (heap s0 !! p0) as [obj|] eqn:Ep; [|discriminate Hj].
      apply Z.leb_le in Hne.
      rewrite (traceFull_Traced frames 1 s0 p0 obj Ep).
      eexists _, _, _. split; [reflexivity|]. cbn [heap].
      rewrite lookup_insert_eq. split; [reflexivity|].
      cbn [TracedError.StatusCode].
      split; [now apply orDefault_nonneg | apply orDefault_nonzero]. }
    assert (HE : forall v,
              exists p s' obj',
                (let* err := fmt_Errorf "%v" [v] in
                 traceFull frames (Some err) 1) s1
                = Ok (Some (Traced p), s')
                /\ heap s' !! p = Some obj'
                /\ (0 <= TracedError.StatusCode obj')%Z
                /\ TracedError.StatusCode obj' <> 0%Z).
    { intros v. destruct (fmt_Errorf_Ok "%v" [v] s1) as [e Ee].
      assert (K : errorKind e <> 3%nat).
      { revert Ee. unfold fmt_Errorf, bind, alloc, ret.
        destruct (wrapped "%v" [v]); intros [= <-]; discriminate. }
      unfold bind at 1. rewrite Ee.
      apply HT; destruct e; try reflexivity; now elim K. }
    destruct r as [|k|t|e|b|z|l|j|tag]; try (now elim Nn); try apply HE.
    unfold bind at 1, ret at 1. apply HT.
    - destruct e; try reflexivity. exact Hrec.
    - exact Hn. }
  split.
  { intros f err s1 E. unfold CatchPanic. now rewrite E. }
  intros p obj Ep.
  destruct (StatusCode_Traced s p obj Ep) as (s' & E & Hs).
  exists s'. split; [exact E|]. split.
  - intros E0. rewrite E, E0. reflexivity.
  - intros N0. rewrite E, (Hs N0). unfold orDefault.
    apply Z.eqb_neq in N0. now rewrite N0.
Qed.

(** [New("bad input", 400)], and [CatchPanic] on a function that divides
    by zero. *)
Lemma status_code_is_not_negative_witness :
  (exists obj s',
      New (H := plainFmt) testCaller "bad input" [AInt 400] emptyStore
      = Ok (Some (Traced 0), s')
      /\ heap s' !! 0%nat = Some obj
      /\ (0 <= TracedError.StatusCode obj)%Z
      /\ TracedError.StatusCode obj <> 0%Z)
  /\ (exists p s' obj',
        CatchPanic (H := plainFmt) testCaller dividesByZero emptyStore
        = Ok (Some (Traced p), s')
        /\ heap s' !! p = Some obj'
        /\ (0 <= TracedError.StatusCode obj')%Z
        /\ TracedError.StatusCode obj' <> 0%Z).
Proof.
  destruct (status_code_is_not_negative (H := plainFmt) testCaller
              emptyStore (lookup_empty _))
    as (HN & _ & _ & _ & HC & _).
  split.
  - exact (HN "bad input" [AInt 400] eq_refl eq_refl).
  - apply (HC dividesByZero _ panicFrames emptyStore eq_refl);
      [discriminate | reflexivity | reflexivity].
Defined.

(** A negative integer is stored as the status code. *)
Lemma status_code_is_not_negative_counterexample :
  exists obj s',
    New (H := plainFmt) testCaller "msg" [AInt (-1)] emptyStore
    = Ok (Some (Traced 0), s')
    /\ heap s' !! 0%nat = Some obj
    /\ TracedError.StatusCode obj = (-1)%Z
    /\ ~ (0 <= TracedError.StatusCode obj)%Z.
Proof.
  eexists _, _.
  split; [vm_compute; reflexivity|].
  split; [vm_compute; reflexivity|].
  split; [reflexivity|]. cbn [TracedError.StatusCode]. lia.
Qed.
